(** * pingmon: a terminal ping monitor

    A shallow embedding of [pingmon.py] and the properties of its sampling,
    history and rendering pipeline.

    Layout: the number model, exceptions, strings, styled text and the
    bounded history first; then the program's functions in the order of the
    source; then the lemmas and the theorems. *)

From Stdlib Require Import Ascii String DecimalString.
From Stdlib Require Import ZArith QArith Qround Qpower Qabs Lqa Lia Bool List.
Import ListNotations.

Open Scope string_scope.
Open Scope list_scope.
Open Scope Q_scope.

(* ------------------------------------------------------------------ *)
(** ** Numbers

    A finite Python [float] is modelled by the rational it denotes, and a
    [float] in general by the type [float] below: a finite number, an
    infinity or NaN.  The sign of zero is outside the model; nothing the
    program does observes it.

    Two levels of arithmetic follow.  The readings of the clock, of the
    disk counters and of [psutil], and what the loop computes from them,
    are finite numbers of ordinary magnitude; the operations on them
    ([fadd], [fsub], [fmul], [fdiv]) compute the exact result and round it
    to a 53-bit significand, ties to even, with no bound on the exponent.
    Where a value can leave the finite range in the program (a round-trip
    time read by [float()], the scaled quotient of the sparklines, the
    sleep interval) the operations are those on [float] ([fl_div],
    [fl_mul], [fl_sub], ...), which round to binary64 with its exponent
    range: results below the normal range are rounded to a multiple of
    2^-1074 and results beyond the largest float become an infinity. *)

(** Nearest integer, ties to the even one. *)
Definition round_half_even (x : Q) : Z :=
  let f := Qfloor x in
  match Qcompare (x - inject_Z f) (1 # 2) with
  | Lt => f
  | Gt => (f + 1)%Z
  | Eq => if Z.even f then f else (f + 1)%Z
  end.

(** [ilog2 x] is the binary exponent of a positive [x]:
    [2 ^ ilog2 x <= x < 2 ^ (ilog2 x + 1)]. *)
Definition ilog2 (x : Q) : Z :=
  let k := (Z.log2 (Qnum x) - Z.log2 (Zpos (Qden x)))%Z in
  if Qle_bool (2 ^ k) x then k else (k - 1)%Z.

Definition round53_pos (x : Q) : Q :=
  let s := (52 - ilog2 x)%Z in
  inject_Z (round_half_even (x * 2 ^ s)) / 2 ^ s.

(** Rounding to binary64 precision. *)
Definition round53 (x : Q) : Q :=
  match Qnum x with
  | Z0 => 0
  | Zpos _ => round53_pos x
  | Zneg _ => - round53_pos (- x)
  end.

(** [a > b] and [a >= b] on floats. *)
Definition py_gt (a b : Q) : bool := negb (Qle_bool a b).
Definition py_ge (a b : Q) : bool := Qle_bool b a.

(** [max(a, b)] keeps its first argument unless a later one is strictly
    greater. *)
Definition py_max2 (a b : Q) : Q := if py_gt b a then b else a.

(** [max(a, b, c)]. *)
Definition py_max3 (a b c : Q) : Q := py_max2 (py_max2 a b) c.

(** [int(x)]: truncation toward zero. *)
Definition py_int (x : Q) : Z := Z.quot (Qnum x) (Zpos (Qden x)).

(** A float literal such as [0.8]. *)
Definition float_lit (x : Q) : Q := round53 x.

Definition fadd (a b : Q) : Q := round53 (a + b).
Definition fsub (a b : Q) : Q := round53 (a - b).
Definition fmul (a b : Q) : Q := round53 (a * b).

(** *** Floats with their exponent range *)

Inductive float : Type :=
| Finite (q : Q)
| PosInf
| NegInf
| NaN.

(** The least power of two beyond the largest float, [2 ^ 1024], and the
    least positive normal float, [2 ^ -1022]. *)
Definition FLOAT_LIMIT : Q := inject_Z (2 ^ 1024).
Definition FLOAT_MIN_NORMAL : Q := 1 / inject_Z (2 ^ 1022).

(** Rounding to the nearest binary64 number, the exponent bounded below:
    under the least normal number the numbers are the multiples of
    [2 ^ -1074]. *)
Definition round64_pos (x : Q) : Q :=
  if Qle_bool FLOAT_MIN_NORMAL x then round53_pos x
  else inject_Z (round_half_even (x * inject_Z (2 ^ 1074))) / inject_Z (2 ^ 1074).

Definition round64 (x : Q) : Q :=
  match Qnum x with
  | Z0 => 0
  | Zpos _ => round64_pos x
  | Zneg _ => - round64_pos (- x)
  end.

(** The float an exact result [x] is delivered as: the nearest binary64
    number, or an infinity when that number would reach [2 ^ 1024]. *)
Definition b64 (x : Q) : float :=
  let r := round64 x in
  if Qle_bool FLOAT_LIMIT r then PosInf
  else if Qle_bool r (- FLOAT_LIMIT) then NegInf
  else Finite r.

(** [a > b]: false as soon as one side is NaN. *)
Definition fl_gt (a b : float) : bool :=
  match a, b with
  | NaN, _ => false
  | _, NaN => false
  | Finite x, Finite y => py_gt x y
  | PosInf, PosInf => false
  | PosInf, _ => true
  | NegInf, _ => false
  | Finite _, PosInf => false
  | Finite _, NegInf => true
  end.

(** [max(a, b)] on floats. *)
Definition fl_max2 (a b : float) : float := if fl_gt b a then b else a.

(** [a - b] and [a * b]. *)
Definition fl_sub (a b : float) : float :=
  match a, b with
  | NaN, _ => NaN
  | _, NaN => NaN
  | Finite x, Finite y => b64 (x - y)
  | PosInf, PosInf => NaN
  | NegInf, NegInf => NaN
  | PosInf, _ => PosInf
  | NegInf, _ => NegInf
  | Finite _, PosInf => NegInf
  | Finite _, NegInf => PosInf
  end.

Definition fl_mul (a b : float) : float :=
  match a, b with
  | NaN, _ => NaN
  | _, NaN => NaN
  | Finite x, Finite y => b64 (x * y)
  | Finite x, PosInf | PosInf, Finite x =>
      if Qeq_bool x 0 then NaN else if py_gt x 0 then PosInf else NegInf
  | Finite x, NegInf | NegInf, Finite x =>
      if Qeq_bool x 0 then NaN else if py_gt x 0 then NegInf else PosInf
  | PosInf, PosInf | NegInf, NegInf => PosInf
  | PosInf, NegInf | NegInf, PosInf => NegInf
  end.

(* ------------------------------------------------------------------ *)
(** ** Exceptions

    [UnicodeDecodeError] is a [ValueError] and is not told apart from
    it. *)

Inductive exn : Type :=
| TimeoutExpired
| OSError
| KeyboardInterrupt
| ValueError
| IndexError
| ZeroDivisionError
| OverflowError.

Inductive result (A : Type) : Type :=
| Ok (a : A)
| Raise (e : exn).

Arguments Ok {A} a.
Arguments Raise {A} e.

Definition bind {A B : Type} (c : result A) (k : A -> result B) : result B :=
  match c with
  | Ok a => k a
  | Raise e => Raise e
  end.

Notation "x <- c ;; k" := (bind c (fun x => k))
  (at level 61, c at next level, right associativity).

(** [a / b] on finite floats of ordinary magnitude; a zero divisor
    raises. *)
Definition fdiv (a b : Q) : result Q :=
  if Qeq_bool b 0 then Raise ZeroDivisionError else Ok (round53 (a / b)).

(** An [int] converted to [float], as the division of an [int] by a
    [float] does first: an [int] that rounds beyond the largest float
    raises. *)
Definition float_of_int (z : Z) : result Q :=
  let r := round53 (inject_Z z) in
  if (Qle_bool FLOAT_LIMIT r || Qle_bool r (- FLOAT_LIMIT))%bool
  then Raise OverflowError else Ok r.

(** [a / b] on floats: a zero divisor raises whatever the dividend. *)
Definition fl_div (a b : float) : result float :=
  match b with
  | Finite y =>
      if Qeq_bool y 0 then Raise ZeroDivisionError
      else match a with
           | Finite x => Ok (b64 (x / y))
           | PosInf => Ok (if py_gt y 0 then PosInf else NegInf)
           | NegInf => Ok (if py_gt y 0 then NegInf else PosInf)
           | NaN => Ok NaN
           end
  | PosInf | NegInf =>
      match a with
      | Finite _ => Ok (Finite 0)
      | _ => Ok NaN
      end
  | NaN => Ok NaN
  end.

(** [int(a)] of a float: truncation toward zero; an infinity and NaN
    raise. *)
Definition fl_int (a : float) : result Z :=
  match a with
  | Finite q => Ok (py_int q)
  | PosInf | NegInf => Raise OverflowError
  | NaN => Raise ValueError
  end.

(** A [for] loop whose body updates an accumulator and may raise. *)
Fixpoint for_each {A S : Type} (body : S -> A -> result S) (xs : list A) (s : S)
  : result S :=
  match xs with
  | [] => Ok s
  | x :: xs' => s' <- body s x ;; for_each body xs' s'
  end.

(** [max(xs)] of a list: [ValueError] on the empty list. *)
Definition py_max (xs : list float) : result float :=
  match xs with
  | [] => Raise ValueError
  | x :: xs' => Ok (fold_left fl_max2 xs' x)
  end.

(** [xs[i]], with Python's negative indices. *)
Definition py_index {A : Type} (xs : list A) (i : Z) : result A :=
  let n := Z.of_nat (length xs) in
  let j := if (i <? 0)%Z then (i + n)%Z else i in
  if ((0 <=? j) && (j <? n))%bool%Z then
    match nth_error xs (Z.to_nat j) with
    | Some x => Ok x
    | None => Raise IndexError
    end
  else Raise IndexError.

(* ------------------------------------------------------------------ *)
(** ** Strings

    A Python [str] is a sequence of code points. *)

Definition char : Type := N.
Definition str : Type := list char.

(** An ASCII literal. *)
Definition lit (s : string) : str := map N_of_ascii (list_ascii_of_string s).

(** [str(n)] of a non-negative [int]. *)
Definition str_of_N (n : N) : str := lit (NilZero.string_of_uint (N.to_uint n)).

(** [f"{s:<w}"]. *)
Definition ljust (w : nat) (s : str) : str := s ++ repeat 32%N (w - length s).

(** [f"{s:>w}"], the alignment of a formatted number. *)
Definition rjust (w : nat) (s : str) : str := repeat 32%N (w - length s) ++ s.

(** [s.rjust(w, "0")]. *)
Definition zfill (w : nat) (s : str) : str := repeat 48%N (w - length s) ++ s.

(** [f"{x:.1f}"] and [f"{x:.0f}"], for [prec] 1 and 0: the exact value of
    [x] rounded to [prec] decimals, ties to even, with a minus sign for a
    negative [x] even when the digits are all zero. *)
Definition format_f (prec : nat) (x : Q) : str :=
  let scale := (10 ^ Z.of_nat prec)%Z in
  let n := round_half_even (Qabs x * inject_Z scale) in
  let sign := if py_gt 0 x then lit "-" else [] in
  let whole := str_of_N (Z.to_N (n / scale)) in
  let frac := zfill prec (str_of_N (Z.to_N (n mod scale))) in
  match prec with
  | O => sign ++ whole
  | S _ => sign ++ whole ++ lit "." ++ frac
  end.

(** The same on a float that may not be finite. *)
Definition fl_format_f (prec : nat) (a : float) : str :=
  match a with
  | Finite q => format_f prec q
  | PosInf => lit "inf"
  | NegInf => lit "-inf"
  | NaN => lit "nan"
  end.

(** The digit zero of every run of decimal digits of Unicode 14.0 (general
    category Nd), the database of CPython 3.11: each is followed by the
    digits one to nine of its script, in order. *)
Definition DECIMAL_ZEROS : list char :=
  [48; 1632; 1776; 1984; 2406; 2534; 2662; 2790;
   2918; 3046; 3174; 3302; 3430; 3558; 3664; 3792;
   3872; 4160; 4240; 6112; 6160; 6470; 6608; 6784;
   6800; 6992; 7088; 7232; 7248; 42528; 43216; 43264;
   43472; 43504; 43600; 44016; 65296; 66720; 68912; 69734;
   69872; 69942; 70096; 70384; 70736; 70864; 71248; 71360;
   71472; 71904; 72016; 72784; 73040; 73120; 92768; 92864;
   93008; 120782; 120792; 120802; 120812; 120822; 123200; 123632;
   125264; 130032]%N.

(** The white space of Unicode 14.0, what [str.isspace] accepts. *)
Definition WHITE_SPACE : list char :=
  [9; 10; 11; 12; 13; 28; 29; 30; 31; 32;
   133; 160; 5760; 8192; 8193; 8194; 8195; 8196; 8197; 8198;
   8199; 8200; 8201; 8202; 8232; 8233; 8239; 8287; 12288]%N.

(** The digit zero of the script of a decimal digit. *)
Definition decimal_zero (c : char) : option char :=
  find (fun z => ((z <=? c) && (c <? z + 10))%N) DECIMAL_ZEROS.

(** The classes [\d] and [\s] of a pattern on a [str]: every decimal digit
    and every white space of Unicode. *)
Definition is_digit (c : char) : bool :=
  match decimal_zero c with
  | Some _ => true
  | None => false
  end.

Definition is_space (c : char) : bool := existsb (N.eqb c) WHITE_SPACE.

(** The value, 0 to 9, of a decimal digit. *)
Definition digit_value (c : char) : N :=
  match decimal_zero c with
  | Some z => c - z
  | None => 0
  end.

(** Longest prefix of characters satisfying [p], and the rest. *)
Fixpoint span (p : char -> bool) (s : str) : str * str :=
  match s with
  | c :: s' =>
      if p c then let (a, b) := span p s' in (c :: a, b) else ([], s)
  | [] => ([], [])
  end.

Fixpoint strip_prefix (pre s : str) : option str :=
  match pre, s with
  | [], _ => Some s
  | p :: pre', c :: s' => if (p =? c)%N then strip_prefix pre' s' else None
  | _ :: _, [] => None
  end.

(** Value of a string of decimal digits. *)
Definition digits_value (ds : str) : Z :=
  fold_left (fun acc c => (10 * acc + Z.of_N (digit_value c))%Z) ds 0%Z.

(** The exact value of the numeral [whole.frac]. *)
Definition decimal_value (whole frac : str) : Q :=
  Qmake (digits_value (whole ++ frac)) (Z.to_pos (10 ^ Z.of_nat (length frac))).

(** [float(s)] for [s] an unsigned decimal numeral: digits, then optionally a
    point and more digits, the digits of any script; the result is the float
    nearest to the numeral's value, [inf] for a numeral beyond the largest
    float.  Python reads more forms (signs, exponents, blanks);
    [ValueError] stands here for every string that is not such a numeral,
    and [run_ping] passes none. *)
Definition py_float (s : str) : result float :=
  let (whole, rest) := span is_digit s in
  match whole, rest with
  | [], _ => Raise ValueError
  | _ :: _, [] => Ok (b64 (decimal_value whole []))
  | _ :: _, c :: frac =>
      if ((c =? 46)%N && forallb is_digit frac)%bool
      then Ok (b64 (decimal_value whole frac))
      else Raise ValueError
  end.

(* ------------------------------------------------------------------ *)
(** ** Styled text

    A [rich.text.Text] is modelled by what it displays: one cell per
    character, each with the style it was appended with.  The empty style
    is the default one. *)

Definition style : Type := string.
Definition no_style : style := EmptyString.

Definition Text : Type := list (char * style).

Definition Text_new : Text := [].

(** [Text(s)]. *)
Definition Text_of (s : str) : Text := map (fun c => (c, no_style)) s.

(** [t.append(s, style=sty)]. *)
Definition Text_append (t : Text) (s : str) (sty : style) : Text :=
  t ++ map (fun c => (c, sty)) s.

(** [t.append(u)] for a [Text] [u], and [t + u]. *)
Definition Text_append_text (t u : Text) : Text := t ++ u.
Definition Text_add (t u : Text) : Text := t ++ u.

Definition plain (t : Text) : str := map fst t.

(* ------------------------------------------------------------------ *)
(** ** Bounded history: [collections.deque(maxlen=n)] *)

Record deque (A : Type) : Type := mk_deque {
  maxlen : nat;
  items : list A
}.

Arguments mk_deque {A} maxlen items.
Arguments maxlen {A} d.
Arguments items {A} d.

(** [deque(maxlen=n)]. *)
Definition deque_new {A : Type} (n : nat) : deque A := mk_deque n [].

(** [d.append(x)]: [x] goes to the right end and, when the deque then
    exceeds its bound, the leftmost element is dropped. *)
Definition deque_append {A : Type} (d : deque A) (x : A) : deque A :=
  let items' := items d ++ [x] in
  if (maxlen d <? length items')%nat
  then mk_deque (maxlen d) (tl items')
  else mk_deque (maxlen d) items'.

(** [list(d)]. *)
Definition deque_list {A : Type} (d : deque A) : list A := items d.

(* ------------------------------------------------------------------ *)
(** ** Constants *)

(** The nine-glyph ramp: a blank, then U+2581 to U+2588. *)
Definition SPARK_CHARS : str :=
  [32; 9601; 9602; 9603; 9604; 9605; 9606; 9607; 9608]%N.

(** U+2591. *)
Definition DROP_CHAR : str := [9617%N].

Definition HISTORY_SIZE : Z := 30.
Definition VITALS_SPARK_SIZE : Z := 10.
Definition PING_TIMEOUT_MS : Z := 2000.
Definition HIGH_LATENCY_MS : Z := 100.
Definition PANEL_WIDTH : Z := 58.

(* ------------------------------------------------------------------ *)
(** ** Ping *)

(** What [subprocess.run] does: it returns a completed process, of which the
    program reads the standard output only, or it raises: [TimeoutExpired]
    past the time limit, an [OSError] when [ping] cannot be started, a
    [ValueError] when an argument holds a NUL character or the output
    cannot be decoded, [KeyboardInterrupt] when the user interrupts it. *)
Inductive run_outcome : Type :=
| Completed (stdout : str)
| Raises (e : exn).

(** The group of the match of the pattern [time=( \d+ \.? \d* ) \s* ms]
    (written here with blanks between its parts) at the start of [s].
    The character classes that follow one another in the pattern are
    disjoint, and so are white space and [m], so taking each repetition as
    long as possible is the only way to match. *)
Definition match_time_here (s : str) : option str :=
  match strip_prefix (lit "time=") s with
  | None => None
  | Some r =>
      let (whole, r1) := span is_digit r in
      match whole with
      | [] => None
      | _ :: _ =>
          let (dot, r2) :=
            match r1 with
            | c :: r' => if (c =? 46)%N then ([c], r') else ([], r1)
            | [] => ([], r1)
            end in
          let (frac, r3) := span is_digit r2 in
          let (_, r4) := span is_space r3 in
          match strip_prefix (lit "ms") r4 with
          | Some _ => Some (whole ++ dot ++ frac)
          | None => None
          end
      end
  end.

(** [re.search] of that pattern in [s]: group 1 of the leftmost match. *)
Fixpoint re_search_time (s : str) : option str :=
  match match_time_here s with
  | Some g => Some g
  | None =>
      match s with
      | [] => None
      | _ :: s' => re_search_time s'
      end
  end.

Section Ping.

(** The operating system's side of [subprocess.run(args, timeout=t)]. *)
Variable subprocess_run : list str -> Q -> run_outcome.

Definition run_ping (host : str) : result (option float) :=
  let args := [lit "ping"; lit "-c"; lit "1"; lit "-W";
               str_of_N (Z.to_N PING_TIMEOUT_MS); host] in
  timeout <- fdiv (inject_Z PING_TIMEOUT_MS) 1000 ;;
  let timeout := fadd timeout 3 in
  match subprocess_run args timeout with
  | Completed stdout =>
      match re_search_time stdout with
      | Some group1 => v <- py_float group1 ;; Ok (Some v)
      | None => Ok None
      end
  | Raises TimeoutExpired => Ok None
  | Raises OSError => Ok None
  | Raises e => Raise e
  end.

End Ping.

(* ------------------------------------------------------------------ *)
(** ** Sparkline *)

(** The quantisation both renderers apply to a sample:
    [idx = int((v / max_val) * 8); idx = min(idx, 8)]. *)
Definition spark_idx (v max_val : float) : result Z :=
  q <- fl_div v max_val ;;
  idx <- fl_int (fl_mul q (Finite 8)) ;;
  Ok (Z.min idx 8).

(** The non-dropped samples of a window. *)
Definition latencies_of (values : list (option float)) : list float :=
  flat_map (fun v => match v with Some x => [x] | None => [] end) values.

(** The scale of the latency sparkline:
    [max_val = max(latencies) if latencies else 1.0;
     max_val = max(max_val, 5.0)]. *)
Definition latency_max_val (values : list (option float)) : result float :=
  let latencies := latencies_of values in
  max_val <- match latencies with
             | [] => Ok (Finite 1)
             | _ :: _ => py_max latencies
             end ;;
  Ok (fl_max2 max_val (Finite 5)).

Definition build_sparkline (history : deque (option float)) : result Text :=
  let values := deque_list history in
  max_val <- latency_max_val values ;;
  spark <- for_each
             (fun spark v =>
                match v with
                | None => Ok (Text_append spark DROP_CHAR "bold red")
                | Some v =>
                    idx <- spark_idx v max_val ;;
                    char <- py_index SPARK_CHARS idx ;;
                    if fl_gt v (Finite (inject_Z HIGH_LATENCY_MS))
                    then Ok (Text_append spark [char] "yellow")
                    else Ok (Text_append spark [char] "cyan")
                end)
             values Text_new ;;
  let pad := (HISTORY_SIZE - Z.of_nat (length values))%Z in
  if (0 <? pad)%Z
  then Ok (Text_add (Text_of (repeat 32%N (Z.to_nat pad))) spark)
  else Ok spark.

Definition build_vitals_sparkline (history : deque Q) (session_max : Q)
  : result Text :=
  let values := deque_list history in
  let max_val := py_max2 session_max 1 in
  spark <- for_each
             (fun spark v =>
                idx <- spark_idx (Finite v) (Finite max_val) ;;
                char <- py_index SPARK_CHARS idx ;;
                ratio <- (if py_gt max_val 0
                          then fl_div (Finite v) (Finite max_val)
                          else Ok (Finite 0)) ;;
                if fl_gt ratio (Finite (float_lit (8 # 10)))
                then Ok (Text_append spark [char] "red")
                else if fl_gt ratio (Finite (float_lit (6 # 10)))
                then Ok (Text_append spark [char] "yellow")
                else Ok (Text_append spark [char] "cyan"))
             values Text_new ;;
  let pad := (VITALS_SPARK_SIZE - Z.of_nat (length values))%Z in
  if (0 <? pad)%Z
  then Ok (Text_add (Text_of (repeat 32%N (Z.to_nat pad))) spark)
  else Ok spark.

(* ------------------------------------------------------------------ *)
(** ** Vitals *)

Definition format_bytes (n : Q) : result str :=
  if py_ge n (inject_Z (Z.shiftl 1 30)) then
    q <- fdiv n (inject_Z (Z.shiftl 1 30)) ;; Ok (format_f 1 q ++ lit "G")
  else if py_ge n (inject_Z (Z.shiftl 1 20)) then
    q <- fdiv n (inject_Z (Z.shiftl 1 20)) ;; Ok (format_f 0 q ++ lit "M")
  else if py_ge n (inject_Z (Z.shiftl 1 10)) then
    q <- fdiv n (inject_Z (Z.shiftl 1 10)) ;; Ok (format_f 0 q ++ lit "K")
  else Ok (format_f 0 n ++ lit "B").

Definition cpu_color (pct : Q) : style :=
  if py_gt pct 90 then "bold red"
  else if py_gt pct 60 then "bold yellow"
  else "bold green".

Definition mem_color (pct : Q) : style :=
  if py_gt pct 90 then "bold red"
  else if py_gt pct 70 then "bold yellow"
  else "bold green".

Definition build_vitals_line (cpu_pct : Q) (cpu_hist : deque Q) (cpu_max : Q)
           (mem_percent : Q) (io_read_rate io_write_rate : Q) : result Text :=
  let line := Text_new in
  let line := Text_append line (lit " CPU ") "dim" in
  let line :=
    Text_append line (rjust 3 (format_f 0 cpu_pct) ++ lit "%") (cpu_color cpu_pct) in
  spark <- build_vitals_sparkline cpu_hist cpu_max ;;
  let line := Text_append_text line spark in
  let line := Text_append line [32; 9474; 32]%N "dim" in
  let line := Text_append line (lit "MEM ") "dim" in
  let line :=
    Text_append line (rjust 2 (format_f 0 mem_percent) ++ lit "%")
                (mem_color mem_percent) in
  let line := Text_append line [32; 9474; 32]%N "dim" in
  let line := Text_append line (lit "IO ") "dim" in
  read <- format_bytes io_read_rate ;;
  let line := Text_append line (9650%N :: read) "cyan" in
  write <- format_bytes io_write_rate ;;
  let line := Text_append line (32%N :: 9660%N :: write) "magenta" in
  let line := Text_append line (lit "/s") "dim" in
  Ok line.

(* ------------------------------------------------------------------ *)
(** ** Panel *)

Record Panel : Type := mk_Panel {
  renderable : Text;
  title : str;
  title_align : string;
  border_style : style;
  width : Z
}.

(** [sum(1 for v in values if v is None)]. *)
Definition count_drops (values : list (option float)) : Z :=
  fold_left (fun n v => match v with None => (n + 1)%Z | Some _ => n end)
            values 0%Z.

Definition build_panel (host : str) (history : deque (option float))
           (vitals_line : option Text) : result Panel :=
  let values := deque_list history in
  let drops := count_drops values in
  let total := Z.of_nat (length values) in
  let alert := (0 <? drops)%Z in
  let border : style := if alert then "red" else "green" in
  let content := Text_new in
  let content :=
    if alert
    then Text_append content [32; 9888; 32]%N "bold yellow"
    else Text_append content [32; 9679; 32]%N "bold green" in
  let latest := match values with [] => None | _ :: _ => last values None end in
  let content :=
    match latest with
    | Some latest =>
        let latency_str := fl_format_f 1 latest ++ lit "ms" in
        let style : style :=
          if fl_gt latest (Finite (inject_Z HIGH_LATENCY_MS))
          then "bold yellow" else "bold green" in
        Text_append content (ljust 9 latency_str) style
    | None => Text_append content (lit "timeout  ") "bold red"
    end in
  spark <- build_sparkline history ;;
  let content := Text_append_text content spark in
  let content := Text_append content (lit "   ") no_style in
  let content :=
    if alert then
      if (drops =? 1)%Z
      then Text_append content (str_of_N (Z.to_N drops) ++ lit " drop! ") "bold red"
      else Text_append content (str_of_N (Z.to_N drops) ++ lit " drops!") "bold red"
    else
      if (0 <? total)%Z
      then Text_append content (lit "0% loss") "dim green"
      else Text_append content (lit "waiting") "dim" in
  let content :=
    match vitals_line with
    | Some vitals_line =>
        let divider_width := (PANEL_WIDTH - 4)%Z in
        let content := Text_append content [10%N] no_style in
        let content :=
          Text_append content (repeat 9472%N (Z.to_nat divider_width)) "dim" in
        let content := Text_append content [10%N] no_style in
        Text_append_text content vitals_line
    | None => content
    end in
  Ok (mk_Panel content host "left" border PANEL_WIDTH).

(* ------------------------------------------------------------------ *)
(** ** Main loop

    The state the loop of [main] carries from one iteration to the next,
    and one iteration as a function of that state and of what the
    environment answers during the iteration. *)

(** [psutil.disk_io_counters()], the two fields the program reads. *)
Record sdiskio : Type := mk_sdiskio {
  read_bytes : Z;
  write_bytes : Z
}.

Record session : Type := mk_session {
  history : deque (option float);
  cpu_hist : deque Q;
  io_hist : deque Q;
  cpu_max : Q;
  io_max : Q;
  prev_io : option sdiskio;
  prev_time : Q
}.

(** The library calls of an iteration that can raise: the three readings of
    [psutil], [live.update] and [time.sleep]. *)
Inductive call : Type :=
| psutil_cpu_percent
| psutil_disk_io_counters
| psutil_virtual_memory
| live_update
| sleep.

(** The answers of the environment during one iteration: what each call
    returns when it returns, and the exception it raises when it does
    not. *)
Record tick_env : Type := mk_tick_env {
  subprocess_run : list str -> Q -> run_outcome;
  cpu_percent : Q;
  disk_io_counters : option sdiskio;
  monotonic_io : Q;      (* [time.monotonic()] when [dt] is taken *)
  monotonic_end : Q;     (* [time.monotonic()] stored in [prev_time] *)
  mem_percent : Q;
  monotonic_start : Q;   (* [time.monotonic()] stored in [t0] *)
  monotonic_sleep : Q;   (* [time.monotonic()] when [elapsed] is taken *)
  call_raises : call -> option exn
}.

(** The outcome of the call [c] whose value, when it returns, is [a]. *)
Definition answer {A : Type} (e : tick_env) (c : call) (a : A) : result A :=
  match call_raises e c with
  | Some ex => Raise ex
  | None => Ok a
  end.

(** [time.sleep(secs)]: NaN and a negative duration are a [ValueError], an
    infinite duration does not fit the clock and is an [OverflowError];
    for any other duration the platform answers (it sleeps, or raises
    [OverflowError] for a duration beyond its clock, or is interrupted). *)
Definition time_sleep (e : tick_env) (secs : float) : result unit :=
  match secs with
  | NaN => Raise ValueError
  | PosInf | NegInf => Raise OverflowError
  | Finite q => if py_gt 0 q then Raise ValueError else answer e sleep tt
  end.

(** The state before the first iteration; [io0] and [t0] are the primed
    readings of the counters and of the clock. *)
Definition init_session (io0 : option sdiskio) (t0 : Q) : session :=
  mk_session (deque_new (Z.to_nat HISTORY_SIZE))
             (deque_new (Z.to_nat VITALS_SPARK_SIZE))
             (deque_new (Z.to_nat VITALS_SPARK_SIZE))
             1 1 io0 t0.

(** One iteration, for the arguments [host] and [interval] of the program:
    the new state and the panel given to [live.update]. *)
Definition tick (host : str) (interval : float) (s : session) (e : tick_env)
  : result (session * Panel) :=
  let t0 := monotonic_start e in
  latency <- run_ping (subprocess_run e) host ;;
  let history := deque_append (history s) latency in
  cpu_pct <- answer e psutil_cpu_percent (cpu_percent e) ;;
  let cpu_hist := deque_append (cpu_hist s) cpu_pct in
  let cpu_max := py_max3 (cpu_max s) cpu_pct 10 in
  cur_io <- answer e psutil_disk_io_counters (disk_io_counters e) ;;
  let dt := fsub (monotonic_io e) (prev_time s) in
  rates <- match py_gt dt 0, cur_io, prev_io s with
           | true, Some cur, Some prev =>
               dr <- float_of_int (read_bytes cur - read_bytes prev) ;;
               r <- fdiv dr dt ;;
               dw <- float_of_int (write_bytes cur - write_bytes prev) ;;
               w <- fdiv dw dt ;;
               Ok (r, w)
           | _, _, _ => Ok (0, 0)
           end ;;
  let io_read_rate := fst rates in
  let io_write_rate := snd rates in
  let io_combined := fadd io_read_rate io_write_rate in
  let io_hist := deque_append (io_hist s) io_combined in
  let io_max := py_max3 (io_max s) io_combined 1024 in
  let prev_io := cur_io in
  let prev_time := monotonic_end e in
  mem <- answer e psutil_virtual_memory (mem_percent e) ;;
  vitals <- build_vitals_line cpu_pct cpu_hist cpu_max mem
                              io_read_rate io_write_rate ;;
  panel <- build_panel host history (Some vitals) ;;
  _ <- answer e live_update tt ;;
  let elapsed := fsub (monotonic_sleep e) t0 in
  let sleep_time := fl_max2 (Finite 0) (fl_sub interval (Finite elapsed)) in
  _ <- time_sleep e sleep_time ;;
  Ok (mk_session history cpu_hist io_hist cpu_max io_max prev_io prev_time,
      panel).

(** The iterations of the loop against a finite sequence of answers: the
    state reached and the panels published, oldest first. *)
Fixpoint run_ticks (host : str) (interval : float) (s : session)
         (envs : list tick_env) : result (session * list Panel) :=
  match envs with
  | [] => Ok (s, [])
  | e :: envs' =>
      r <- tick host interval s e ;;
      r' <- run_ticks host interval (fst r) envs' ;;
      Ok (fst r', snd r :: snd r')
  end.

(** The panel printed when the loop is interrupted. *)
Definition final_panel (host : str) (s : session) (mem_percent : Q)
  : result Panel :=
  let cpu_pct :=
    match deque_list (cpu_hist s) with
    | [] => 0
    | _ :: _ => last (deque_list (cpu_hist s)) 0
    end in
  vitals <- build_vitals_line cpu_pct (cpu_hist s) (cpu_max s) mem_percent 0 0 ;;
  build_panel host (history s) (Some vitals).

(* ------------------------------------------------------------------ *)
(** ** Vocabulary of the statements *)

(** A finite round-trip time as a sample of the window. *)
Definition rtt (x : Q) : option float := Some (Finite x).

(** A sample of the latency window that is dropped or a finite round-trip
    time that is not negative. *)
Definition sample_ok (v : option float) : Prop :=
  match v with
  | Some (Finite x) => 0 <= x
  | Some _ => False
  | None => True
  end.

Definition window_ok (values : list (option float)) : Prop :=
  Forall sample_ok values.

(** A float that is not negative: a finite one, or [inf]. *)
Definition fl_nonneg (a : float) : Prop :=
  match a with
  | Finite x => 0 <= x
  | PosInf => True
  | _ => False
  end.

(** The greatest quotient of a sample by its scale for which the scaled
    quotient, eight times as much, is still a float: [2 ^ 1020]. *)
Definition RATIO_LIMIT : Q := inject_Z (2 ^ 1020).

(** A sample of a vitals window that is not negative and whose quotient by
    the scale [max_val] is within [RATIO_LIMIT]. *)
Definition vitals_sample_ok (max_val v : Q) : Prop :=
  0 <= v /\ v <= RATIO_LIMIT * max_val.

Definition vitals_window_ok (max_val : Q) (values : list Q) : Prop :=
  Forall (vitals_sample_ok max_val) values.

Definition is_dropped (v : option float) : bool :=
  match v with
  | None => true
  | Some _ => false
  end.

(** The number of dropped samples of a window. *)
Definition drop_count (values : list (option float)) : nat :=
  length (filter is_dropped values).

(** The blank cells in front of [n] glyphs in a display [w] cells wide. *)
Definition padding (w : Z) (n : nat) : Text :=
  Text_of (repeat 32%N (Z.to_nat (w - Z.of_nat n))).

(** The cell that displays the drop glyph. *)
Definition drop_cell : char * style := (9617%N, "bold red").

(** [cell] displays the sample [v] of the latency window under the scale
    [max_val]. *)
Definition latency_cell (max_val : Q) (v : option float) (cell : char * style)
  : Prop :=
  match v with
  | None => cell = drop_cell
  | Some (Finite x) =>
      exists (idx : Z) (glyph : char),
        spark_idx (Finite x) (Finite max_val) = Ok idx /\ (0 <= idx <= 8)%Z /\
        nth_error SPARK_CHARS (Z.to_nat idx) = Some glyph /\
        cell = (glyph, if py_gt x (inject_Z HIGH_LATENCY_MS)
                       then "yellow" else "cyan")
  | Some _ => False
  end.

(** [cell] displays the sample [v] of a vitals window under the scale
    [max_val]. *)
Definition vitals_cell (max_val : Q) (v : Q) (cell : char * style) : Prop :=
  exists (idx : Z) (glyph : char),
    spark_idx (Finite v) (Finite max_val) = Ok idx /\ (0 <= idx <= 8)%Z /\
    nth_error SPARK_CHARS (Z.to_nat idx) = Some glyph /\
    fst cell = glyph.

(** The parts of a panel's text: the status glyph, then the field of the
    latest reading, nine cells wide unless the reading is longer. *)
Definition status_glyph (p : Panel) : Text := firstn 3 (renderable p).
Definition latest_field (p : Panel) : Text := firstn 9 (skipn 3 (renderable p)).

Definition timeout_text : Text := Text_append Text_new (lit "timeout  ") "bold red".

(** What [build_panel] appends after the status phrase. *)
Definition vitals_part (vitals_line : option Text) : Text :=
  match vitals_line with
  | Some line =>
      Text_of [10%N] ++
      Text_append Text_new (repeat 9472%N 54) "dim" ++
      Text_of [10%N] ++ line
  | None => []
  end.

(** The three parts of its text that [build_panel] computes from the window:
    the status glyph, the field of the latest reading and the status
    phrase. *)
Definition panel_status (values : list (option float)) : Text :=
  if (0 <? count_drops values)%Z
  then Text_append Text_new [32; 9888; 32]%N "bold yellow"
  else Text_append Text_new [32; 9679; 32]%N "bold green".

Definition panel_latest (values : list (option float)) : Text :=
  match match values with [] => None | _ :: _ => last values None end with
  | Some latest =>
      Text_append Text_new (ljust 9 (fl_format_f 1 latest ++ lit "ms"))
                  (if fl_gt latest (Finite (inject_Z HIGH_LATENCY_MS))
                   then "bold yellow" else "bold green")
  | None => timeout_text
  end.

Definition panel_phrase (values : list (option float)) : Text :=
  let drops := count_drops values in
  if (0 <? drops)%Z then
    if (drops =? 1)%Z
    then Text_append Text_new (str_of_N (Z.to_N drops) ++ lit " drop! ") "bold red"
    else Text_append Text_new (str_of_N (Z.to_N drops) ++ lit " drops!") "bold red"
  else
    if (0 <? Z.of_nat (length values))%Z
    then Text_append Text_new (lit "0% loss") "dim green"
    else Text_append Text_new (lit "waiting") "dim".

(* ------------------------------------------------------------------ *)
(** ** Sample inputs

    Concrete windows and answers of the environment on which the
    statements below are exercised. *)

(** The history after the samples [xs], oldest first. *)
Definition window_of (xs : list (option float)) : deque (option float) :=
  fold_left deque_append xs (deque_new (Z.to_nat HISTORY_SIZE)).

Definition vitals_window_of (xs : list Q) : deque Q :=
  fold_left deque_append xs (deque_new (Z.to_nat VITALS_SPARK_SIZE)).

(** A reply of [ping] carrying a round-trip time of 20.5 ms. *)
Definition reply_20ms : run_outcome :=
  Completed (lit "64 bytes from 8.8.8.8: icmp_seq=1 ttl=117 time=20.5 ms").

(** A reply whose round-trip time, 3.5 ms, is written with Arabic-Indic
    digits (U+0663, U+0665) and followed by a no-break space (U+00A0). *)
Definition reply_arabic : str :=
  lit "rtt time=" ++ [1635; 46; 1637; 160]%N ++ lit "ms".

(** What [ping] prints when the host does not answer: no field [time=]. *)
Definition reply_unreachable : str :=
  lit "1 packets transmitted, 0 received, 100% packet loss, time 0ms".

(** A process call that refuses an argument with a NUL character, as
    [subprocess.run] does, and otherwise completes with that reply. *)
Definition run_checked : list str -> Q -> run_outcome :=
  fun args _ =>
    if existsb (existsb (N.eqb 0)) args then Raises ValueError else reply_20ms.

(** An environment none of whose calls raises. *)
Definition no_raise : call -> option exn := fun _ => None.

(** An iteration in which the probe is answered. *)
Definition env_reply : tick_env :=
  mk_tick_env (fun _ _ => reply_20ms) 12 (Some (mk_sdiskio 4096 8192)) 1 1 40
              1 1 no_raise.

(** An iteration in which the probe times out. *)
Definition env_timeout : tick_env :=
  mk_tick_env (fun _ _ => Raises TimeoutExpired) 35
              (Some (mk_sdiskio 8192 8192)) 2 2 41 2 2 no_raise.

(** An iteration in which [ping] completes without an answer. *)
Definition env_no_field : tick_env :=
  mk_tick_env (fun _ _ => Completed reply_unreachable) 35
              (Some (mk_sdiskio 8192 8192)) 2 2 41 2 2 no_raise.

(** The state of an iteration interrupted after the probe has timed out and
    a CPU reading of 95 has been appended, before the CPU maximum, 12 from
    the iteration before, is updated. *)
Definition session_interrupted : session :=
  mk_session (window_of [rtt (41 # 2); None]) (vitals_window_of [12; 95])
             (vitals_window_of [0]) 12 1024 (Some (mk_sdiskio 4096 8192)) 1.

(** The default interval of the program, one second. *)
Definition one_second : float := Finite 1.

(* ------------------------------------------------------------------ *)
(** ** Vocabulary of the statements on the loop *)

(** An interval, in seconds, well within what the clock of [time.sleep]
    can hold: a million seconds. *)
Definition INTERVAL_LIMIT : Q := inject_Z (10 ^ 6).

(** An interval the loop can sleep for: a finite one up to
    [INTERVAL_LIMIT], or one that makes the loop sleep for no time (a
    negative one, [-inf], NaN); not [inf]. *)
Definition interval_ok (interval : float) : Prop :=
  match interval with
  | Finite i => i <= INTERVAL_LIMIT
  | PosInf => False
  | NegInf | NaN => True
  end.

(** The counters of the disk as the operating system keeps them: 64-bit
    unsigned numbers. *)
Definition counters_ok (io : option sdiskio) : Prop :=
  match io with
  | Some c =>
      (0 <= read_bytes c < 2 ^ 64)%Z /\ (0 <= write_bytes c < 2 ^ 64)%Z
  | None => True
  end.

(** An iteration in which the process call ends in one of the two ways
    [run_ping] provides for, the round-trip time printed, if any, is within
    the range of the floats, no library call raises, the CPU reading is not
    negative, the disk counters are 64-bit numbers and the clock does not
    go back while the iteration runs. *)
Definition env_ok (e : tick_env) : Prop :=
  (forall (args : list str) (t : Q) (ex : exn),
     subprocess_run e args t = Raises ex ->
     ex = TimeoutExpired \/ ex = OSError) /\
  (forall (args : list str) (t : Q) (out g : str),
     subprocess_run e args t = Completed out ->
     re_search_time out = Some g -> py_float g <> Ok PosInf) /\
  (forall c : call, call_raises e c = None) /\
  0 <= cpu_percent e /\
  counters_ok (disk_io_counters e) /\
  monotonic_start e <= monotonic_sleep e.

(** A state whose latency window holds well-formed samples, whose CPU
    samples are not negative and not above the CPU maximum, and whose
    stored counters are 64-bit numbers. *)
Definition session_ok (s : session) : Prop :=
  window_ok (deque_list (history s)) /\
  Forall (fun v => 0 <= v /\ v <= cpu_max s) (deque_list (cpu_hist s)) /\
  counters_ok (prev_io s).

(** The last group of the vitals line, for the two formatted rates. *)
Definition io_group (read write : str) : Text :=
  Text_append Text_new (lit "IO ") "dim" ++
  Text_append Text_new (9650%N :: read) "cyan" ++
  Text_append Text_new (32%N :: 9660%N :: write) "magenta" ++
  Text_append Text_new (lit "/s") "dim".

(** [cell] displays the sample [v] of a vitals window under the scale
    [max_val], glyph and colour. *)
Definition vitals_cell_styled (max_val : Q) (v : Q) (cell : char * style)
  : Prop :=
  exists (idx : Z) (glyph : char),
    spark_idx (Finite v) (Finite max_val) = Ok idx /\
    py_index SPARK_CHARS idx = Ok glyph /\
    cell = (glyph,
            if py_gt (round64 (v / max_val)) (float_lit (8 # 10)) then "red"
            else if py_gt (round64 (v / max_val)) (float_lit (6 # 10))
                 then "yellow" else "cyan").

(** The first group of the vitals line, for a CPU reading, and the group
    between the CPU sparkline and the IO group, for a memory reading. *)
Definition cpu_group (cpu_pct : Q) : Text :=
  Text_append Text_new (lit " CPU ") "dim" ++
  Text_append Text_new (rjust 3 (format_f 0 cpu_pct) ++ lit "%")
              (cpu_color cpu_pct).

Definition mem_group (mem_percent : Q) : Text :=
  Text_append Text_new [32; 9474; 32]%N "dim" ++
  Text_append Text_new (lit "MEM ") "dim" ++
  Text_append Text_new (rjust 2 (format_f 0 mem_percent) ++ lit "%")
              (mem_color mem_percent) ++
  Text_append Text_new [32; 9474; 32]%N "dim".

(** [g] is a numeral the pattern's group accepts: the digits [whole], then
    possibly a point and the digits [frac]. *)
Definition numeral (g whole frac : str) : Prop :=
  whole <> [] /\
  forallb is_digit whole = true /\ forallb is_digit frac = true /\
  (g = whole ++ 46%N :: frac \/ (g = whole /\ frac = [])).

Definition time_field (g sp : str) : Prop :=
  (exists whole frac : str, numeral g whole frac) /\
  forallb is_space sp = true.

(** The text [s] holds a field [time=<numeral><white space>ms]. *)
Definition has_time_field (s : str) : Prop :=
  exists pre g sp post : str,
    s = pre ++ lit "time=" ++ g ++ sp ++ lit "ms" ++ post /\ time_field g sp.

(* ================================================================== *)
(** * Properties *)

(* ------------------------------------------------------------------ *)
(** ** Rounding is monotone *)

Section Rounding.

Ltac qcompare_props :=
  repeat match goal with
  | H : Qcompare _ _ = Lt |- _ => apply (proj2 (Qlt_alt _ _)) in H
  | H : Qcompare _ _ = Gt |- _ => apply (proj2 (Qgt_alt _ _)) in H
  | H : Qcompare _ _ = Eq |- _ => apply (proj2 (Qeq_alt _ _)) in H
  end.

Lemma two_pow_pos (k : Z) : 0 < 2 ^ k.
Proof. apply Qpower_0_lt. reflexivity. Qed.

Lemma two_pow_succ (k : Z) : 2 ^ (k + 1) == 2 * 2 ^ k.
Proof. rewrite Qpower_plus by discriminate. change (2 ^ 1) with 2. ring. Qed.

Lemma round_half_even_bounds (x : Q) :
  (Qfloor x <= round_half_even x <= Qfloor x + 1)%Z.
Proof.
  unfold round_half_even.
  destruct (Qcompare _ _); try destruct (Z.even _); lia.
Qed.

Lemma round_half_even_Z (z : Z) : round_half_even (inject_Z z) = z.
Proof.
  unfold round_half_even. rewrite Qfloor_Z.
  destruct (Qcompare (inject_Z z - inject_Z z) (1 # 2)) eqn:C; [ | reflexivity | ];
    exfalso; qcompare_props; lra.
Qed.

Lemma round_half_even_mono (x y : Q) :
  x <= y -> (round_half_even x <= round_half_even y)%Z.
Proof.
  intros Hxy.
  pose proof (Qfloor_resp_le _ _ Hxy) as Hf.
  pose proof (round_half_even_bounds x) as Bx.
  pose proof (round_half_even_bounds y) as By.
  destruct (Z.eq_dec (Qfloor x) (Qfloor y)) as [E | NE]; [ | lia ].
  unfold round_half_even in *. rewrite <- E in *.
  destruct (Qcompare (x - inject_Z (Qfloor x)) (1 # 2)) eqn:Cx;
    destruct (Qcompare (y - inject_Z (Qfloor x)) (1 # 2)) eqn:Cy;
    try destruct (Z.even (Qfloor x)); try lia.
  all: exfalso; qcompare_props; lra.
Qed.

Lemma ilog2_spec (x : Q) :
  0 < x -> 2 ^ ilog2 x <= x /\ x < 2 ^ (ilog2 x + 1).
Proof.
  destruct x as [n d]. intros Hx.
  assert (Hn : (0 < n)%Z) by (unfold Qlt in Hx; simpl in Hx; lia).
  unfold ilog2. cbn [Qnum Qden].
  set (ln := Z.log2 n). set (ld := Z.log2 (Z.pos d)).
  destruct (Z.log2_spec n Hn) as [Hn1 Hn2]. fold ln in Hn1, Hn2.
  destruct (Z.log2_spec (Z.pos d) (Pos2Z.is_pos d)) as [Hd1 Hd2]. fold ld in Hd1, Hd2.
  assert (Lnn : (0 <= ln)%Z) by apply Z.log2_nonneg.
  assert (Ldn : (0 <= ld)%Z) by apply Z.log2_nonneg.
  assert (Ex : n # d == inject_Z n / inject_Z (Z.pos d)) by apply Qmake_Qdiv.
  assert (Dpos : 0 < inject_Z (Z.pos d)) by reflexivity.
  assert (Qn1 : 2 ^ ln <= inject_Z n)
    by (change 2 with (inject_Z 2); rewrite <- Zpower_Qpower by assumption;
        now rewrite <- Zle_Qle).
  assert (Qn2 : inject_Z n < 2 ^ (ln + 1))
    by (change 2 with (inject_Z 2); rewrite <- Zpower_Qpower by lia;
        rewrite <- Zlt_Qlt; now rewrite <- Z.add_1_r in Hn2).
  assert (Qd1 : 2 ^ ld <= inject_Z (Z.pos d))
    by (change 2 with (inject_Z 2); rewrite <- Zpower_Qpower by assumption;
        now rewrite <- Zle_Qle).
  assert (Qd2 : inject_Z (Z.pos d) < 2 ^ (ld + 1))
    by (change 2 with (inject_Z 2); rewrite <- Zpower_Qpower by lia;
        rewrite <- Zlt_Qlt; now rewrite <- Z.add_1_r in Hd2).
  assert (Split : 2 ^ ln == 2 ^ (ln - ld) * 2 ^ ld)
    by (rewrite <- Qpower_plus by discriminate; now replace (ln - ld + ld)%Z with ln by ring).
  pose proof (two_pow_pos (ln - ld)) as Pk.
  pose proof (two_pow_pos ld) as Pd.
  rewrite two_pow_succ in Qn2, Qd2.
  destruct (Qle_bool (2 ^ (ln - ld)) (n # d)) eqn:B.
  - apply Qle_bool_iff in B. split; [exact B | ].
    rewrite two_pow_succ, Ex. apply Qlt_shift_div_r; [exact Dpos | ].
    rewrite Split in Qn2. nra.
  - assert (B' : n # d < 2 ^ (ln - ld)).
    { apply Qnot_le_lt. intro H. apply Qle_bool_iff in H. congruence. }
    replace (ln - ld - 1 + 1)%Z with (ln - ld)%Z by ring. split; [ | exact B'].
    assert (Hk : 2 ^ (ln - ld) == 2 * 2 ^ (ln - ld - 1))
      by (rewrite <- two_pow_succ; now replace (ln - ld - 1 + 1)%Z with (ln - ld)%Z by ring).
    pose proof (two_pow_pos (ln - ld - 1)) as Pk1.
    rewrite Ex. apply Qle_shift_div_l; [exact Dpos | ].
    rewrite Split, Hk in Qn1. nra.
Qed.

Lemma round53_pos_bounds (x : Q) :
  0 < x -> 2 ^ ilog2 x <= round53_pos x /\ round53_pos x <= 2 ^ (ilog2 x + 1).
Proof.
  intros Hx. destruct (ilog2_spec x Hx) as [L U].
  unfold round53_pos. set (s := (52 - ilog2 x)%Z).
  pose proof (two_pow_pos s) as Ps.
  assert (E1 : 2 ^ ilog2 x * 2 ^ s == inject_Z (2 ^ 52))
    by (rewrite <- Qpower_plus by discriminate; unfold s;
        now replace (ilog2 x + (52 - ilog2 x))%Z with 52%Z by ring).
  assert (E2 : 2 ^ (ilog2 x + 1) * 2 ^ s == inject_Z (2 ^ 53))
    by (rewrite <- Qpower_plus by discriminate; unfold s;
        now replace (ilog2 x + 1 + (52 - ilog2 x))%Z with 53%Z by ring).
  assert (Lo : (2 ^ 52 <= round_half_even (x * 2 ^ s))%Z).
  { rewrite <- (round_half_even_Z (2 ^ 52)). apply round_half_even_mono.
    rewrite <- E1. apply Qmult_le_compat_r; [exact L | now apply Qlt_le_weak]. }
  assert (Hi : (round_half_even (x * 2 ^ s) <= 2 ^ 53)%Z).
  { rewrite <- (round_half_even_Z (2 ^ 53)). apply round_half_even_mono.
    rewrite <- E2. apply Qmult_le_compat_r; [now apply Qlt_le_weak | now apply Qlt_le_weak]. }
  rewrite Zle_Qle in Lo, Hi. rewrite <- E1 in Lo. rewrite <- E2 in Hi.
  split.
  - apply Qle_shift_div_l; assumption.
  - apply Qle_shift_div_r; assumption.
Qed.

Lemma round53_pos_mono (x y : Q) :
  0 < x -> x <= y -> round53_pos x <= round53_pos y.
Proof.
  intros Hx Hxy.
  assert (Hy : 0 < y) by lra.
  destruct (ilog2_spec x Hx) as [Lx Ux]. destruct (ilog2_spec y Hy) as [Ly Uy].
  assert (Hlt : (ilog2 x < ilog2 y + 1)%Z).
  { apply (Qpower_lt_compat_l_inv 2); [ lra | reflexivity ]. }
  destruct (Z.eq_dec (ilog2 x) (ilog2 y)) as [E | NE].
  - unfold round53_pos. rewrite E. set (s := (52 - ilog2 y)%Z).
    pose proof (two_pow_pos s) as Ps.
    apply Qmult_le_compat_r; [ | apply Qlt_le_weak, Qinv_lt_0_compat; exact Ps ].
    rewrite <- Zle_Qle. apply round_half_even_mono.
    apply Qmult_le_compat_r; [ exact Hxy | now apply Qlt_le_weak ].
  - destruct (round53_pos_bounds x Hx) as [_ Bx].
    destruct (round53_pos_bounds y Hy) as [By _].
    assert (Hp : 2 ^ (ilog2 x + 1) <= 2 ^ ilog2 y)
      by (apply Qpower_le_compat_l; [ lia | discriminate ]).
    lra.
Qed.

Lemma round53_pos_positive (x : Q) : 0 < x -> 0 < round53_pos x.
Proof.
  intros Hx. destruct (round53_pos_bounds x Hx) as [B _].
  pose proof (two_pow_pos (ilog2 x)). lra.
Qed.

Lemma round53_sign (x : Q) :
  (x == 0 /\ round53 x = 0) \/
  (0 < x /\ round53 x = round53_pos x) \/
  (x < 0 /\ round53 x = - round53_pos (- x)).
Proof.
  destruct x as [n d]. unfold round53. cbn [Qnum].
  destruct n; [ left | right; left | right; right ]; split; reflexivity.
Qed.

Theorem round53_mono (x y : Q) : x <= y -> round53 x <= round53 y.
Proof.
  intros Hxy.
  destruct (round53_sign x) as [[Sx Ex] | [[Sx Ex] | [Sx Ex]]];
    destruct (round53_sign y) as [[Sy Ey] | [[Sy Ey] | [Sy Ey]]];
    rewrite Ex, Ey; try (exfalso; lra).
  - apply Qle_refl.
  - apply Qlt_le_weak, round53_pos_positive, Sy.
  - now apply round53_pos_mono.
  - assert (0 < round53_pos (- x)) by (apply round53_pos_positive; lra). lra.
  - assert (0 < round53_pos (- x)) by (apply round53_pos_positive; lra).
    assert (0 < round53_pos y) by (apply round53_pos_positive; lra). lra.
  - assert (round53_pos (- y) <= round53_pos (- x))
      by (apply round53_pos_mono; lra). lra.
Qed.

Lemma round53_nonneg (x : Q) : 0 <= x -> 0 <= round53 x.
Proof. intros H. change 0 with (round53 0). now apply round53_mono. Qed.

End Rounding.

Lemma round53_exact_1 : round53 1 == 1.
Proof. vm_compute. reflexivity. Qed.

Lemma round53_exact_8 : round53 8 == 8.
Proof. vm_compute. reflexivity. Qed.

Lemma round53_ge (z y : Q) : round53 z == z -> z <= y -> z <= round53 y.
Proof.
  intros E H. apply Qle_trans with (round53 z).
  - rewrite E. apply Qle_refl.
  - now apply round53_mono.
Qed.

(* ------------------------------------------------------------------ *)
(** ** Truncation *)

Section Truncation.

Lemma py_int_floor (x : Q) : 0 <= x -> py_int x = Qfloor x.
Proof.
  destruct x as [n d]. unfold Qle, py_int, Qfloor. cbn [Qnum Qden]. intros H.
  apply Z.quot_div_nonneg; lia.
Qed.

Lemma py_int_ceiling (x : Q) : x <= 0 -> py_int x = Qceiling x.
Proof.
  destruct x as [n d]. unfold Qle, py_int, Qceiling, Qfloor, Qopp.
  cbn [Qnum Qden]. intros H.
  rewrite <- (Z.opp_involutive n) at 1.
  rewrite Z.quot_opp_l by lia.
  f_equal. apply Z.quot_div_nonneg; lia.
Qed.

Lemma py_int_mono (x y : Q) : x <= y -> (py_int x <= py_int y)%Z.
Proof.
  intros Hxy.
  destruct (Qlt_le_dec x 0) as [Hx | Hx]; destruct (Qlt_le_dec y 0) as [Hy | Hy].
  - rewrite !py_int_ceiling by lra. now apply Qceiling_resp_le.
  - rewrite (py_int_ceiling x) by lra. rewrite (py_int_floor y) by lra.
    assert (Qceiling x <= 0)%Z
      by (change 0%Z with (Qceiling 0); apply Qceiling_resp_le; lra).
    assert (0 <= Qfloor y)%Z
      by (change 0%Z with (Qfloor 0); now apply Qfloor_resp_le).
    lia.
  - exfalso. lra.
  - rewrite !py_int_floor by lra. now apply Qfloor_resp_le.
Qed.

Lemma py_int_Z (z : Z) : py_int (inject_Z z) = z.
Proof. unfold py_int, inject_Z. cbn [Qnum Qden]. apply Z.quot_1_r. Qed.

End Truncation.

(* ------------------------------------------------------------------ *)
(** ** Rounding with the exponent range of binary64 *)

Section Binary64.

Lemma min_normal_pos : 0 < FLOAT_MIN_NORMAL.
Proof. reflexivity. Qed.

Lemma min_normal_scaled :
  FLOAT_MIN_NORMAL * inject_Z (2 ^ 1074) == inject_Z (2 ^ 52).
Proof. vm_compute. reflexivity. Qed.

Lemma min_normal_exact : round53_pos FLOAT_MIN_NORMAL == FLOAT_MIN_NORMAL.
Proof. vm_compute. reflexivity. Qed.

Lemma round64_pos_cases (x : Q) :
  (FLOAT_MIN_NORMAL <= x /\ round64_pos x = round53_pos x) \/
  (x < FLOAT_MIN_NORMAL /\
   round64_pos x
   = inject_Z (round_half_even (x * inject_Z (2 ^ 1074))) / inject_Z (2 ^ 1074)).
Proof.
  unfold round64_pos. destruct (Qle_bool FLOAT_MIN_NORMAL x) eqn:E.
  - left. split; [ now apply Qle_bool_iff | reflexivity ].
  - right. split; [ | reflexivity ].
    apply Qnot_le_lt. intros H. apply Qle_bool_iff in H. congruence.
Qed.

Lemma subnormal_le (x y : Q) :
  x <= y ->
  inject_Z (round_half_even (x * inject_Z (2 ^ 1074))) / inject_Z (2 ^ 1074)
  <= inject_Z (round_half_even (y * inject_Z (2 ^ 1074))) / inject_Z (2 ^ 1074).
Proof.
  intros H. set (S := inject_Z (2 ^ 1074)).
  assert (PS : 0 < S) by reflexivity.
  apply Qmult_le_compat_r; [ | apply Qlt_le_weak, Qinv_lt_0_compat, PS ].
  rewrite <- Zle_Qle. apply round_half_even_mono.
  apply Qmult_le_compat_r; [ exact H | now apply Qlt_le_weak ].
Qed.

Lemma round64_pos_nonneg (x : Q) : 0 < x -> 0 <= round64_pos x.
Proof.
  intros Hx. destruct (round64_pos_cases x) as [[_ ->] | [_ ->]].
  - now apply Qlt_le_weak, round53_pos_positive.
  - apply Qle_trans
      with (inject_Z (round_half_even (0 * inject_Z (2 ^ 1074)))
            / inject_Z (2 ^ 1074)).
    + vm_compute. discriminate.
    + apply subnormal_le. now apply Qlt_le_weak.
Qed.

Lemma round64_pos_mono (x y : Q) :
  0 < x -> x <= y -> round64_pos x <= round64_pos y.
Proof.
  intros Hx Hxy.
  destruct (round64_pos_cases x) as [[Nx ->] | [Sx ->]];
    destruct (round64_pos_cases y) as [[Ny ->] | [Sy ->]].
  - now apply round53_pos_mono.
  - exfalso. apply (Qlt_irrefl x).
    apply Qle_lt_trans with y; [ exact Hxy | ].
    apply Qlt_le_trans with FLOAT_MIN_NORMAL; assumption.
  - apply Qle_trans with FLOAT_MIN_NORMAL.
    + apply Qle_trans
        with (inject_Z (round_half_even (FLOAT_MIN_NORMAL * inject_Z (2 ^ 1074)))
              / inject_Z (2 ^ 1074)).
      * apply subnormal_le. now apply Qlt_le_weak.
      * vm_compute. discriminate.
    + apply Qle_trans with (round53_pos FLOAT_MIN_NORMAL).
      * rewrite min_normal_exact. apply Qle_refl.
      * apply round53_pos_mono; [ exact min_normal_pos | exact Ny ].
  - now apply subnormal_le.
Qed.

Lemma round64_sign (x : Q) :
  (x == 0 /\ round64 x = 0) \/
  (0 < x /\ round64 x = round64_pos x) \/
  (x < 0 /\ round64 x = - round64_pos (- x)).
Proof.
  destruct x as [n d]. unfold round64. cbn [Qnum].
  destruct n; [ left | right; left | right; right ]; split; reflexivity.
Qed.

Theorem round64_mono (x y : Q) : x <= y -> round64 x <= round64 y.
Proof.
  intros Hxy.
  destruct (round64_sign x) as [[Sx Ex] | [[Sx Ex] | [Sx Ex]]];
    destruct (round64_sign y) as [[Sy Ey] | [[Sy Ey] | [Sy Ey]]];
    rewrite Ex, Ey; try (exfalso; lra).
  - apply Qle_refl.
  - now apply round64_pos_nonneg.
  - now apply round64_pos_mono.
  - assert (0 <= round64_pos (- x)) by (apply round64_pos_nonneg; lra). lra.
  - assert (0 <= round64_pos (- x)) by (apply round64_pos_nonneg; lra).
    assert (0 <= round64_pos y) by (apply round64_pos_nonneg; lra). lra.
  - assert (round64_pos (- y) <= round64_pos (- x))
      by (apply round64_pos_mono; lra). lra.
Qed.

Lemma round64_nonneg (x : Q) : 0 <= x -> 0 <= round64 x.
Proof. intros H. change 0 with (round64 0). now apply round64_mono. Qed.

Lemma round64_ge (z y : Q) : round64 z == z -> z <= y -> z <= round64 y.
Proof.
  intros E H. apply Qle_trans with (round64 z).
  - rewrite E. apply Qle_refl.
  - now apply round64_mono.
Qed.

Lemma round64_le (z y : Q) : round64 z == z -> y <= z -> round64 y <= z.
Proof.
  intros E H. apply Qle_trans with (round64 z).
  - now apply round64_mono.
  - rewrite E. apply Qle_refl.
Qed.

Lemma round64_eq (x c : Q) : round64 c == c -> x == c -> round64 x == c.
Proof.
  intros Ec Ex. apply Qle_antisym.
  - apply (round64_le _ _ Ec). rewrite Ex. apply Qle_refl.
  - apply (round64_ge _ _ Ec). rewrite Ex. apply Qle_refl.
Qed.

(** The three outcomes of the delivery of a result. *)
Lemma b64_cases (x : Q) :
  (b64 x = Finite (round64 x) /\
   - FLOAT_LIMIT < round64 x /\ round64 x < FLOAT_LIMIT) \/
  (b64 x = PosInf /\ FLOAT_LIMIT <= round64 x) \/
  (b64 x = NegInf /\ round64 x <= - FLOAT_LIMIT).
Proof.
  unfold b64.
  destruct (Qle_bool FLOAT_LIMIT (round64 x)) eqn:Hi.
  - right. left. split; [ reflexivity | now apply Qle_bool_iff ].
  - destruct (Qle_bool (round64 x) (- FLOAT_LIMIT)) eqn:Lo.
    + right. right. split; [ reflexivity | now apply Qle_bool_iff ].
    + left. split; [ reflexivity | ]. split; apply Qnot_le_lt; intros H;
        apply Qle_bool_iff in H; congruence.
Qed.

(** A result between two floats is delivered as a finite number. *)
Lemma b64_between (x lo hi : Q) :
  round64 lo == lo -> round64 hi == hi ->
  - FLOAT_LIMIT < lo -> hi < FLOAT_LIMIT ->
  lo <= x -> x <= hi ->
  b64 x = Finite (round64 x) /\ lo <= round64 x /\ round64 x <= hi.
Proof.
  intros El Eh Bl Bh Hl Hh.
  pose proof (round64_ge lo x El Hl) as L.
  pose proof (round64_le hi x Eh Hh) as H.
  destruct (b64_cases x) as [[E _] | [[_ C] | [_ C]]].
  - now repeat split.
  - exfalso. lra.
  - exfalso. lra.
Qed.


Lemma b64_nonneg (x : Q) : 0 <= x -> fl_nonneg (b64 x).
Proof.
  intros H. pose proof (round64_nonneg x H) as N.
  assert (P : 0 < FLOAT_LIMIT) by reflexivity.
  destruct (b64_cases x) as [[-> _] | [[-> _] | [_ C]]];
    [ exact N | exact I | exfalso; lra ].
Qed.

End Binary64.

Lemma round64_exact_1 : round64 1 == 1.
Proof. vm_compute. reflexivity. Qed.

Lemma round64_exact_8 : round64 8 == 8.
Proof. vm_compute. reflexivity. Qed.

Lemma ratio_limit_facts :
  round64 RATIO_LIMIT == RATIO_LIMIT /\
  round64 (- RATIO_LIMIT) == - RATIO_LIMIT /\
  round64 (8 * RATIO_LIMIT) == 8 * RATIO_LIMIT /\
  round64 (- (8 * RATIO_LIMIT)) == - (8 * RATIO_LIMIT) /\
  8 * RATIO_LIMIT < FLOAT_LIMIT /\ 1 <= RATIO_LIMIT /\
  FLOAT_LIMIT == 16 * RATIO_LIMIT.
Proof. repeat split; vm_compute; reflexivity || discriminate. Qed.

(* ------------------------------------------------------------------ *)
(** ** Quantisation *)

Section Quantisation.

Variable max_val : Q.
Hypothesis max_val_pos : 0 < max_val.

Lemma max_val_nonzero : Qeq_bool max_val 0 = false.
Proof.
  destruct (Qeq_bool max_val 0) eqn:E; [ | reflexivity ].
  apply Qeq_bool_iff in E. exfalso. lra.
Qed.

Lemma fl_div_pos (v : Q) :
  fl_div (Finite v) (Finite max_val) = Ok (b64 (v / max_val)).
Proof. unfold fl_div. now rewrite max_val_nonzero. Qed.

(** The quotient of a sample within the limit is a finite float, and so is
    the scaled quotient. *)
Lemma ratio_finite (v : Q) :
  - (RATIO_LIMIT * max_val) <= v -> v <= RATIO_LIMIT * max_val ->
  b64 (v / max_val) = Finite (round64 (v / max_val)) /\
  b64 (round64 (v / max_val) * 8)
  = Finite (round64 (round64 (v / max_val) * 8)).
Proof.
  intros Lo Hi.
  destruct ratio_limit_facts as [E1 [E2 [E3 [E4 [B [_ _]]]]]].
  assert (Q1 : - RATIO_LIMIT <= v / max_val)
    by (apply Qle_shift_div_l; [ exact max_val_pos | lra ]).
  assert (Q2 : v / max_val <= RATIO_LIMIT)
    by (apply Qle_shift_div_r; [ exact max_val_pos | lra ]).
  destruct (b64_between (v / max_val) (- RATIO_LIMIT) RATIO_LIMIT)
    as [F [L H]]; try assumption; try lra.
  split; [ exact F | ].
  destruct (b64_between (round64 (v / max_val) * 8)
                        (- (8 * RATIO_LIMIT)) (8 * RATIO_LIMIT))
    as [F' _]; try assumption; try lra.
Qed.

Lemma spark_idx_pos (v : Q) :
  - (RATIO_LIMIT * max_val) <= v -> v <= RATIO_LIMIT * max_val ->
  spark_idx (Finite v) (Finite max_val)
  = Ok (Z.min (py_int (round64 (round64 (v / max_val) * 8))) 8).
Proof.
  intros Lo Hi. destruct (ratio_finite v Lo Hi) as [F1 F2].
  unfold spark_idx. rewrite fl_div_pos, F1. cbn [bind fl_mul].
  rewrite F2. reflexivity.
Qed.




Lemma scaled_nonneg (v : Q) :
  0 <= v -> 0 <= round64 (round64 (v / max_val) * 8).
Proof.
  intros Hv. apply round64_nonneg.
  apply Qmult_le_0_compat; [ | discriminate ].
  apply round64_nonneg. apply Qle_shift_div_l; [ exact max_val_pos | lra ].
Qed.

Lemma below_limit (v : Q) :
  0 <= v -> - (RATIO_LIMIT * max_val) <= v.
Proof.
  intros Hv. destruct ratio_limit_facts as [_ [_ [_ [_ [_ [G _]]]]]].
  assert (0 <= RATIO_LIMIT * max_val) by (apply Qmult_le_0_compat; lra).
  lra.
Qed.

Lemma spark_idx_range (v : Q) :
  0 <= v -> v <= RATIO_LIMIT * max_val ->
  exists i, spark_idx (Finite v) (Finite max_val) = Ok i /\ (0 <= i <= 8)%Z.
Proof.
  intros Hv Hi. rewrite (spark_idx_pos v (below_limit v Hv) Hi).
  eexists. split; [ reflexivity | ].
  split; [ | apply Z.le_min_r ].
  apply Z.min_glb; [ | lia ].
  apply Z.le_trans with (py_int (inject_Z 0)); [ rewrite py_int_Z; lia | ].
  apply py_int_mono, scaled_nonneg, Hv.
Qed.

Lemma spark_idx_clamped (v : Q) :
  max_val <= v -> v <= RATIO_LIMIT * max_val ->
  spark_idx (Finite v) (Finite max_val) = Ok 8%Z.
Proof.
  intros Hv Hi.
  rewrite (spark_idx_pos v (below_limit v ltac:(lra)) Hi).
  f_equal. apply Z.min_r.
  apply Z.le_trans with (py_int (inject_Z 8)); [ rewrite py_int_Z; lia | ].
  apply py_int_mono.
  apply (round64_ge 8 _ round64_exact_8).
  assert (H1 : 1 <= round64 (v / max_val)).
  { apply (round64_ge 1 _ round64_exact_1).
    apply Qle_shift_div_l; [ exact max_val_pos | lra ]. }
  lra.
Qed.



End Quantisation.




(* ------------------------------------------------------------------ *)
(** ** The error monad *)

Lemma bind_Ok_inv {A B : Type} (c : result A) (k : A -> result B) (b : B) :
  bind c k = Ok b -> exists a, c = Ok a /\ k a = Ok b.
Proof. destruct c as [a | e]; cbn; [ eauto | discriminate ]. Qed.

Ltac bind_inv H :=
  let a := fresh "a" in
  let Ha := fresh "Ha" in
  apply bind_Ok_inv in H; destruct H as [a [Ha H]].

(** A library call that returns gives the environment's value. *)
Lemma answer_inv {A : Type} (e : tick_env) (c : call) (a x : A) :
  answer e c a = Ok x -> x = a.
Proof.
  unfold answer. destruct (call_raises e c); [ discriminate | ].
  now intros [= <-].
Qed.

Ltac answers :=
  repeat match goal with
         | X : answer _ _ _ = Ok _ |- _ => apply answer_inv in X; subst
         end.

(* ------------------------------------------------------------------ *)
(** ** Bounded histories *)

Section Histories.

Context {A : Type}.

Lemma tl_skipn (k : nat) (l : list A) : tl (skipn k l) = skipn (S k) l.
Proof.
  revert l. induction k as [ | k IH]; intros [ | a l]; cbn; try reflexivity.
  rewrite IH. reflexivity.
Qed.

Lemma deque_append_maxlen (d : deque A) (x : A) :
  maxlen (deque_append d x) = maxlen d.
Proof. unfold deque_append. destruct (_ <? _)%nat; reflexivity. Qed.

Lemma fold_deque_append_snoc (d : deque A) (xs : list A) (x : A) :
  fold_left deque_append (xs ++ [x]) d
  = deque_append (fold_left deque_append xs d) x.
Proof. now rewrite fold_left_app. Qed.

Lemma deque_fill (C : nat) (xs : list A) :
  maxlen (fold_left deque_append xs (deque_new C)) = C /\
  items (fold_left deque_append xs (deque_new C)) = skipn (length xs - C) xs.
Proof.
  induction xs as [ | x xs [IHm IHi]] using rev_ind.
  - split; [ reflexivity | now rewrite skipn_nil ].
  - rewrite fold_deque_append_snoc.
    set (d := fold_left deque_append xs (deque_new C)) in *. split.
    + now rewrite deque_append_maxlen.
    + unfold deque_append. rewrite IHm, IHi.
      rewrite !length_app, length_skipn. cbn [length].
      destruct (Nat.ltb_spec C (length xs - (length xs - C) + 1)) as [Full | Room];
        cbn [items].
      * replace (length xs + 1 - C)%nat with (S (length xs - C)) by lia.
        rewrite <- tl_skipn, skipn_app.
        replace (length xs - C - length xs)%nat with 0%nat by lia.
        reflexivity.
      * replace (length xs - C)%nat with 0%nat by lia.
        replace (length xs + 1 - C)%nat with 0%nat by lia.
        reflexivity.
Qed.

Lemma deque_fill_length (C : nat) (xs : list A) :
  length (items (fold_left deque_append xs (deque_new C)))
  = Nat.min (length xs) C.
Proof.
  destruct (deque_fill C xs) as [_ E]. rewrite E, length_skipn. lia.
Qed.

End Histories.

(* ------------------------------------------------------------------ *)
(** ** Comparisons and maxima *)

Section Maxima.

Lemma py_gt_true (a b : Q) : py_gt a b = true <-> b < a.
Proof.
  unfold py_gt. rewrite negb_true_iff. split; intros H.
  - apply Qnot_le_lt. intros L. apply Qle_bool_iff in L. congruence.
  - destruct (Qle_bool a b) eqn:E; [ | reflexivity ].
    apply Qle_bool_iff in E. exfalso. lra.
Qed.

Lemma py_gt_false (a b : Q) : py_gt a b = false <-> a <= b.
Proof.
  unfold py_gt. rewrite negb_false_iff. apply Qle_bool_iff.
Qed.

Lemma py_max2_cases (a b : Q) :
  (py_max2 a b = a /\ b <= a) \/ (py_max2 a b = b /\ a < b).
Proof.
  unfold py_max2. destruct (py_gt b a) eqn:E.
  - right. split; [ reflexivity | now apply py_gt_true ].
  - left. split; [ reflexivity | now apply py_gt_false ].
Qed.

Lemma py_max2_ge_l (a b : Q) : a <= py_max2 a b.
Proof. destruct (py_max2_cases a b) as [[-> H] | [-> H]]; lra. Qed.

Lemma py_max2_ge_r (a b : Q) : b <= py_max2 a b.
Proof. destruct (py_max2_cases a b) as [[-> H] | [-> H]]; lra. Qed.

Lemma py_max3_spec (a b c : Q) :
  a <= py_max3 a b c /\ b <= py_max3 a b c /\ c <= py_max3 a b c /\
  (py_max3 a b c = a \/ py_max3 a b c = b \/ py_max3 a b c = c).
Proof.
  unfold py_max3.
  pose proof (py_max2_ge_l a b). pose proof (py_max2_ge_r a b).
  pose proof (py_max2_ge_l (py_max2 a b) c).
  pose proof (py_max2_ge_r (py_max2 a b) c).
  repeat split; try lra.
  destruct (py_max2_cases (py_max2 a b) c) as [[-> _] | [-> _]]; [ | tauto ].
  destruct (py_max2_cases a b) as [[-> _] | [-> _]]; tauto.
Qed.

Lemma fold_py_max2_spec (xs : list Q) (x : Q) :
  x <= fold_left py_max2 xs x /\
  (forall y, In y xs -> y <= fold_left py_max2 xs x) /\
  (fold_left py_max2 xs x = x \/ In (fold_left py_max2 xs x) xs).
Proof.
  revert x. induction xs as [ | y xs IH]; intros x; cbn [fold_left].
  - split; [ apply Qle_refl | ]. split; [ intros y [] | now left ].
  - destruct (IH (py_max2 x y)) as [G [U W]].
    pose proof (py_max2_ge_l x y). pose proof (py_max2_ge_r x y).
    split; [ lra | ]. split.
    + intros z [<- | Hz]; [ lra | now apply U ].
    + destruct W as [W | W]; [ | right; now right ].
      rewrite W. destruct (py_max2_cases x y) as [[-> _] | [-> _]];
        [ now left | right; now left ].
Qed.

End Maxima.

(* ------------------------------------------------------------------ *)
(** ** One iteration of the loop *)

Section Loop.

Variable host : str.
Variable interval : float.

Lemma tick_inv (s : session) (e : tick_env) (s' : session) (p : Panel) :
  tick host interval s e = Ok (s', p) ->
  exists (latency : option float) (io_combined : Q),
    run_ping (subprocess_run e) host = Ok latency /\
    history s' = deque_append (history s) latency /\
    cpu_hist s' = deque_append (cpu_hist s) (cpu_percent e) /\
    io_hist s' = deque_append (io_hist s) io_combined /\
    cpu_max s' = py_max3 (cpu_max s) (cpu_percent e) 10 /\
    io_max s' = py_max3 (io_max s) io_combined 1024.
Proof.
  unfold tick. intros H.
  do 9 bind_inv H. injection H as <- <-. answers.
  cbn [history cpu_hist io_hist cpu_max io_max].
  eexists _, _. repeat split; eassumption || reflexivity.
Qed.

Lemma run_ticks_inv (envs : list tick_env) :
  forall (s s' : session) (panels : list Panel),
    run_ticks host interval s envs = Ok (s', panels) ->
    exists (lat : list (option float)) (io : list Q),
      Forall2 (fun e l => run_ping (subprocess_run e) host = Ok l) envs lat /\
      length io = length envs /\
      history s' = fold_left deque_append lat (history s) /\
      cpu_hist s' = fold_left deque_append (map cpu_percent envs) (cpu_hist s) /\
      io_hist s' = fold_left deque_append io (io_hist s).
Proof.
  induction envs as [ | e envs IH]; intros s s' panels H; cbn [run_ticks] in H.
  - injection H as <- <-. exists [], []. repeat split. constructor.
  - bind_inv H. destruct a as [s1 p1]. bind_inv H. destruct a as [s2 ps].
    cbn [fst snd] in *. injection H as <- <-.
    destruct (tick_inv _ _ _ _ Ha) as [l [i [R [Eh [Ec [Ei _]]]]]].
    destruct (IH _ _ _ Ha0) as [lat [io [F [Len [Fh [Fc Fi]]]]]].
    exists (l :: lat), (i :: io). cbn [fold_left map length].
    rewrite <- Eh, <- Ec, <- Ei.
    repeat split; try assumption; [ now constructor | now rewrite Len ].
Qed.

Lemma run_ticks_maxima (envs : list tick_env) :
  forall (s s' : session) (panels : list Panel),
    run_ticks host interval s envs = Ok (s', panels) ->
    cpu_max s <= cpu_max s' /\ io_max s <= io_max s' /\
    (envs <> [] -> 10 <= cpu_max s' /\ 1024 <= io_max s').
Proof.
  induction envs as [ | e envs IH]; intros s s' panels H; cbn [run_ticks] in H.
  - injection H as <- <-.
    split; [ apply Qle_refl | ]. split; [ apply Qle_refl | ].
    intros NE. now contradiction NE.
  - bind_inv H. destruct a as [s1 p1]. bind_inv H. destruct a as [s2 ps].
    cbn [fst snd] in *. injection H as <- <-.
    destruct (tick_inv _ _ _ _ Ha) as [l [i [_ [_ [_ [_ [Ec Ei]]]]]]].
    destruct (IH _ _ _ Ha0) as [Mc [Mi _]].
    destruct (py_max3_spec (cpu_max s) (cpu_percent e) 10) as [C1 [_ [C3 _]]].
    destruct (py_max3_spec (io_max s) i 1024) as [I1 [_ [I3 _]]].
    rewrite <- Ec in C1, C3. rewrite <- Ei in I1, I3.
    repeat split; intros; lra.
Qed.

End Loop.

(* ------------------------------------------------------------------ *)
(** ** Claims on the histories and the session maxima *)

(** C1. A history of capacity [C] that received the samples [samples], in
    that order, holds [min N C] of them, namely the most recent ones in
    insertion order; an append to a history that is not full keeps
    everything, an append to a full one drops the oldest element.  The
    three histories of the program are such buffers, of capacity 30 for the
    latency and 10 for CPU and IO, and every iteration appends one sample
    to each. *)
Theorem history_keeps_most_recent :
  (forall (A : Type) (C : nat) (samples : list A),
     let buffer := fold_left deque_append samples (deque_new C) in
     let N := length samples in
     length (deque_list buffer) = Nat.min N C /\
     deque_list buffer = skipn (N - Nat.min N C) samples /\
     (forall x : A,
        (N < C)%nat ->
        deque_list (deque_append buffer x) = deque_list buffer ++ [x]) /\
     (forall x : A,
        (C <= N)%nat ->
        deque_list (deque_append buffer x) = tl (deque_list buffer ++ [x]))) /\
  (forall (host : str) (interval : float) (io0 : option sdiskio) (t0 : Q)
          (envs : list tick_env)
          (s : session) (panels : list Panel),
     run_ticks host interval (init_session io0 t0) envs = Ok (s, panels) ->
     exists (lat : list (option float)) (io : list Q),
       Forall2 (fun e l => run_ping (subprocess_run e) host = Ok l) envs lat /\
       length io = length envs /\
       history s = fold_left deque_append lat (deque_new 30) /\
       cpu_hist s = fold_left deque_append (map cpu_percent envs) (deque_new 10) /\
       io_hist s = fold_left deque_append io (deque_new 10)).
Proof.
  split.
  - intros A C samples buffer N.
    destruct (deque_fill C samples) as [Hm Hi]. fold buffer in Hm, Hi.
    pose proof (deque_fill_length C samples) as Hl. fold buffer in Hl.
    unfold deque_list. fold N in Hi, Hl.
    split; [ exact Hl | ]. split.
    + rewrite Hi. f_equal. lia.
    + split; intros x Hx; unfold deque_append; rewrite Hm, length_app, Hl;
        cbn [length].
      * destruct (Nat.ltb_spec C (Nat.min N C + 1)); [ lia | reflexivity ].
      * destruct (Nat.ltb_spec C (Nat.min N C + 1)); [ reflexivity | lia ].
  - intros host interval io0 t0 envs s panels H.
    apply (run_ticks_inv host interval envs _ _ _ H).
Qed.

Lemma history_keeps_most_recent_witness :
  deque_list
    (fold_left deque_append [1; 2; 3; 4; 5]%nat (deque_new 3)) = [3; 4; 5]%nat /\
  exists (s : session) (panels : list Panel),
    run_ticks (lit "8.8.8.8") one_second (init_session None 0) [env_reply; env_timeout]
    = Ok (s, panels) /\
    deque_list (cpu_hist s) = [12; 35].
Proof.
  destruct history_keeps_most_recent as [G P]. split.
  - destruct (G nat 3%nat [1; 2; 3; 4; 5]%nat) as [_ [E _]]. exact E.
  - destruct (run_ticks (lit "8.8.8.8") one_second (init_session None 0)
                        [env_reply; env_timeout]) as [[s panels] | e] eqn:R;
      [ | vm_compute in R; discriminate R ].
    exists s, panels. split; [ reflexivity | ].
    destruct (P _ _ _ _ _ _ _ R) as [lat [io [_ [_ [_ [E _]]]]]].
    rewrite E. reflexivity.
Defined.

(** C2, as the seed is written.  The session maxima start at 1.0, below their
    floors.  Every iteration replaces each by the greatest of its current
    value, the new sample and the floor (10.0 for CPU, 1024.0 for IO); so
    across any sequence of iterations a maximum never decreases, and from
    the first iteration on it is at least its floor. *)
Theorem session_maxima_never_decrease :
  (forall (io0 : option sdiskio) (t0 : Q),
     cpu_max (init_session io0 t0) = 1 /\ io_max (init_session io0 t0) = 1) /\
  (forall (host : str) (interval : float) (s : session) (e : tick_env)
          (s' : session) (p : Panel),
     tick host interval s e = Ok (s', p) ->
     exists io_combined : Q,
       io_hist s' = deque_append (io_hist s) io_combined /\
       (cpu_max s <= cpu_max s' /\ cpu_percent e <= cpu_max s' /\
        10 <= cpu_max s' /\
        (cpu_max s' = cpu_max s \/ cpu_max s' = cpu_percent e \/
         cpu_max s' = 10)) /\
       (io_max s <= io_max s' /\ io_combined <= io_max s' /\
        1024 <= io_max s' /\
        (io_max s' = io_max s \/ io_max s' = io_combined \/
         io_max s' = 1024))) /\
  (forall (host : str) (interval : float) (s : session) (envs : list tick_env)
          (s' : session) (panels : list Panel),
     run_ticks host interval s envs = Ok (s', panels) ->
     cpu_max s <= cpu_max s' /\ io_max s <= io_max s' /\
     (envs <> [] -> 10 <= cpu_max s' /\ 1024 <= io_max s')).
Proof.
  split; [ | split ].
  - intros io0 t0. split; reflexivity.
  - intros host interval s e s' p H.
    destruct (tick_inv host interval _ _ _ _ H) as [l [i [_ [_ [_ [Ei [Mc Mi]]]]]]].
    exists i. split; [ exact Ei | ]. rewrite Mc, Mi.
    destruct (py_max3_spec (cpu_max s) (cpu_percent e) 10) as [C1 [C2 [C3 C4]]].
    destruct (py_max3_spec (io_max s) i 1024) as [I1 [I2 [I3 I4]]].
    repeat split; assumption.
  - intros host interval s envs s' panels H. apply (run_ticks_maxima host interval envs _ _ _ H).
Qed.

Lemma session_maxima_never_decrease_witness :
  exists (s : session) (panels : list Panel),
    run_ticks (lit "8.8.8.8") one_second (init_session None 0) [env_reply; env_timeout]
    = Ok (s, panels) /\
    10 <= cpu_max s /\ 1024 <= io_max s.
Proof.
  destruct session_maxima_never_decrease as [_ [_ R]].
  destruct (run_ticks (lit "8.8.8.8") one_second (init_session None 0)
                      [env_reply; env_timeout]) as [[s panels] | e] eqn:E;
    [ | vm_compute in E; discriminate E ].
  exists s, panels. split; [ reflexivity | ].
  destruct (R _ _ _ _ _ _ E) as [_ [_ F]]. apply F. discriminate.
Defined.

(** C2 as stated fails at the start of the session: the maxima are seeded
    with 1.0, which is neither the floor nor above it. *)
Lemma session_maxima_seed_below_floor :
  ~ (cpu_max (init_session None 0) == 10) /\
  ~ (10 <= cpu_max (init_session None 0)) /\
  ~ (io_max (init_session None 0) == 1024) /\
  ~ (1024 <= io_max (init_session None 0)).
Proof. repeat split; intros H; vm_compute in H; congruence. Qed.

(* ------------------------------------------------------------------ *)
(** ** The reply of [ping] *)

Section Parsing.

Lemma span_spec (p : char -> bool) (s a b : str) :
  span p s = (a, b) ->
  s = a ++ b /\ forallb p a = true /\
  match b with [] => True | c :: _ => p c = false end.
Proof.
  revert a b. induction s as [ | c s IH]; intros a b H; cbn [span] in H.
  - injection H as <- <-. repeat split.
  - destruct (p c) eqn:Pc.
    + destruct (span p s) as [a' b'] eqn:E. injection H as <- <-.
      destruct (IH _ _ eq_refl) as [-> [Fa Hb]].
      repeat split; [ cbn; now rewrite Pc, Fa | exact Hb ].
    + injection H as <- <-. repeat split. exact Pc.
Qed.

Lemma span_stop (p : char -> bool) (a b : str) :
  forallb p a = true ->
  match b with [] => True | c :: _ => p c = false end ->
  span p (a ++ b) = (a, b).
Proof.
  intros Fa Hb. induction a as [ | c a IH]; cbn [app span].
  - destruct b as [ | c b]; [ reflexivity | ]. cbn [span]. now rewrite Hb.
  - cbn [forallb] in Fa. apply andb_prop in Fa as [Pc Fa].
    rewrite Pc, (IH Fa). reflexivity.
Qed.

Lemma digits_fold_nonneg (ds : str) :
  forall acc : Z,
    (0 <= acc)%Z ->
    (0 <= fold_left (fun acc c => 10 * acc + Z.of_N (digit_value c)) ds acc)%Z.
Proof.
  induction ds as [ | c ds IH]; intros acc Hacc; cbn [fold_left].
  - exact Hacc.
  - apply IH. lia.
Qed.

Lemma decimal_value_nonneg (whole frac : str) : 0 <= decimal_value whole frac.
Proof.
  unfold decimal_value, Qle. cbn [Qnum Qden].
  rewrite Z.mul_0_l, Z.mul_1_r. apply digits_fold_nonneg. lia.
Qed.

(** The point is no digit. *)
Lemma point_not_digit : is_digit 46%N = false.
Proof. vm_compute. reflexivity. Qed.

(** A string the pattern's group can hold: digits, at least one, then
    possibly a point and digits. *)
Lemma match_time_here_shape (s g : str) :
  match_time_here s = Some g ->
  exists whole frac : str, numeral g whole frac.
Proof.
  unfold match_time_here.
  destruct (strip_prefix (lit "time=") s) as [r | ]; [ | discriminate ].
  destruct (span is_digit r) as [whole r1] eqn:S1.
  destruct (span_spec _ _ _ _ S1) as [_ [Fw Stop]].
  destruct whole as [ | w0 whole']; [ discriminate | ].
  destruct r1 as [ | c r'].
  - cbn [span]. intros H. discriminate H.
  - destruct (c =? 46)%N eqn:Ec.
    + apply N.eqb_eq in Ec. subst c.
      destruct (span is_digit r') as [frac r3] eqn:S2.
      destruct (span_spec _ _ _ _ S2) as [_ [Ff _]].
      destruct (span is_space r3) as [sp r4].
      destruct (strip_prefix (lit "ms") r4); [ | discriminate ].
      intros [= <-]. exists (w0 :: whole'), frac.
      repeat split; [ discriminate | exact Fw | exact Ff | now left ].
    + cbn [span]. rewrite Stop.
      destruct (span is_space (c :: r')) as [sp r4].
      destruct (strip_prefix (lit "ms") r4); [ | discriminate ].
      intros [= <-]. exists (w0 :: whole'), []. rewrite !app_nil_r.
      repeat split; [ discriminate | exact Fw | now right ].
Qed.

Lemma re_search_time_shape (s g : str) :
  re_search_time s = Some g ->
  exists s' : str, match_time_here s' = Some g.
Proof.
  induction s as [ | c s IH]; cbn [re_search_time].
  - destruct (match_time_here []) eqn:E; [ | discriminate ].
    intros [= <-]. now exists [].
  - destruct (match_time_here (c :: s)) eqn:E.
    + intros [= <-]. now exists (c :: s).
    + exact IH.
Qed.

(** [float()] of a numeral is the float nearest to its value. *)
Lemma py_float_numeral (g whole frac : str) :
  numeral g whole frac ->
  py_float g = Ok (b64 (decimal_value whole frac)).
Proof.
  intros [NE [Fw [Ff [-> | [-> ->]]]]]; unfold py_float.
  - rewrite (span_stop is_digit whole (46%N :: frac) Fw point_not_digit).
    destruct whole as [ | w0 whole']; [ congruence | ].
    now rewrite N.eqb_refl, Ff.
  - pose proof (span_stop is_digit whole [] Fw I) as S.
    rewrite app_nil_r in S. rewrite S.
    destruct whole as [ | w0 whole']; [ congruence | reflexivity ].
Qed.

Lemma re_search_time_float (s g : str) :
  re_search_time s = Some g ->
  exists whole frac : str,
    numeral g whole frac /\
    py_float g = Ok (b64 (decimal_value whole frac)).
Proof.
  intros H. destruct (re_search_time_shape _ _ H) as [s' M].
  destruct (match_time_here_shape _ _ M) as [whole [frac N]].
  exists whole, frac. split; [ exact N | now apply py_float_numeral ].
Qed.

(** The arguments and the time limit of the process call. *)
Lemma run_ping_call (run : list str -> Q -> run_outcome) (host : str) :
  exists t : Q,
    t == 5 /\
    run_ping run host
    = match run [lit "ping"; lit "-c"; lit "1"; lit "-W"; lit "2000"; host] t
      with
      | Completed stdout =>
          match re_search_time stdout with
          | Some group1 => v <- py_float group1 ;; Ok (Some v)
          | None => Ok None
          end
      | Raises TimeoutExpired => Ok None
      | Raises OSError => Ok None
      | Raises e => Raise e
      end.
Proof.
  unfold run_ping.
  change (fdiv (inject_Z PING_TIMEOUT_MS) 1000)
    with (Ok (A := Q) (round53 (inject_Z PING_TIMEOUT_MS / 1000))).
  cbn [bind].
  change (str_of_N (Z.to_N PING_TIMEOUT_MS)) with (lit "2000").
  eexists. split; [ | reflexivity ]. vm_compute. reflexivity.
Qed.

End Parsing.

(** C9, as the exceptions are caught.  [run_ping] calls
    [ping -c 1 -W 2000 host] under a five-second limit and catches the two
    exceptions it names.  When the call raises [TimeoutExpired] or an
    [OSError], or its output holds no round-trip time, the result is the
    dropped marker; when the output holds one, the result is the float
    nearest to the numeral read, which is never negative.  Any other
    exception of the call is raised to the caller, and [run_ping] raises
    nothing else. *)
Theorem run_ping_returns_or_propagates
        (subprocess_run : list str -> Q -> run_outcome) (host : str) :
  exists t : Q,
    t == 5 /\
    match
      subprocess_run
        [lit "ping"; lit "-c"; lit "1"; lit "-W"; lit "2000"; host] t
    with
    | Raises e =>
        (e = TimeoutExpired \/ e = OSError ->
         run_ping subprocess_run host = Ok None) /\
        (e <> TimeoutExpired -> e <> OSError ->
         run_ping subprocess_run host = Raise e)
    | Completed stdout =>
        match re_search_time stdout with
        | None => run_ping subprocess_run host = Ok None
        | Some group1 =>
            exists (whole frac : str) (v : float),
              numeral group1 whole frac /\
              v = b64 (decimal_value whole frac) /\ fl_nonneg v /\
              run_ping subprocess_run host = Ok (Some v)
        end
    end /\
    (forall r : option float,
       run_ping subprocess_run host = Ok r ->
       r = None \/ exists v : float, r = Some v /\ fl_nonneg v) /\
    (forall e : exn,
       run_ping subprocess_run host = Raise e ->
       subprocess_run
         [lit "ping"; lit "-c"; lit "1"; lit "-W"; lit "2000"; host] t
       = Raises e /\
       e <> TimeoutExpired /\ e <> OSError).
Proof.
  destruct (run_ping_call subprocess_run host) as [t [Ht E]].
  exists t. split; [ exact Ht | ]. rewrite E.
  destruct (subprocess_run _ t) as [stdout | e].
  - destruct (re_search_time stdout) as [g | ] eqn:M.
    + destruct (re_search_time_float _ _ M) as [whole [frac [N F]]].
      rewrite F. cbn [bind].
      pose proof (b64_nonneg _ (decimal_value_nonneg whole frac)) as P.
      split; [ | split ].
      * exists whole, frac, (b64 (decimal_value whole frac)). auto.
      * intros r [= <-]. right. eauto.
      * intros e H. discriminate H.
    + split; [ reflexivity | ]. split.
      * intros r [= <-]. now left.
      * intros e H. discriminate H.
  - split; [ split | split ].
    + intros [-> | ->]; reflexivity.
    + intros H1 H2. destruct e; congruence.
    + intros r H. left. destruct e; congruence.
    + intros e' H. destruct e; try discriminate H;
        injection H as <-; repeat split; discriminate.
Qed.

(** C9 as stated fails when the process call raises something else than
    the two exceptions caught.  The interrupt of the user, raised while
    [ping] runs, goes through [run_ping] to the handler of [main]; and
    against a call that refuses an argument with a NUL character with a
    [ValueError], as [subprocess.run] does, such a host name makes
    [run_ping] raise instead of returning the dropped marker. *)
Lemma run_ping_raises_to_caller :
  run_ping (fun _ _ => Raises KeyboardInterrupt) (lit "8.8.8.8")
  = Raise KeyboardInterrupt /\
  run_ping run_checked [97; 0; 98]%N = Raise ValueError /\
  ~ (exists r : option float,
       run_ping (fun _ _ => Raises KeyboardInterrupt) (lit "8.8.8.8") = Ok r) /\
  ~ (exists r : option float, run_ping run_checked [97; 0; 98]%N = Ok r).
Proof.
  assert (E1 : run_ping (fun _ _ => Raises KeyboardInterrupt) (lit "8.8.8.8")
               = Raise KeyboardInterrupt) by (vm_compute; reflexivity).
  assert (E2 : run_ping run_checked [97; 0; 98]%N = Raise ValueError)
    by (vm_compute; reflexivity).
  split; [ exact E1 | ]. split; [ exact E2 | ].
  split; intros [r H]; [ rewrite E1 in H | rewrite E2 in H ]; discriminate H.
Qed.

(* ------------------------------------------------------------------ *)
(** ** Formatting *)

Section Formatting.

Lemma string_of_uint_digits (u : Decimal.uint) :
  forallb is_digit (lit (NilEmpty.string_of_uint u)) = true.
Proof. induction u; cbn; try reflexivity; exact IHu. Qed.

Lemma str_of_N_digits (n : N) : forallb is_digit (str_of_N n) = true.
Proof.
  unfold str_of_N, NilZero.string_of_uint.
  destruct (N.to_uint n); try reflexivity;
    match goal with |- context [NilEmpty.string_of_uint ?u] =>
      exact (string_of_uint_digits u) end.
Qed.

Lemma ascii_digit (k : N) : (k < 10)%N -> is_digit (48 + k)%N = true.
Proof.
  intros H. destruct k as [ | p]; [ reflexivity | ].
  do 4 (destruct p as [p | p | ]; try reflexivity; try lia).
Qed.

Lemma str_of_N_small (k : N) : (k < 10)%N -> str_of_N k = [(48 + k)%N].
Proof.
  intros H.
  destruct k as [ | p]; [ reflexivity | ].
  do 4 (destruct p as [p | p | ]; try reflexivity; try lia).
Qed.

(** With no decimals asked for, the text is a sign, if any, and digits. *)
Lemma format_f_0_digits (x : Q) :
  exists sign whole : str,
    format_f 0 x = sign ++ whole /\ (sign = [] \/ sign = lit "-") /\
    whole <> [] /\ forallb is_digit whole = true.
Proof.
  unfold format_f. cbn [Z.of_nat].
  set (n := round_half_even _).
  exists (if py_gt 0 x then lit "-" else []), (str_of_N (Z.to_N (n / 10 ^ 0))).
  split; [ reflexivity | ]. split; [ destruct (py_gt 0 x); auto | ].
  split; [ | apply str_of_N_digits ].
  unfold str_of_N, NilZero.string_of_uint.
  destruct (N.to_uint _); discriminate.
Qed.

(** With one decimal asked for, the text ends in a point and one digit. *)
Lemma format_f_1_digits (x : Q) :
  exists (sign whole : str) (d : char),
    format_f 1 x = sign ++ whole ++ [46%N; d] /\
    (sign = [] \/ sign = lit "-") /\
    whole <> [] /\ forallb is_digit whole = true /\ is_digit d = true.
Proof.
  unfold format_f.
  set (n := round_half_even _).
  change (10 ^ Z.of_nat 1)%Z with 10%Z.
  assert (Hk : (Z.to_N (n mod 10) < 10)%N)
    by (pose proof (Z.mod_pos_bound n 10); lia).
  exists (if py_gt 0 x then lit "-" else []), (str_of_N (Z.to_N (n / 10))),
         (48 + Z.to_N (n mod 10))%N.
  rewrite (str_of_N_small _ Hk).
  split; [ reflexivity | ]. split; [ destruct (py_gt 0 x); auto | ].
  split; [ | split; [ apply str_of_N_digits | ] ].
  - unfold str_of_N, NilZero.string_of_uint.
    destruct (N.to_uint _); discriminate.
  - now apply ascii_digit.
Qed.

Lemma fdiv_const (a b : Q) :
  Qeq_bool b 0 = false -> fdiv a b = Ok (round53 (a / b)).
Proof. unfold fdiv. now intros ->. Qed.

End Formatting.

(** C8. The byte formatter switches unit at the binary multiples 2^10, 2^20
    and 2^30; bytes, K and M are printed with no decimals and G with one;
    and the four sample values are printed as [0B], [2K], [5M] and
    [2.0G]. *)
Theorem format_bytes_units_and_examples :
  (forall n : Q,
     (inject_Z (2 ^ 30) <= n ->
      format_bytes n
      = Ok (format_f 1 (round53 (n / inject_Z (2 ^ 30))) ++ lit "G")) /\
     (inject_Z (2 ^ 20) <= n -> n < inject_Z (2 ^ 30) ->
      format_bytes n
      = Ok (format_f 0 (round53 (n / inject_Z (2 ^ 20))) ++ lit "M")) /\
     (inject_Z (2 ^ 10) <= n -> n < inject_Z (2 ^ 20) ->
      format_bytes n
      = Ok (format_f 0 (round53 (n / inject_Z (2 ^ 10))) ++ lit "K")) /\
     (n < inject_Z (2 ^ 10) ->
      format_bytes n = Ok (format_f 0 n ++ lit "B"))) /\
  (forall x : Q,
     exists sign whole : str,
       format_f 0 x = sign ++ whole /\ (sign = [] \/ sign = lit "-") /\
       whole <> [] /\ forallb is_digit whole = true) /\
  (forall x : Q,
     exists (sign whole : str) (d : char),
       format_f 1 x = sign ++ whole ++ [46%N; d] /\
       (sign = [] \/ sign = lit "-") /\
       whole <> [] /\ forallb is_digit whole = true /\ is_digit d = true) /\
  format_bytes 0 = Ok (lit "0B") /\
  format_bytes 1536 = Ok (lit "2K") /\
  format_bytes 5242880 = Ok (lit "5M") /\
  format_bytes 2147483648 = Ok (lit "2.0G").
Proof.
  split; [ | split; [ exact format_f_0_digits | split;
                      [ exact format_f_1_digits | ] ] ].
  - intros n. unfold format_bytes, py_ge.
    change (Z.shiftl 1 30) with (2 ^ 30)%Z.
    change (Z.shiftl 1 20) with (2 ^ 20)%Z.
    change (Z.shiftl 1 10) with (2 ^ 10)%Z.
    assert (B : forall a b, a < b -> Qle_bool b a = false).
    { intros a b H. destruct (Qle_bool b a) eqn:E; [ | reflexivity ].
      apply Qle_bool_iff in E. exfalso. lra. }
    repeat split.
    + intros H. apply Qle_bool_iff in H. rewrite H.
      now rewrite fdiv_const.
    + intros H1 H2. apply Qle_bool_iff in H1. rewrite (B _ _ H2), H1.
      now rewrite fdiv_const.
    + intros H1 H2. apply Qle_bool_iff in H1.
      assert (H3 : n < inject_Z (2 ^ 30))
        by (apply Qlt_trans with (inject_Z (2 ^ 20)); [ exact H2 | reflexivity ]).
      rewrite (B _ _ H3), (B _ _ H2), H1.
      now rewrite fdiv_const.
    + intros H1.
      assert (H2 : n < inject_Z (2 ^ 20))
        by (apply Qlt_trans with (inject_Z (2 ^ 10)); [ exact H1 | reflexivity ]).
      assert (H3 : n < inject_Z (2 ^ 30))
        by (apply Qlt_trans with (inject_Z (2 ^ 20)); [ exact H2 | reflexivity ]).
      now rewrite (B _ _ H3), (B _ _ H2), (B _ _ H1).
  - repeat split; vm_compute; reflexivity.
Qed.

(* ------------------------------------------------------------------ *)
(** ** Sparklines *)

Section Sparklines.

Lemma Text_append_one (t : Text) (c : char) (sty : style) :
  Text_append t [c] sty = t ++ [(c, sty)].
Proof. reflexivity. Qed.

Lemma ramp_index (idx : Z) :
  (0 <= idx <= 8)%Z ->
  exists glyph : char,
    py_index SPARK_CHARS idx = Ok glyph /\
    nth_error SPARK_CHARS (Z.to_nat idx) = Some glyph.
Proof.
  intros H.
  assert (C : (idx = 0 \/ idx = 1 \/ idx = 2 \/ idx = 3 \/ idx = 4 \/
               idx = 5 \/ idx = 6 \/ idx = 7 \/ idx = 8)%Z) by lia.
  repeat (destruct C as [-> | C]; [ eexists; split; reflexivity | ]).
  subst idx. eexists. split; reflexivity.
Qed.

Lemma in_latencies_of (values : list (option float)) (x : float) :
  In x (latencies_of values) <-> In (Some x) values.
Proof.
  unfold latencies_of. rewrite in_flat_map. split.
  - intros [[y | ] [Hin Hx]]; [ | destruct Hx ].
    destruct Hx as [-> | []]. exact Hin.
  - intros H. exists (Some x). split; [ exact H | now left ].
Qed.

Lemma latencies_of_nil (values : list (option float)) :
  latencies_of values = [] -> Forall (fun v => v = None) values.
Proof.
  induction values as [ | [x | ] values IH]; cbn; intros H.
  - constructor.
  - discriminate H.
  - constructor; [ reflexivity | exact (IH H) ].
Qed.

(** The non-dropped samples of a window of well-formed samples are finite
    numbers. *)
Lemma window_latencies (values : list (option float)) :
  window_ok values ->
  exists qs : list Q, latencies_of values = map Finite qs.
Proof.
  induction 1 as [ | v values Hv _ [qs IH]].
  - now exists [].
  - destruct v as [[x | | | ] | ]; cbn in Hv; try contradiction.
    + exists (x :: qs). cbn. now rewrite <- IH.
    + now exists qs.
Qed.

Lemma fl_max2_finite (a b : Q) :
  fl_max2 (Finite a) (Finite b) = Finite (py_max2 a b).
Proof. unfold fl_max2, py_max2. cbn [fl_gt]. now destruct (py_gt b a). Qed.

Lemma fold_fl_max2_finite (xs : list Q) (x : Q) :
  fold_left fl_max2 (map Finite xs) (Finite x)
  = Finite (fold_left py_max2 xs x).
Proof.
  revert x. induction xs as [ | y xs IH]; intros x; cbn [map fold_left].
  - reflexivity.
  - now rewrite fl_max2_finite, IH.
Qed.

Lemma latency_max_val_spec (values : list (option float)) :
  window_ok values ->
  exists max_val : Q,
    latency_max_val values = Ok (Finite max_val) /\
    5 <= max_val /\
    (forall x, In (Some (Finite x)) values -> x <= max_val) /\
    (max_val = 5 \/ In (Some (Finite max_val)) values) /\
    (latencies_of values = [] -> max_val = 5).
Proof.
  intros Hok. destruct (window_latencies values Hok) as [qs E].
  assert (M : forall x, In (Some (Finite x)) values <-> In x qs).
  { intros x. rewrite <- in_latencies_of, E, in_map_iff. split.
    - now intros [y [[= ->] Hy]].
    - intros Hx. now exists x. }
  unfold latency_max_val. rewrite E.
  destruct qs as [ | x xs]; cbn [map bind py_max].
  - exists (py_max2 1 5). split; [ now rewrite fl_max2_finite | ].
    split; [ discriminate | ]. split.
    + intros x Hx. apply M in Hx. destruct Hx.
    + split; [ now left | reflexivity ].
  - destruct (fold_py_max2_spec xs x) as [G [U W]].
    rewrite fold_fl_max2_finite, fl_max2_finite.
    set (m := fold_left py_max2 xs x) in *.
    exists (py_max2 m 5). split; [ reflexivity | ].
    pose proof (py_max2_ge_l m 5). pose proof (py_max2_ge_r m 5).
    split; [ assumption | ]. split; [ | split; [ | discriminate ] ].
    + intros y Hy. apply M in Hy.
      destruct Hy as [<- | Hy]; [ lra | ]. specialize (U y Hy). lra.
    + destruct (py_max2_cases m 5) as [[-> _] | [-> _]]; [ | now left ].
      right. apply M.
      destruct W as [-> | W]; [ now left | now right ].
Qed.

Lemma latency_loop (max_val : Q) :
  0 < max_val ->
  forall (values : list (option float)) (acc : Text),
    window_ok values ->
    (forall x, In (Some (Finite x)) values -> x <= RATIO_LIMIT * max_val) ->
    exists cells : Text,
      for_each
        (fun spark v =>
           match v with
           | None => Ok (Text_append spark DROP_CHAR "bold red")
           | Some v =>
               idx <- spark_idx v (Finite max_val) ;;
               char <- py_index SPARK_CHARS idx ;;
               if fl_gt v (Finite (inject_Z HIGH_LATENCY_MS))
               then Ok (Text_append spark [char] "yellow")
               else Ok (Text_append spark [char] "cyan")
           end)
        values acc = Ok (acc ++ cells) /\
      Forall2 (latency_cell max_val) values cells.
Proof.
  intros Hpos values. induction values as [ | v values IH]; intros acc Hok Hmax.
  - exists []. cbn. rewrite app_nil_r. split; [ reflexivity | constructor ].
  - inversion Hok as [ | v' vs' Hv Hvs]; subst. cbn [for_each].
    assert (Hmax' : forall x, In (Some (Finite x)) values ->
                              x <= RATIO_LIMIT * max_val)
      by (intros x Hx; apply Hmax; now right).
    destruct v as [[x | | | ] | ]; cbn in Hv; try contradiction.
    + destruct (spark_idx_range max_val Hpos x Hv (Hmax x (or_introl eq_refl)))
        as [idx [E R]].
      destruct (ramp_index idx R) as [glyph [G N]].
      rewrite E. cbn [bind]. rewrite G. cbn [bind fl_gt].
      set (sty := if py_gt x (inject_Z HIGH_LATENCY_MS)
                  then "yellow" else "cyan").
      destruct (IH (Text_append acc [glyph] sty) Hvs Hmax') as [cells [L F]].
      exists ((glyph, sty) :: cells). split.
      * unfold sty in *. destruct (py_gt x (inject_Z HIGH_LATENCY_MS));
          cbn [bind]; rewrite L, Text_append_one;
          now rewrite <- app_assoc.
      * constructor; [ | exact F ]. exists idx, glyph. auto.
    + destruct (IH (Text_append acc DROP_CHAR "bold red") Hvs Hmax')
        as [cells [L F]].
      exists (drop_cell :: cells). split.
      * cbn [bind]. rewrite L. unfold DROP_CHAR. rewrite Text_append_one.
        fold drop_cell. now rewrite <- app_assoc.
      * constructor; [ reflexivity | exact F ].
Qed.

Lemma pad_front (w : Z) (n : nat) (spark : Text) :
  (if (0 <? w - Z.of_nat n)%Z
   then Ok (Text_add (Text_of (repeat 32%N (Z.to_nat (w - Z.of_nat n)))) spark)
   else Ok spark)
  = Ok (padding w n ++ spark).
Proof.
  unfold padding, Text_add.
  destruct (Z.ltb_spec 0 (w - Z.of_nat n)) as [H | H]; [ reflexivity | ].
  replace (Z.to_nat (w - Z.of_nat n)) with 0%nat by lia. reflexivity.
Qed.

Lemma within_limit (max_val x : Q) :
  0 < max_val -> x <= max_val -> x <= RATIO_LIMIT * max_val.
Proof.
  intros Hpos Hx. destruct ratio_limit_facts as [_ [_ [_ [_ [_ [G _]]]]]].
  apply Qle_trans with (1 * max_val); [ lra | ].
  apply Qmult_le_compat_r; [ exact G | lra ].
Qed.

(** The latency sparkline of a window of well-formed samples. *)
Lemma build_sparkline_spec (history : deque (option float)) :
  window_ok (deque_list history) ->
  exists (max_val : Q) (spark : Text),
    latency_max_val (deque_list history) = Ok (Finite max_val) /\
    build_sparkline history
    = Ok (padding HISTORY_SIZE (length (deque_list history)) ++ spark) /\
    Forall2 (latency_cell max_val) (deque_list history) spark.
Proof.
  intros Hok. unfold build_sparkline.
  destruct (latency_max_val_spec (deque_list history) Hok)
    as [m [E [G [U _]]]].
  assert (Hpos : 0 < m) by lra.
  destruct (latency_loop m Hpos (deque_list history) Text_new Hok)
    as [cells [L F]].
  { intros x Hx. apply within_limit; [ exact Hpos | now apply U ]. }
  exists m, cells. split; [ exact E | ]. split; [ | exact F ].
  rewrite E. cbn [bind]. rewrite L. cbn [bind app Text_new].
  apply pad_front.
Qed.

(** The quotient of a sample of a vitals window, as the renderer takes it
    to choose the colour. *)
Lemma vitals_ratio (max_val v : Q) :
  0 < max_val ->
  - (RATIO_LIMIT * max_val) <= v -> v <= RATIO_LIMIT * max_val ->
  (if py_gt max_val 0 then fl_div (Finite v) (Finite max_val)
   else Ok (Finite 0))
  = Ok (Finite (round64 (v / max_val))).
Proof.
  intros Hpos Lo Hi.
  assert (P : py_gt max_val 0 = true) by now apply py_gt_true.
  rewrite P, (fl_div_pos max_val Hpos).
  destruct (ratio_finite max_val Hpos v Lo Hi) as [-> _].
  reflexivity.
Qed.

Lemma vitals_loop (max_val : Q) :
  0 < max_val ->
  forall (values : list Q) (acc : Text),
    vitals_window_ok max_val values ->
    exists cells : Text,
      for_each
        (fun spark v =>
           idx <- spark_idx (Finite v) (Finite max_val) ;;
           char <- py_index SPARK_CHARS idx ;;
           ratio <- (if py_gt max_val 0
                     then fl_div (Finite v) (Finite max_val)
                     else Ok (Finite 0)) ;;
           if fl_gt ratio (Finite (float_lit (8 # 10)))
           then Ok (Text_append spark [char] "red")
           else if fl_gt ratio (Finite (float_lit (6 # 10)))
           then Ok (Text_append spark [char] "yellow")
           else Ok (Text_append spark [char] "cyan"))
        values acc = Ok (acc ++ cells) /\
      Forall2 (vitals_cell max_val) values cells.
Proof.
  intros Hpos values.
  match goal with |- context [for_each ?f _ _] => set (body := f) end.
  induction values as [ | v values IH]; intros acc Hok.
  - exists []. cbn. rewrite app_nil_r. split; [ reflexivity | constructor ].
  - inversion Hok as [ | v' vs' Hv Hvs]; subst. cbn [for_each].
    destruct (spark_idx_range max_val Hpos v (proj1 Hv) (proj2 Hv))
      as [idx [E R]].
    destruct (ramp_index idx R) as [glyph [G N]].
    assert (B : exists sty : style,
               body acc v = Ok (Text_append acc [glyph] sty)).
    { unfold body. rewrite E. cbn [bind]. rewrite G. cbn [bind].
      rewrite (vitals_ratio max_val v Hpos
                 (below_limit max_val Hpos v (proj1 Hv)) (proj2 Hv)).
      cbn [bind fl_gt].
      destruct (py_gt (round64 (v / max_val)) (float_lit (8 # 10)));
        [ | destruct (py_gt (round64 (v / max_val)) (float_lit (6 # 10))) ];
        eexists; reflexivity. }
    destruct B as [sty B]. rewrite B. cbn [bind].
    destruct (IH (Text_append acc [glyph] sty) Hvs) as [cells [L F]].
    exists ((glyph, sty) :: cells). split.
    + rewrite L, Text_append_one. now rewrite <- app_assoc.
    + constructor; [ | exact F ]. exists idx, glyph. auto.
Qed.

Lemma vitals_scale_pos (session_max : Q) : 0 < py_max2 session_max 1.
Proof. pose proof (py_max2_ge_r session_max 1). lra. Qed.

(** The vitals sparkline of a window of samples within the range of its
    scale. *)
Lemma build_vitals_sparkline_spec (history : deque Q) (session_max : Q) :
  vitals_window_ok (py_max2 session_max 1) (deque_list history) ->
  exists spark : Text,
    build_vitals_sparkline history session_max
    = Ok (padding VITALS_SPARK_SIZE (length (deque_list history)) ++ spark) /\
    Forall2 (vitals_cell (py_max2 session_max 1)) (deque_list history) spark.
Proof.
  intros Hok. unfold build_vitals_sparkline.
  destruct (vitals_loop _ (vitals_scale_pos session_max)
                        (deque_list history) Text_new Hok)
    as [cells [L F]].
  exists cells. split; [ | exact F ].
  rewrite L. cbn [bind app Text_new]. apply pad_front.
Qed.

(** A loop whose body appends one cell per sample returns, when it does,
    one cell per sample. *)
Lemma for_each_cells {A : Type} (body : Text -> A -> result Text) :
  (forall (acc acc' : Text) (v : A),
     body acc v = Ok acc' -> exists cell, acc' = acc ++ [cell]) ->
  forall (values : list A) (acc res : Text),
    for_each body values acc = Ok res ->
    exists cells : Text, res = acc ++ cells /\ length cells = length values.
Proof.
  intros Step values.
  induction values as [ | v values IH]; intros acc res H; cbn [for_each] in H.
  - injection H as <-. exists []. now rewrite app_nil_r.
  - bind_inv H. destruct (Step _ _ _ Ha) as [cell ->].
    destruct (IH _ _ H) as [cells [-> L]].
    exists (cell :: cells). rewrite <- app_assoc. cbn [app length].
    now rewrite L.
Qed.

Lemma build_sparkline_shape (history : deque (option float)) (spark : Text) :
  build_sparkline history = Ok spark ->
  exists glyphs : Text,
    spark = padding HISTORY_SIZE (length (deque_list history)) ++ glyphs /\
    length glyphs = length (deque_list history).
Proof.
  unfold build_sparkline. intros H. bind_inv H. bind_inv H.
  rewrite pad_front in H. injection H as <-.
  apply for_each_cells in Ha0 as [cells [-> L]].
  - now exists cells.
  - intros acc acc' [v | ] B.
    + bind_inv B. bind_inv B.
      destruct (fl_gt v _); injection B as <-; eexists; apply Text_append_one.
    + injection B as <-. eexists. apply Text_append_one.
Qed.

Lemma build_vitals_sparkline_shape
      (history : deque Q) (session_max : Q) (spark : Text) :
  build_vitals_sparkline history session_max = Ok spark ->
  exists glyphs : Text,
    spark = padding VITALS_SPARK_SIZE (length (deque_list history)) ++ glyphs /\
    length glyphs = length (deque_list history).
Proof.
  unfold build_vitals_sparkline. intros H. bind_inv H.
  rewrite pad_front in H. injection H as <-.
  apply for_each_cells in Ha as [cells [-> L]].
  - now exists cells.
  - intros acc acc' v B. bind_inv B. bind_inv B. bind_inv B.
    destruct (fl_gt _ _); [ | destruct (fl_gt _ _) ];
      injection B as <-; eexists; apply Text_append_one.
Qed.

Lemma Forall2_nth_error {A B : Type} (R : A -> B -> Prop)
      (xs : list A) (ys : list B) :
  Forall2 R xs ys ->
  forall (i : nat) (x : A),
    nth_error xs i = Some x -> exists y, nth_error ys i = Some y /\ R x y.
Proof.
  induction 1 as [ | x y xs ys Hxy F IH]; intros i a Hi.
  - destruct i; discriminate Hi.
  - destruct i as [ | i]; cbn in *.
    + injection Hi as <-. eauto.
    + eauto.
Qed.

Lemma Forall2_length_eq {A B : Type} (R : A -> B -> Prop)
      (xs : list A) (ys : list B) :
  Forall2 R xs ys -> length ys = length xs.
Proof. induction 1; cbn; congruence. Qed.

Lemma padding_length (w : Z) (n : nat) :
  length (padding w n) = Z.to_nat (w - Z.of_nat n).
Proof. unfold padding, Text_of. now rewrite length_map, repeat_length. Qed.

Lemma padding_nat (w n : nat) :
  padding (Z.of_nat w) n = Text_of (repeat 32%N (w - n)).
Proof. unfold padding. do 2 f_equal. lia. Qed.

End Sparklines.

(** C4. The latency sparkline of a window of well-formed samples is drawn
    under the scale [max(maximum of the non-dropped samples, 5.0)], taken
    from the window alone.  After the padding it has one cell per sample,
    in order: a dropped sample is the drop glyph in bold red, and the drop
    glyph is not a glyph of the ramp; a non-dropped sample is the ramp
    glyph of its quantised value, yellow when the sample is strictly above
    100 ms and cyan otherwise. *)
Theorem latency_sparkline_scale_and_colors (history : deque (option float)) :
  window_ok (deque_list history) ->
  exists (max_val : Q) (spark : Text),
    latency_max_val (deque_list history) = Ok (Finite max_val) /\
    (5 <= max_val /\
     (forall x : Q, In (Some (Finite x)) (deque_list history) -> x <= max_val) /\
     (max_val = 5 \/ In (Some (Finite max_val)) (deque_list history))) /\
    build_sparkline history
    = Ok (padding 30 (length (deque_list history)) ++ spark) /\
    length spark = length (deque_list history) /\
    (forall i : nat,
       nth_error (deque_list history) i = Some None ->
       nth_error spark i = Some (9617%N, "bold red")) /\
    ~ In 9617%N SPARK_CHARS /\
    (forall (i : nat) (x : Q),
       nth_error (deque_list history) i = Some (Some (Finite x)) ->
       exists (idx : Z) (glyph : char) (sty : style),
         spark_idx (Finite x) (Finite max_val) = Ok idx /\
         nth_error SPARK_CHARS (Z.to_nat idx) = Some glyph /\
         nth_error spark i = Some (glyph, sty) /\
         (100 < x -> sty = "yellow") /\
         (x <= 100 -> sty = "cyan")).
Proof.
  intros Hok.
  destruct (build_sparkline_spec history Hok) as [m [spark [E [B F]]]].
  destruct (latency_max_val_spec (deque_list history) Hok)
    as [m' [E' [G [U [W _]]]]].
  rewrite E in E'. injection E' as <-.
  exists m, spark.
  split; [ exact E | ]. split; [ auto | ]. split; [ exact B | ].
  split; [ exact (Forall2_length_eq _ _ _ F) | ]. split; [ | split ].
  - intros i Hi.
    destruct (Forall2_nth_error _ _ _ F i None Hi) as [cell [N C]].
    cbn in C. now subst cell.
  - cbn. intros H. repeat (destruct H as [H | H]; [ discriminate H | ]).
    exact H.
  - intros i x Hi.
    destruct (Forall2_nth_error _ _ _ F i (Some (Finite x)) Hi)
      as [cell [N [idx [glyph [S [_ [R C]]]]]]].
    subst cell. eexists idx, glyph, _.
    split; [ exact S | ]. split; [ exact R | ]. split; [ exact N | ].
    change (inject_Z HIGH_LATENCY_MS) with 100.
    split; intros H.
    + apply py_gt_true in H. now rewrite H.
    + apply py_gt_false in H. now rewrite H.
Qed.

Lemma latency_sparkline_scale_and_colors_witness :
  exists (max_val : Q) (spark : Text),
    latency_max_val [rtt 20; None; rtt 120] = Ok (Finite max_val) /\
    (5 <= max_val /\
     (forall x : Q, In (Some (Finite x)) [rtt 20; None; rtt 120] ->
                    x <= max_val) /\
     (max_val = 5 \/ In (Some (Finite max_val)) [rtt 20; None; rtt 120])) /\
    build_sparkline (window_of [rtt 20; None; rtt 120])
    = Ok (padding 30 3 ++ spark) /\
    length spark = 3%nat /\
    (forall i : nat,
       nth_error [rtt 20; None; rtt 120] i = Some None ->
       nth_error spark i = Some (9617%N, "bold red")) /\
    ~ In 9617%N SPARK_CHARS /\
    (forall (i : nat) (x : Q),
       nth_error [rtt 20; None; rtt 120] i = Some (Some (Finite x)) ->
       exists (idx : Z) (glyph : char) (sty : style),
         spark_idx (Finite x) (Finite max_val) = Ok idx /\
         nth_error SPARK_CHARS (Z.to_nat idx) = Some glyph /\
         nth_error spark i = Some (glyph, sty) /\
         (100 < x -> sty = "yellow") /\
         (x <= 100 -> sty = "cyan")).
Proof.
  apply (latency_sparkline_scale_and_colors
           (window_of [rtt 20; None; rtt 120])).
  repeat constructor; discriminate.
Defined.

(** C5. At every fill level up to the capacity, a rendered sparkline is
    exactly as wide as its display, 30 cells for the latency and 10 for the
    vitals: blank cells come first and the glyphs of the samples, one per
    sample and in order, fill the right edge.  The renderers return on every
    window of well-formed samples (for the vitals: samples that are not
    negative and within the range of the scale), and whatever the samples,
    a sparkline that is returned has that shape. *)
Theorem sparkline_fills_fixed_width :
  (forall history : deque (option float),
     window_ok (deque_list history) ->
     (length (deque_list history) <= 30)%nat ->
     exists (max_val : Q) (glyphs : Text),
       build_sparkline history
       = Ok (Text_of (repeat 32%N (30 - length (deque_list history))) ++ glyphs) /\
       latency_max_val (deque_list history) = Ok (Finite max_val) /\
       Forall2 (latency_cell max_val) (deque_list history) glyphs /\
       length glyphs = length (deque_list history) /\
       length (Text_of (repeat 32%N (30 - length (deque_list history))) ++ glyphs)
       = 30%nat) /\
  (forall (history : deque Q) (session_max : Q),
     vitals_window_ok (py_max2 session_max 1) (deque_list history) ->
     (length (deque_list history) <= 10)%nat ->
     exists glyphs : Text,
       build_vitals_sparkline history session_max
       = Ok (Text_of (repeat 32%N (10 - length (deque_list history))) ++ glyphs) /\
       Forall2 (vitals_cell (py_max2 session_max 1)) (deque_list history) glyphs /\
       length glyphs = length (deque_list history) /\
       length (Text_of (repeat 32%N (10 - length (deque_list history))) ++ glyphs)
       = 10%nat) /\
  (forall (history : deque (option float)) (spark : Text),
     build_sparkline history = Ok spark ->
     (length (deque_list history) <= 30)%nat ->
     exists glyphs : Text,
       spark
       = Text_of (repeat 32%N (30 - length (deque_list history))) ++ glyphs /\
       length glyphs = length (deque_list history) /\
       length spark = 30%nat) /\
  (forall (history : deque Q) (session_max : Q) (spark : Text),
     build_vitals_sparkline history session_max = Ok spark ->
     (length (deque_list history) <= 10)%nat ->
     exists glyphs : Text,
       spark
       = Text_of (repeat 32%N (10 - length (deque_list history))) ++ glyphs /\
       length glyphs = length (deque_list history) /\
       length spark = 10%nat).
Proof.
  split; [ | split; [ | split ] ].
  - intros history Hok Hlen.
    destruct (build_sparkline_spec history Hok) as [m [spark [E [B F]]]].
    pose proof (Forall2_length_eq _ _ _ F) as L.
    exists m, spark. change HISTORY_SIZE with (Z.of_nat 30) in B.
    rewrite padding_nat in B.
    split; [ exact B | ]. split; [ exact E | ]. split; [ exact F | ].
    split; [ exact L | ].
    unfold Text_of. rewrite length_app, length_map, repeat_length. lia.
  - intros history session_max Hok Hlen.
    destruct (build_vitals_sparkline_spec history session_max Hok)
      as [spark [B F]].
    pose proof (Forall2_length_eq _ _ _ F) as L.
    exists spark. change VITALS_SPARK_SIZE with (Z.of_nat 10) in B.
    rewrite padding_nat in B.
    split; [ exact B | ]. split; [ exact F | ]. split; [ exact L | ].
    unfold Text_of. rewrite length_app, length_map, repeat_length. lia.
  - intros history spark B Hlen.
    destruct (build_sparkline_shape history spark B) as [glyphs [-> L]].
    exists glyphs. change HISTORY_SIZE with (Z.of_nat 30).
    rewrite padding_nat. split; [ reflexivity | ]. split; [ exact L | ].
    unfold Text_of. rewrite length_app, length_map, repeat_length. lia.
  - intros history session_max spark B Hlen.
    destruct (build_vitals_sparkline_shape history session_max spark B)
      as [glyphs [-> L]].
    exists glyphs. change VITALS_SPARK_SIZE with (Z.of_nat 10).
    rewrite padding_nat. split; [ reflexivity | ]. split; [ exact L | ].
    unfold Text_of. rewrite length_app, length_map, repeat_length. lia.
Qed.

Lemma sparkline_fills_fixed_width_witness :
  (exists glyphs : Text,
     build_sparkline (window_of [rtt 20; None])
     = Ok (Text_of (repeat 32%N 28) ++ glyphs) /\
     length glyphs = 2%nat) /\
  (exists glyphs : Text,
     build_vitals_sparkline (vitals_window_of [12; 95; 40]) 100
     = Ok (Text_of (repeat 32%N 7) ++ glyphs) /\
     length glyphs = 3%nat).
Proof.
  destruct sparkline_fills_fixed_width as [L [V _]]. split.
  - destruct (L (window_of [rtt 20; None])) as [m [g [B [_ [_ [Lg _]]]]]].
    + repeat constructor. discriminate.
    + vm_compute. lia.
    + exists g. split; [ exact B | exact Lg ].
  - destruct (V (vitals_window_of [12; 95; 40]) 100) as [g [B [_ [Lg _]]]].
    + repeat constructor; vm_compute; discriminate.
    + vm_compute. lia.
    + exists g. split; [ exact B | exact Lg ].
Defined.

(** C10. On a window without a non-dropped sample, empty or all dropped, the
    latency renderer returns: the scale is 5.0, the maximum of the empty
    list, which would raise, is not taken, and the result is the padding
    followed by one drop cell per sample. *)
Theorem sparkline_of_dropped_window (history : deque (option float)) :
  latencies_of (deque_list history) = [] ->
  py_max [] = Raise ValueError /\
  latency_max_val (deque_list history) = Ok (Finite 5) /\
  build_sparkline history
  = Ok (padding 30 (length (deque_list history)) ++
        repeat (9617%N, "bold red") (length (deque_list history))).
Proof.
  intros Hnone. split; [ reflexivity | ].
  pose proof (latencies_of_nil _ Hnone) as Hall.
  assert (Hok : window_ok (deque_list history)).
  { unfold window_ok. revert Hall. apply Forall_impl. now intros v ->. }
  destruct (build_sparkline_spec history Hok) as [m [spark [E [B F]]]].
  destruct (latency_max_val_spec (deque_list history) Hok)
    as [m' [E' [_ [_ [_ Z]]]]].
  rewrite E in E'. injection E' as <-. rewrite (Z Hnone) in E.
  split; [ exact E | ]. rewrite B. do 2 f_equal.
  clear B E Hok Hnone Z. induction F as [ | v cell vs cells Hc F IH].
  - reflexivity.
  - inversion Hall as [ | v' vs' Hv Hvs]; subst. cbn in Hc. subst cell.
    cbn [length repeat]. f_equal. exact (IH Hvs).
Qed.

Lemma sparkline_of_dropped_window_witness :
  build_sparkline (deque_new 30) = Ok (Text_of (repeat 32%N 30)) /\
  build_sparkline (window_of [None; None])
  = Ok (Text_of (repeat 32%N 28) ++ repeat (9617%N, "bold red") 2).
Proof.
  split.
  - destruct (sparkline_of_dropped_window (deque_new 30) eq_refl)
      as [_ [_ B]].
    rewrite B. cbn. now rewrite app_nil_r.
  - destruct (sparkline_of_dropped_window (window_of [None; None]) eq_refl)
      as [_ [_ B]].
    exact B.
Defined.

(* ------------------------------------------------------------------ *)
(** ** The panel *)

Section Panels.

Lemma count_drops_from (values : list (option float)) (n : Z) :
  fold_left (fun n v => match v with None => (n + 1)%Z | Some _ => n end)
            values n
  = (n + Z.of_nat (drop_count values))%Z.
Proof.
  revert n. induction values as [ | [x | ] values IH]; intros n;
    cbn [fold_left].
  - cbn. lia.
  - rewrite IH. reflexivity.
  - rewrite IH. unfold drop_count. cbn [filter is_dropped length]. lia.
Qed.

Lemma count_drops_spec (values : list (option float)) :
  count_drops values = Z.of_nat (drop_count values).
Proof. unfold count_drops. now rewrite count_drops_from. Qed.

Lemma drop_count_pos (values : list (option float)) :
  (0 < drop_count values)%nat <-> In None values.
Proof.
  unfold drop_count. induction values as [ | [x | ] values IH];
    cbn [filter is_dropped length In].
  - split; [ lia | tauto ].
  - rewrite IH. split; [ tauto | intros [H | H]; [ discriminate H | exact H ] ].
  - split; [ now left | lia ].
Qed.

Lemma alert_spec (values : list (option float)) :
  (0 <? count_drops values)%Z = true <-> In None values.
Proof.
  rewrite count_drops_spec, <- drop_count_pos, Z.ltb_lt. lia.
Qed.

(** The text of a panel, part by part. *)
Lemma build_panel_spec (host : str) (history : deque (option float))
      (vitals_line : option Text) :
  window_ok (deque_list history) ->
  exists spark : Text,
    build_sparkline history = Ok spark /\
    build_panel host history vitals_line
    = Ok (mk_Panel
            (panel_status (deque_list history) ++
             panel_latest (deque_list history) ++
             spark ++ Text_of (lit "   ") ++
             panel_phrase (deque_list history) ++
             vitals_part vitals_line)
            host "left"
            (if (0 <? count_drops (deque_list history))%Z
             then "red" else "green")
            58).
Proof.
  intros Hok.
  destruct (build_sparkline_spec history Hok) as [m [cells [_ [B _]]]].
  eexists. split; [ exact B | ].
  unfold build_panel. rewrite B. cbn [bind]. f_equal. f_equal.
  unfold panel_status, panel_latest, panel_phrase, vitals_part, timeout_text.
  set (values := deque_list history).
  set (spark := padding HISTORY_SIZE (length values) ++ cells).
  destruct (0 <? count_drops values)%Z;
    destruct (match values with [] => None | _ :: _ => last values None end);
    destruct (count_drops values =? 1)%Z;
    destruct (0 <? Z.of_nat (length values))%Z;
    destruct vitals_line;
    unfold Text_append, Text_append_text, Text_new, Text_of, no_style;
    cbn [app]; rewrite <- ?app_assoc, ?app_nil_r; reflexivity.
Qed.

Lemma ljust_length (w : nat) (s : str) : (w <= length (ljust w s))%nat.
Proof. unfold ljust. rewrite length_app, repeat_length. lia. Qed.

Lemma panel_status_length (values : list (option float)) :
  length (panel_status values) = 3%nat.
Proof. unfold panel_status. now destruct (0 <? count_drops values)%Z. Qed.

(** The field of the latest reading holds the placeholder exactly when the
    window gives no reading. *)
Lemma panel_latest_timeout (values : list (option float)) (rest : Text) :
  firstn 9 (panel_latest values ++ rest) = timeout_text <->
  match values with [] => None | _ :: _ => last values None end = None.
Proof.
  unfold panel_latest.
  destruct (match values with [] => None | _ :: _ => last values None end)
    as [latest | ].
  - split; [ | discriminate ]. intros H. exfalso.
    set (sty := if fl_gt latest (Finite (inject_Z HIGH_LATENCY_MS))
                then "bold yellow" else "bold green") in H.
    pose proof (ljust_length 9 (fl_format_f 1 latest ++ lit "ms")) as L.
    unfold Text_append, Text_new in H. cbn [app] in H.
    destruct (ljust 9 (fl_format_f 1 latest ++ lit "ms")) as [ | c cs];
      [ cbn in L; lia | ].
    cbn in H. injection H as _ Hs _.
    unfold sty in Hs.
    destruct (fl_gt latest (Finite (inject_Z HIGH_LATENCY_MS)));
      discriminate Hs.
  - split; [ reflexivity | ]. intros _. reflexivity.
Qed.

Lemma last_is_dropped (values : list (option float)) :
  match values with [] => None | _ :: _ => last values None end = None <->
  values = [] \/ exists older, values = older ++ [None].
Proof.
  destruct values as [ | v values]; [ split; auto | ].
  destruct (exists_last (l := v :: values)) as [older [x E]];
    [ discriminate | ].
  rewrite E, last_last. split.
  - intros ->. right. now exists older.
  - intros [H | [older' H]].
    + destruct older; discriminate H.
    + apply app_inj_tail in H as [_ H]. exact H.
Qed.

End Panels.

Section PanelParts.

Lemma firstn_exact {A : Type} (n : nat) (a b : list A) :
  length a = n -> firstn n (a ++ b) = a.
Proof.
  intros <-. rewrite firstn_app, Nat.sub_diag, firstn_all. cbn.
  apply app_nil_r.
Qed.

Lemma skipn_exact {A : Type} (n : nat) (a b : list A) :
  length a = n -> skipn n (a ++ b) = b.
Proof.
  intros <-. rewrite skipn_app, Nat.sub_diag, skipn_all. reflexivity.
Qed.

Lemma panel_status_alert (values : list (option float)) :
  (panel_status values = Text_append Text_new [32; 9888; 32]%N "bold yellow"
   <-> In None values) /\
  (panel_status values = Text_append Text_new [32; 9679; 32]%N "bold green"
   <-> ~ In None values).
Proof.
  unfold panel_status. pose proof (alert_spec values) as A.
  destruct (0 <? count_drops values)%Z; split; split; intros H;
    try reflexivity; try discriminate H.
  - now apply A.
  - exfalso. apply H. now apply A.
  - apply A in H. discriminate H.
  - intros N. apply A in N. discriminate N.
Qed.

Lemma panel_phrase_cases (values : list (option float)) :
  (values = [] ->
   panel_phrase values = Text_append Text_new (lit "waiting") "dim") /\
  (values <> [] -> drop_count values = 0%nat ->
   panel_phrase values = Text_append Text_new (lit "0% loss") "dim green") /\
  (drop_count values = 1%nat ->
   panel_phrase values
   = Text_append Text_new (lit "1 drop!" ++ lit " ") "bold red") /\
  ((2 <= drop_count values)%nat ->
   panel_phrase values
   = Text_append Text_new
       (str_of_N (N.of_nat (drop_count values)) ++ lit " drops!") "bold red").
Proof.
  unfold panel_phrase. rewrite count_drops_spec.
  repeat split.
  - intros ->. reflexivity.
  - intros NE ->. cbn [Z.of_nat Z.ltb Z.compare].
    destruct values; [ congruence | reflexivity ].
  - intros ->. reflexivity.
  - intros H.
    destruct (Z.ltb_spec 0 (Z.of_nat (drop_count values))); [ | lia ].
    destruct (Z.eqb_spec (Z.of_nat (drop_count values)) 1); [ lia | ].
    now rewrite <- nat_N_Z, N2Z.id.
Qed.

End PanelParts.

(** C6, for every window the panel can be built from.  The status glyph is
    the warning glyph, and the border is red, exactly when the window holds
    a dropped sample; otherwise the glyph is the normal one and the border
    green.  The field of the latest reading holds the [timeout] placeholder
    exactly when the window is empty or its most recent sample is dropped;
    when the most recent sample is a round-trip time the field holds that
    number, whatever the border. *)
Theorem panel_alert_border_and_latest
        (host : str) (history : deque (option float)) (vitals_line : option Text) :
  window_ok (deque_list history) ->
  exists p : Panel,
    build_panel host history vitals_line = Ok p /\
    title p = host /\
    (status_glyph p = Text_append Text_new [32; 9888; 32]%N "bold yellow"
     <-> In None (deque_list history)) /\
    (status_glyph p = Text_append Text_new [32; 9679; 32]%N "bold green"
     <-> ~ In None (deque_list history)) /\
    (border_style p = "red" <-> In None (deque_list history)) /\
    (border_style p = "green" <-> ~ In None (deque_list history)) /\
    (latest_field p = timeout_text <->
     deque_list history = [] \/
     exists older, deque_list history = older ++ [None]) /\
    (forall (older : list (option float)) (x : Q),
       deque_list history = older ++ [Some (Finite x)] ->
       latest_field p
       = firstn 9 (Text_append Text_new (ljust 9 (format_f 1 x ++ lit "ms"))
                               (if py_gt x 100
                                then "bold yellow" else "bold green"))).
Proof.
  intros Hok.
  destruct (build_panel_spec host history vitals_line Hok) as [spark [_ B]].
  eexists. split; [ exact B | ]. split; [ reflexivity | ].
  set (values := deque_list history) in *.
  unfold status_glyph, latest_field. cbn [renderable border_style].
  rewrite (firstn_exact 3) by apply panel_status_length.
  rewrite (skipn_exact 3) by apply panel_status_length.
  destruct (panel_status_alert values) as [SA SN].
  pose proof (alert_spec values) as A.
  split; [ exact SA | ]. split; [ exact SN | ]. split; [ | split; [ | split ] ].
  - destruct (0 <? count_drops values)%Z; split; intros H;
      try reflexivity; try discriminate H.
    + now apply A.
    + apply A in H. discriminate H.
  - destruct (0 <? count_drops values)%Z; split; intros H;
      try reflexivity; try discriminate H.
    + exfalso. apply H. now apply A.
    + intros N. apply A in N. discriminate N.
  - rewrite panel_latest_timeout. apply last_is_dropped.
  - intros older x E. unfold panel_latest. rewrite E.
    replace (match older ++ [Some (Finite x)] with
             | [] => None
             | _ :: _ => last (older ++ [Some (Finite x)]) None
             end) with (Some (Finite x))
      by (rewrite last_last; now destruct older).
    cbn [fl_format_f fl_gt].
    change (inject_Z HIGH_LATENCY_MS) with 100.
    rewrite firstn_app.
    replace (9 - length _)%nat with 0%nat.
    + cbn [firstn]. apply app_nil_r.
    + unfold Text_append, Text_new. cbn [app]. rewrite length_map.
      pose proof (ljust_length 9 (format_f 1 x ++ lit "ms")). lia.
Qed.

Lemma panel_alert_border_and_latest_witness :
  exists p : Panel,
    build_panel (lit "8.8.8.8") (window_of [None; rtt 20]) None = Ok p /\
    border_style p = "red" /\
    latest_field p = Text_append Text_new (lit "20.0ms   ") "bold green".
Proof.
  destruct (panel_alert_border_and_latest
              (lit "8.8.8.8") (window_of [None; rtt 20]) None)
    as [p [B [_ [_ [_ [R [_ [_ L]]]]]]]].
  - repeat constructor. discriminate.
  - exists p. split; [ exact B | ]. split.
    + apply R. now left.
    + rewrite (L [None] 20 eq_refl). vm_compute. reflexivity.
Defined.

(** C6 as stated fails on the empty window: the panel shows the [timeout]
    placeholder although the window has no most recent sample, dropped or
    not. *)
Lemma timeout_shown_on_empty_window :
  exists p : Panel,
    build_panel (lit "8.8.8.8") (deque_new 30) None = Ok p /\
    ~ (latest_field p = timeout_text <->
       exists older : list (option float),
         deque_list (deque_new 30) = older ++ [None]).
Proof.
  eexists. split; [ vm_compute; reflexivity | ].
  intros [H _]. destruct (H eq_refl) as [older E].
  destruct older; discriminate E.
Qed.

(** C7. The text of a panel ends, before the vitals part, with the latency
    sparkline, three blanks and the status phrase, and the phrase is
    determined by the window: [waiting] for the empty window, [0% loss] for
    a non-empty window without drops, the singular [1 drop!], followed by a
    blank that keeps the width, for one dropped sample, and [N drops!] with
    the number [N] of dropped samples for two or more. *)
Theorem status_phrase_of_window
        (host : str) (history : deque (option float)) (vitals_line : option Text) :
  window_ok (deque_list history) ->
  exists (p : Panel) (head spark phrase : Text),
    build_panel host history vitals_line = Ok p /\
    build_sparkline history = Ok spark /\
    renderable p
    = head ++ spark ++ Text_of (lit "   ") ++ phrase ++ vitals_part vitals_line /\
    (deque_list history = [] ->
     phrase = Text_append Text_new (lit "waiting") "dim") /\
    (deque_list history <> [] -> drop_count (deque_list history) = 0%nat ->
     phrase = Text_append Text_new (lit "0% loss") "dim green") /\
    (drop_count (deque_list history) = 1%nat ->
     phrase = Text_append Text_new (lit "1 drop!" ++ lit " ") "bold red") /\
    ((2 <= drop_count (deque_list history))%nat ->
     phrase
     = Text_append Text_new
         (str_of_N (N.of_nat (drop_count (deque_list history))) ++
          lit " drops!") "bold red").
Proof.
  intros Hok.
  destruct (build_panel_spec host history vitals_line Hok) as [spark [S B]].
  eexists _, (panel_status (deque_list history) ++
              panel_latest (deque_list history)),
          spark, (panel_phrase (deque_list history)).
  split; [ exact B | ]. split; [ exact S | ].
  split; [ cbn [renderable]; now rewrite <- app_assoc | ].
  apply panel_phrase_cases.
Qed.

Lemma status_phrase_of_window_witness :
  exists (p : Panel) (head spark : Text),
    build_panel (lit "8.8.8.8") (window_of [rtt 20; None; None]) None = Ok p /\
    renderable p
    = head ++ spark ++ Text_of (lit "   ") ++
      Text_append Text_new (lit "2 drops!") "bold red".
Proof.
  destruct (status_phrase_of_window
              (lit "8.8.8.8") (window_of [rtt 20; None; None]) None)
    as [p [head [spark [phrase [B [_ [R [_ [_ [_ P]]]]]]]]]].
  - repeat constructor. discriminate.
  - exists p, head, spark. split; [ exact B | ].
    rewrite R, (P (le_n 2)). cbn [vitals_part]. now rewrite app_nil_r.
Defined.

(* ================================================================== *)
(** * Further properties of the program *)

(* ------------------------------------------------------------------ *)
(** ** The loop keeps running *)

Section LoopRuns.

Variable host : str.

Lemma run_ping_returns (run : list str -> Q -> run_outcome) :
  (forall (args : list str) (t : Q) (ex : exn),
     run args t = Raises ex -> ex = TimeoutExpired \/ ex = OSError) ->
  (forall (args : list str) (t : Q) (out g : str),
     run args t = Completed out ->
     re_search_time out = Some g -> py_float g <> Ok PosInf) ->
  exists r : option float, run_ping run host = Ok r /\ sample_ok r.
Proof.
  intros Henv Hfin.
  destruct (run_ping_call run host) as [t [_ ->]].
  destruct (run _ t) as [out | ex] eqn:O.
  - destruct (re_search_time out) as [g | ] eqn:M.
    + destruct (re_search_time_float _ _ M) as [whole [frac [_ F]]].
      pose proof (Hfin _ _ _ _ O M) as NI. rewrite F in *. cbn [bind].
      pose proof (b64_nonneg _ (decimal_value_nonneg whole frac)) as P.
      eexists. split; [ reflexivity | ].
      destruct (b64 (decimal_value whole frac)); cbn in *;
        [ exact P | congruence | contradiction | contradiction ].
    + exists None. split; [ reflexivity | exact I ].
  - exists None. destruct (Henv _ _ _ O) as [-> | ->]; split; reflexivity || exact I.
Qed.

Lemma format_bytes_returns (n : Q) : exists s : str, format_bytes n = Ok s.
Proof.
  unfold format_bytes.
  destruct (py_ge n _); [ rewrite fdiv_const by reflexivity; eexists; reflexivity | ].
  destruct (py_ge n _); [ rewrite fdiv_const by reflexivity; eexists; reflexivity | ].
  destruct (py_ge n _); [ rewrite fdiv_const by reflexivity; eexists; reflexivity | ].
  eexists; reflexivity.
Qed.

Lemma deque_append_Forall {A : Type} (P : A -> Prop) (d : deque A) (x : A) :
  Forall P (items d) -> P x -> Forall P (items (deque_append d x)).
Proof.
  intros Hd Hx. unfold deque_append.
  assert (H : Forall P (items d ++ [x]))
    by (apply Forall_app; split; [ exact Hd | now constructor ]).
  destruct (_ <? _)%nat; cbn [items]; [ | exact H ].
  destruct (items d ++ [x]) as [ | y ys]; [ constructor | ].
  now inversion H.
Qed.

Lemma build_vitals_line_returns
      (cpu_pct : Q) (hist : deque Q) (top mem rd wr : Q) :
  vitals_window_ok (py_max2 top 1) (deque_list hist) ->
  exists line : Text, build_vitals_line cpu_pct hist top mem rd wr = Ok line.
Proof.
  intros Hok. unfold build_vitals_line.
  destruct (build_vitals_sparkline_spec hist top Hok) as [spark [B _]].
  rewrite B. cbn [bind].
  destruct (format_bytes_returns rd) as [r ->]. cbn [bind].
  destruct (format_bytes_returns wr) as [w ->]. cbn [bind].
  eexists. reflexivity.
Qed.

Lemma py_gt_nonzero (a : Q) : py_gt a 0 = true -> Qeq_bool a 0 = false.
Proof.
  intros H. apply py_gt_true in H.
  destruct (Qeq_bool a 0) eqn:E; [ | reflexivity ].
  apply Qeq_bool_iff in E. exfalso. lra.
Qed.

(** The difference of two 64-bit counters is converted without
    overflow. *)
Lemma float_of_int_counters (a b : Z) :
  (0 <= a < 2 ^ 64)%Z -> (0 <= b < 2 ^ 64)%Z ->
  float_of_int (a - b) = Ok (round53 (inject_Z (a - b))).
Proof.
  intros Ha Hb. unfold float_of_int.
  set (B := inject_Z (2 ^ 64)).
  assert (E1 : round53 B == B) by (vm_compute; reflexivity).
  assert (E2 : round53 (- B) == - B) by (vm_compute; reflexivity).
  assert (L : B < FLOAT_LIMIT) by reflexivity.
  assert (R1 : round53 (inject_Z (a - b)) <= B).
  { apply Qle_trans with (round53 B); [ | rewrite E1; apply Qle_refl ].
    apply round53_mono. unfold B. rewrite <- Zle_Qle. lia. }
  assert (R2 : - B <= round53 (inject_Z (a - b))).
  { apply Qle_trans with (round53 (- B)); [ rewrite E2; apply Qle_refl | ].
    apply round53_mono. unfold B.
    change (- inject_Z (2 ^ 64)) with (inject_Z (- 2 ^ 64)).
    rewrite <- Zle_Qle. lia. }
  destruct (Qle_bool FLOAT_LIMIT _) eqn:T1;
    [ apply Qle_bool_iff in T1; exfalso; lra | ].
  destruct (Qle_bool _ (- FLOAT_LIMIT)) eqn:T2;
    [ apply Qle_bool_iff in T2; exfalso; lra | ].
  reflexivity.
Qed.

Lemma answer_ok {A : Type} (e : tick_env) (c : call) (a : A) :
  call_raises e c = None -> answer e c a = Ok a.
Proof. unfold answer. now intros ->. Qed.

(** The loop sleeps for no time or for what is left of the interval. *)
Lemma sleep_returns (interval : float) (e : tick_env) (elapsed : Q) :
  interval_ok interval -> 0 <= elapsed -> call_raises e sleep = None ->
  time_sleep e (fl_max2 (Finite 0) (fl_sub interval (Finite elapsed)))
  = Ok tt.
Proof.
  intros Hi He Hs.
  assert (Z : time_sleep e (Finite 0) = Ok tt)
    by (unfold time_sleep; cbn; now apply answer_ok).
  destruct interval as [i | | | ]; cbn [interval_ok] in Hi;
    try contradiction; try exact Z.
  cbn [fl_sub].
  assert (E : round64 INTERVAL_LIMIT == INTERVAL_LIMIT)
    by (vm_compute; reflexivity).
  assert (L : INTERVAL_LIMIT < FLOAT_LIMIT) by reflexivity.
  assert (R : round64 (i - elapsed) <= INTERVAL_LIMIT)
    by (apply (round64_le _ _ E); lra).
  destruct (b64_cases (i - elapsed)) as [[-> _] | [[_ C] | [-> _]]];
    [ | exfalso; lra | exact Z ].
  rewrite fl_max2_finite. unfold time_sleep.
  assert (G : py_gt 0 (py_max2 0 (round64 (i - elapsed))) = false)
    by (apply py_gt_false, py_max2_ge_l).
  rewrite G. now apply answer_ok.
Qed.

(** An infinite interval cannot be slept for. *)
Lemma sleep_overflows (e : tick_env) (elapsed : Q) :
  time_sleep e (fl_max2 (Finite 0) (fl_sub PosInf (Finite elapsed)))
  = Raise OverflowError.
Proof. reflexivity. Qed.

(** One iteration in a well-formed state against well-formed answers, up to
    the sleep that ends it. *)
Lemma tick_to_sleep (s : session) (e : tick_env) :
  session_ok s -> env_ok e ->
  exists (s' : session) (p : Panel),
    session_ok s' /\
    forall interval : float,
      tick host interval s e
      = (_ <- time_sleep e
                (fl_max2 (Finite 0)
                   (fl_sub interval
                      (Finite (fsub (monotonic_sleep e) (monotonic_start e))))) ;;
         Ok (s', p)).
Proof.
  intros [Hh [Hc Hp]] [Hrun [Hfin [Hcall [Hcpu [Hio _]]]]].
  destruct (run_ping_returns (subprocess_run e) Hrun Hfin) as [latency [R Hl]].
  unfold tick. rewrite R. cbn [bind].
  rewrite !(answer_ok e _ _ (Hcall _)). cbn [bind].
  set (dt := fsub (monotonic_io e) (prev_time s)).
  set (top := py_max3 (cpu_max s) (cpu_percent e) 10).
  destruct (py_max3_spec (cpu_max s) (cpu_percent e) 10) as [T1 [T2 [T3 _]]].
  fold top in T1, T2, T3.
  assert (Hh' : window_ok (deque_list (deque_append (history s) latency)))
    by (apply deque_append_Forall; assumption).
  assert (Hc' : Forall (fun v => 0 <= v /\ v <= top)
                       (deque_list (deque_append (cpu_hist s) (cpu_percent e)))).
  { apply deque_append_Forall; [ | split; assumption ].
    revert Hc. apply Forall_impl. intros v [V0 V1]. split; [ exact V0 | lra ]. }
  assert (Hv : vitals_window_ok
                 (py_max2 top 1)
                 (deque_list (deque_append (cpu_hist s) (cpu_percent e)))).
  { revert Hc'. apply Forall_impl. intros v [V0 V1]. split; [ exact V0 | ].
    apply within_limit; [ apply vitals_scale_pos | ].
    pose proof (py_max2_ge_l top 1). lra. }
  assert (Rates :
            exists rw : Q * Q,
              match py_gt dt 0, disk_io_counters e, prev_io s with
              | true, Some cur, Some prev =>
                  dr <- float_of_int (read_bytes cur - read_bytes prev) ;;
                  r <- fdiv dr dt ;;
                  dw <- float_of_int (write_bytes cur - write_bytes prev) ;;
                  w <- fdiv dw dt ;;
                  Ok (r, w)
              | _, _, _ => Ok (0, 0)
              end = Ok rw).
  { destruct (py_gt dt 0) eqn:G; [ | eexists; reflexivity ].
    destruct (disk_io_counters e) as [cur | ]; [ | eexists; reflexivity ].
    destruct (prev_io s) as [prev | ]; [ | eexists; reflexivity ].
    destruct Hio as [Cr Cw]. destruct Hp as [Pr Pw].
    rewrite !float_of_int_counters by assumption. cbn [bind].
    rewrite !fdiv_const by now apply py_gt_nonzero.
    eexists. reflexivity. }
  destruct Rates as [[r w] ->]. cbn [bind fst snd].
  destruct (build_vitals_line_returns
              (cpu_percent e) (deque_append (cpu_hist s) (cpu_percent e))
              top (mem_percent e) r w Hv)
    as [line ->].
  cbn [bind].
  destruct (build_panel_spec host (deque_append (history s) latency)
                             (Some line) Hh') as [spark [_ ->]].
  cbn [bind]. eexists _, _. split; [ | reflexivity ].
  split; [ exact Hh' | ]. split; [ exact Hc' | exact Hio ].
Qed.

Lemma elapsed_nonneg (e : tick_env) :
  env_ok e -> 0 <= fsub (monotonic_sleep e) (monotonic_start e).
Proof.
  intros [_ [_ [_ [_ [_ Hm]]]]]. unfold fsub. apply round53_nonneg. lra.
Qed.

Lemma tick_returns (interval : float) (s : session) (e : tick_env) :
  interval_ok interval -> session_ok s -> env_ok e ->
  exists (s' : session) (p : Panel),
    tick host interval s e = Ok (s', p) /\ session_ok s'.
Proof.
  intros Hi Hs He.
  destruct (tick_to_sleep s e Hs He) as [s' [p [Hs' T]]].
  exists s', p. split; [ | exact Hs' ].
  rewrite T, (sleep_returns interval e _ Hi (elapsed_nonneg e He));
    [ reflexivity | ].
  destruct He as [_ [_ [Hcall _]]]. apply Hcall.
Qed.

Lemma run_ticks_returns (interval : float) (envs : list tick_env) :
  interval_ok interval ->
  forall s : session,
    session_ok s -> Forall env_ok envs ->
    exists (s' : session) (panels : list Panel),
      run_ticks host interval s envs = Ok (s', panels) /\
      session_ok s' /\ length panels = length envs.
Proof.
  intros Hi.
  induction envs as [ | e envs IH]; intros s Hs Henvs; cbn [run_ticks].
  - exists s, []. repeat split; apply Hs.
  - inversion Henvs as [ | e' envs' He Hrest]; subst.
    destruct (tick_returns interval s e Hi Hs He) as [s1 [p [-> Hs1]]].
    cbn [bind fst snd].
    destruct (IH s1 Hs1 Hrest) as [s' [panels [-> [Hs' Len]]]].
    cbn [bind fst snd]. exists s', (p :: panels).
    split; [ reflexivity | ]. split; [ exact Hs' | ]. cbn [length]. now rewrite Len.
Qed.

End LoopRuns.

Lemma env_reply_ok : env_ok env_reply.
Proof.
  split; [ intros a t ex H; discriminate H | ].
  split; [ intros a t out g H M; injection H as <-;
           vm_compute in M; injection M as <-; vm_compute; discriminate | ].
  split; [ reflexivity | ]. split; [ discriminate | ].
  split; [ cbn; lia | discriminate ].
Qed.

Lemma env_timeout_ok : env_ok env_timeout.
Proof.
  split; [ intros a t ex H; injection H as <-; now left | ].
  split; [ intros a t out g H; discriminate H | ].
  split; [ reflexivity | ]. split; [ discriminate | ].
  split; [ cbn; lia | discriminate ].
Qed.

(** X1. From the initial state, for an interval the loop can sleep for and
    against any sequence of iterations in which the process call returns or
    raises [TimeoutExpired] or [OSError], the round-trip time printed is
    within the range of the floats, no library call raises, the CPU reading
    is not negative, the disk counters are 64-bit numbers and the clock does
    not go back, the loop raises nothing: every iteration completes and
    publishes one panel, and the histories keep holding dropped or finite
    non-negative latencies and CPU readings between zero and the CPU
    maximum.  With the interval [inf] the first such iteration already
    raises [OverflowError], from [time.sleep]. *)
Theorem loop_never_raises (host : str) (interval : float)
        (io0 : option sdiskio) (t0 : Q) (envs : list tick_env) :
  counters_ok io0 -> Forall env_ok envs ->
  (interval_ok interval ->
   exists (s : session) (panels : list Panel),
     run_ticks host interval (init_session io0 t0) envs = Ok (s, panels) /\
     length panels = length envs /\
     window_ok (deque_list (history s)) /\
     Forall (fun v => 0 <= v /\ v <= cpu_max s) (deque_list (cpu_hist s))) /\
  (envs <> [] ->
   run_ticks host PosInf (init_session io0 t0) envs = Raise OverflowError).
Proof.
  intros Hio Henvs.
  assert (Hs : session_ok (init_session io0 t0))
    by (split; [ constructor | split; [ constructor | exact Hio ] ]).
  split.
  - intros Hi.
    destruct (run_ticks_returns host interval envs Hi (init_session io0 t0))
      as [s [panels [R [[Hh [Hc _]] Len]]]]; [ exact Hs | exact Henvs | ].
    exists s, panels. auto.
  - intros NE. destruct envs as [ | e envs]; [ congruence | ].
    inversion Henvs as [ | e' envs' He _]; subst. cbn [run_ticks].
    destruct (tick_to_sleep host _ e Hs He) as [s' [p [_ T]]].
    rewrite T, sleep_overflows. reflexivity.
Qed.

Lemma loop_never_raises_witness :
  (exists (s : session) (panels : list Panel),
     run_ticks (lit "8.8.8.8") one_second (init_session None 0)
               [env_reply; env_timeout]
     = Ok (s, panels) /\
     length panels = 2%nat /\
     window_ok (deque_list (history s)) /\
     Forall (fun v => 0 <= v /\ v <= cpu_max s) (deque_list (cpu_hist s))) /\
  run_ticks (lit "8.8.8.8") PosInf (init_session None 0)
            [env_reply; env_timeout]
  = Raise OverflowError.
Proof.
  pose proof env_reply_ok as E1. pose proof env_timeout_ok as E2.
  destruct (loop_never_raises (lit "8.8.8.8") one_second None 0
                              [env_reply; env_timeout])
    as [Runs _];
    [ exact I | constructor; [ exact E1 | constructor; [ exact E2 | constructor ] ] | ].
  destruct (loop_never_raises (lit "8.8.8.8") one_second None 0
                              [env_reply; env_timeout])
    as [_ Stops];
    [ exact I | constructor; [ exact E1 | constructor; [ exact E2 | constructor ] ] | ].
  split; [ apply Runs; vm_compute; discriminate | ].
  apply Stops. discriminate.
Defined.

(* ------------------------------------------------------------------ *)
(** ** Disk rates *)

Section DiskRates.

Variable host : str.
Variable interval : float.

Lemma round53_nonpos (x : Q) : x <= 0 -> round53 x <= 0.
Proof.
  intros H. apply Qle_trans with (round53 0); [ | apply Qle_refl ].
  now apply round53_mono.
Qed.

(** What one iteration does with the counters and the clock. *)
Lemma tick_io_inv (s : session) (e : tick_env) (s' : session) (p : Panel) :
  tick host interval s e = Ok (s', p) ->
  exists (r w : Q) (line : Text),
    match py_gt (fsub (monotonic_io e) (prev_time s)) 0,
          disk_io_counters e, prev_io s with
    | true, Some cur, Some prev =>
        dr <- float_of_int (read_bytes cur - read_bytes prev) ;;
        r <- fdiv dr (fsub (monotonic_io e) (prev_time s)) ;;
        dw <- float_of_int (write_bytes cur - write_bytes prev) ;;
        w <- fdiv dw (fsub (monotonic_io e) (prev_time s)) ;;
        Ok (r, w)
    | _, _, _ => Ok (0, 0)
    end = Ok (r, w) /\
    io_hist s' = deque_append (io_hist s) (fadd r w) /\
    io_max s' = py_max3 (io_max s) (fadd r w) 1024 /\
    prev_io s' = disk_io_counters e /\
    prev_time s' = monotonic_end e /\
    build_vitals_line (cpu_percent e) (cpu_hist s') (cpu_max s')
                      (mem_percent e) r w = Ok line /\
    build_panel host (history s') (Some line) = Ok p.
Proof.
  unfold tick. intros H.
  do 4 bind_inv H.
  match goal with
  | X : _ = Ok ?rw |- _ =>
      match type of rw with (Q * Q)%type => destruct rw as [r w] end
  end.
  do 5 bind_inv H. injection H as <- <-. answers. cbn [fst snd] in *.
  match goal with
  | V : build_vitals_line _ _ _ _ _ _ = Ok ?l |- _ => exists r, w, l
  end.
  cbn [io_hist io_max prev_io prev_time cpu_hist cpu_max history].
  repeat split; assumption.
Qed.

Lemma float_of_int_inv (z : Z) (q : Q) :
  float_of_int z = Ok q -> q = round53 (inject_Z z).
Proof.
  unfold float_of_int. destruct (_ || _)%bool; [ discriminate | ].
  now intros [= <-].
Qed.

Lemma build_vitals_line_io
      (cpu_pct : Q) (hist : deque Q) (top mem rd wr : Q) (line : Text) :
  build_vitals_line cpu_pct hist top mem rd wr = Ok line ->
  exists (pre : Text) (read write : str),
    format_bytes rd = Ok read /\ format_bytes wr = Ok write /\
    line = pre ++ io_group read write.
Proof.
  unfold build_vitals_line. intros H.
  bind_inv H. bind_inv H. bind_inv H. injection H as H.
  match type of H with
  | Text_append
      (Text_append (Text_append (Text_append ?P _ _) (_ :: ?r) _)
                   (_ :: _ :: ?w) _) _ _ = _ =>
      exists P, r, w
  end.
  split; [ assumption | ]. split; [ assumption | ]. rewrite <- H.
  unfold io_group, Text_append, Text_append_text, Text_new.
  cbn [app]. rewrite <- !app_assoc. reflexivity.
Qed.

Lemma build_panel_vitals_suffix
      (h : deque (option float)) (line : Text) (p : Panel) :
  build_panel host h (Some line) = Ok p ->
  exists pre : Text, renderable p = pre ++ line.
Proof.
  unfold build_panel. intros H. bind_inv H. injection H as <-.
  cbn [renderable]. unfold Text_append_text at 1. eexists. reflexivity.
Qed.

End DiskRates.

(** X2. When the disk counters cannot be read now, could not be read at the
    previous iteration, or the clock has not advanced since then, the
    iteration takes both rates as zero: it appends 0 to the IO history,
    updates the IO maximum with 0, and the panel it publishes ends with
    the group [IO ^0B v0B/s] (with the two arrows of the source). *)
Theorem io_rates_default_to_zero
        (host : str) (interval : float) (s : session) (e : tick_env)
        (s' : session) (p : Panel) :
  tick host interval s e = Ok (s', p) ->
  disk_io_counters e = None \/ prev_io s = None \/
  monotonic_io e <= prev_time s ->
  io_hist s' = deque_append (io_hist s) 0 /\
  io_max s' = py_max3 (io_max s) 0 1024 /\
  prev_io s' = disk_io_counters e /\
  exists pre : Text, renderable p = pre ++ io_group (lit "0B") (lit "0B").
Proof.
  intros H C.
  destruct (tick_io_inv host interval _ _ _ _ H)
    as [r [w [line [R [Eh [Em [Ep [_ [V B]]]]]]]]].
  assert (Z : r = 0 /\ w = 0).
  { destruct C as [C | [C | C]].
    - rewrite C in R. destruct (py_gt _ _); now injection R as <- <-.
    - rewrite C in R.
      destruct (py_gt _ _); destruct (disk_io_counters e);
        now injection R as <- <-.
    - assert (G : py_gt (fsub (monotonic_io e) (prev_time s)) 0 = false).
      { apply py_gt_false. unfold fsub. apply round53_nonpos. lra. }
      rewrite G in R. now injection R as <- <-. }
  destruct Z as [-> ->].
  split; [ exact Eh | ]. split; [ exact Em | ]. split; [ exact Ep | ].
  destruct (build_vitals_line_io _ _ _ _ _ _ _ V) as [pre [rd [wr [Fr [Fw ->]]]]].
  destruct (build_panel_vitals_suffix host _ _ _ B) as [pre' ->].
  injection Fr as <-. injection Fw as <-.
  exists (pre' ++ pre). now rewrite app_assoc.
Qed.

Lemma io_rates_default_to_zero_witness :
  exists (s' : session) (p : Panel),
    tick (lit "8.8.8.8") one_second (init_session None 0) env_reply = Ok (s', p) /\
    deque_list (io_hist s') = [0] /\
    exists pre : Text, renderable p = pre ++ io_group (lit "0B") (lit "0B").
Proof.
  destruct (tick (lit "8.8.8.8") one_second (init_session None 0) env_reply)
    as [[s' p] | ex] eqn:T; [ | vm_compute in T; discriminate T ].
  exists s', p. split; [ reflexivity | ].
  destruct (io_rates_default_to_zero _ _ _ _ _ _ T) as [Eh [_ [_ S]]].
  - right. now left.
  - split; [ | exact S ]. rewrite Eh. reflexivity.
Defined.

(** X3. When neither disk counter has gone down since the previous
    iteration, the combined rate the iteration appends to the IO history is
    not negative. *)
Theorem io_rate_nonnegative
        (host : str) (interval : float) (s : session) (e : tick_env)
        (s' : session) (p : Panel) :
  tick host interval s e = Ok (s', p) ->
  (forall cur prev : sdiskio,
     disk_io_counters e = Some cur -> prev_io s = Some prev ->
     (read_bytes prev <= read_bytes cur)%Z /\
     (write_bytes prev <= write_bytes cur)%Z) ->
  exists io_combined : Q,
    io_hist s' = deque_append (io_hist s) io_combined /\
    0 <= io_combined /\ 1024 <= io_max s' /\ io_combined <= io_max s'.
Proof.
  intros H Mono.
  destruct (tick_io_inv host interval _ _ _ _ H)
    as [r [w [line [R [Eh [Em _]]]]]].
  exists (fadd r w). split; [ exact Eh | ].
  destruct (py_max3_spec (io_max s) (fadd r w) 1024) as [_ [M2 [M3 _]]].
  rewrite <- Em in M2, M3. split; [ | split; assumption ].
  assert (Z : 0 <= r /\ 0 <= w).
  { destruct (py_gt _ _) eqn:G;
      [ | injection R as <- <-; split; apply Qle_refl ].
    destruct (disk_io_counters e) as [cur | ];
      [ | injection R as <- <-; split; apply Qle_refl ].
    destruct (prev_io s) as [prev | ];
      [ | injection R as <- <-; split; apply Qle_refl ].
    destruct (Mono cur prev eq_refl eq_refl) as [Mr Mw].
    do 4 bind_inv R. injection R as <- <-.
    repeat match goal with
           | X : float_of_int _ = Ok _ |- _ =>
               apply float_of_int_inv in X; subst
           end.
    rewrite !fdiv_const in * by now apply py_gt_nonzero.
    repeat match goal with
           | X : Ok _ = Ok _ |- _ => injection X as <-
           end.
    apply py_gt_true in G.
    split; apply round53_nonneg; (apply Qle_shift_div_l; [ exact G | ]);
      rewrite Qmult_0_l; apply round53_nonneg;
      rewrite <- (Zle_Qle 0); lia. }
  destruct Z as [Zr Zw]. unfold fadd. apply round53_nonneg. lra.
Qed.

Lemma io_rate_nonnegative_witness :
  exists (s1 s2 : session) (p1 p2 : Panel) (io_combined : Q),
    tick (lit "8.8.8.8") one_second (init_session (Some (mk_sdiskio 0 0)) 0) env_reply
    = Ok (s1, p1) /\
    tick (lit "8.8.8.8") one_second s1 env_timeout = Ok (s2, p2) /\
    io_hist s2 = deque_append (io_hist s1) io_combined /\
    0 <= io_combined.
Proof.
  destruct (tick (lit "8.8.8.8") one_second (init_session (Some (mk_sdiskio 0 0)) 0)
                 env_reply) as [[s1 p1] | ex] eqn:T1;
    [ | vm_compute in T1; discriminate T1 ].
  destruct (tick_io_inv _ _ _ _ _ _ T1) as [_ [_ [_ [_ [_ [_ [P1 _]]]]]]].
  destruct (tick_returns (lit "8.8.8.8") one_second s1 env_timeout)
    as [s2 [p2 [T2 _]]].
  - vm_compute. discriminate.
  - destruct (tick_returns (lit "8.8.8.8") one_second
                (init_session (Some (mk_sdiskio 0 0)) 0) env_reply)
      as [s1' [p1' [T1' Ok1]]].
    + vm_compute. discriminate.
    + split; [ constructor | split; [ constructor | cbn; lia ] ].
    + exact env_reply_ok.
    + rewrite T1 in T1'. now injection T1' as <- <-.
  - exact env_timeout_ok.
  - destruct (io_rate_nonnegative _ _ _ _ _ _ T2) as [x [E [N _]]].
    + intros cur prev Hc Hp. rewrite P1 in Hp.
      cbn in Hc, Hp. injection Hc as <-. injection Hp as <-. cbn. lia.
    + exists s1, s2, p1, p2, x. auto.
Defined.

(* ------------------------------------------------------------------ *)
(** ** The border follows the window *)

Section Border.

Variable host : str.
Variable interval : float.

Lemma build_panel_frame (h : deque (option float)) (v : option Text) (p : Panel) :
  build_panel host h v = Ok p ->
  border_style p
  = (if (0 <? count_drops (deque_list h))%Z then "red" else "green") /\
  title p = host /\ width p = 58%Z.
Proof.
  unfold build_panel. intros H. bind_inv H. injection H as <-.
  repeat split.
Qed.

Lemma run_ticks_snoc (envs : list tick_env) (e : tick_env) :
  forall (s s' : session) (panels : list Panel),
    run_ticks host interval s (envs ++ [e]) = Ok (s', panels) ->
    exists (s1 : session) (front : list Panel) (p : Panel),
      run_ticks host interval s envs = Ok (s1, front) /\
      tick host interval s1 e = Ok (s', p) /\ panels = front ++ [p].
Proof.
  induction envs as [ | e0 envs IH]; intros s s' panels H;
    cbn [app run_ticks] in H.
  - bind_inv H. destruct a as [s1 p]. cbn [bind fst snd] in H.
    injection H as <- <-. exists s, [], p. repeat split. exact Ha.
  - bind_inv H. destruct a as [s0 p0]. bind_inv H. destruct a as [s2 ps].
    cbn [fst snd] in *. injection H as <- <-.
    destruct (IH _ _ _ Ha0) as [s1 [front [p [R [T ->]]]]].
    exists s1, (p0 :: front), p. cbn [run_ticks].
    rewrite Ha. cbn [bind fst snd]. rewrite R. cbn [bind fst snd].
    repeat split. exact T.
Qed.

End Border.

(** X4. The panel published by an iteration has a red border exactly when
    one of the latest 30 probes, that iteration's included, was dropped, and
    a green border otherwise: a drop leaves the alert once 30 later probes
    have been answered. *)
Theorem border_follows_last_30_probes
        (host : str) (interval : float) (io0 : option sdiskio) (t0 : Q)
        (envs : list tick_env) (e : tick_env)
        (s : session) (panels : list Panel) :
  run_ticks host interval (init_session io0 t0) (envs ++ [e]) = Ok (s, panels) ->
  exists (lat : list (option float)) (front : list Panel) (p : Panel),
    Forall2 (fun e l => run_ping (subprocess_run e) host = Ok l)
            (envs ++ [e]) lat /\
    panels = front ++ [p] /\
    (border_style p = "red" <-> In None (skipn (length lat - 30) lat)) /\
    (border_style p = "green" <-> ~ In None (skipn (length lat - 30) lat)).
Proof.
  intros H.
  destruct (run_ticks_inv host interval _ _ _ _ H) as [lat [io [F [_ [Eh _]]]]].
  destruct (run_ticks_snoc host interval _ _ _ _ _ H) as [s1 [front [p [_ [T ->]]]]].
  destruct (tick_io_inv host interval _ _ _ _ T) as [_ [_ [line [_ [_ [_ [_ [_ [_ B]]]]]]]]].
  destruct (build_panel_frame host _ _ _ B) as [Eb _].
  exists lat, front, p. split; [ exact F | ]. split; [ reflexivity | ].
  assert (W : deque_list (history s) = skipn (length lat - 30) lat).
  { rewrite Eh. unfold deque_list.
    exact (proj2 (deque_fill 30 lat)). }
  rewrite Eb, W. pose proof (alert_spec (skipn (length lat - 30) lat)) as A.
  destruct (0 <? count_drops (skipn (length lat - 30) lat))%Z; split; split;
    intros X; try reflexivity; try discriminate X.
  - now apply A.
  - exfalso. apply X. now apply A.
  - apply A in X. discriminate X.
  - intros N. apply A in N. discriminate N.
Qed.

Lemma border_follows_last_30_probes_witness :
  exists (s : session) (front : list Panel) (p : Panel),
    run_ticks (lit "8.8.8.8") one_second (init_session None 0)
              ([env_reply] ++ [env_timeout])
    = Ok (s, front ++ [p]) /\
    border_style p = "red".
Proof.
  destruct (run_ticks (lit "8.8.8.8") one_second (init_session None 0)
                      ([env_reply] ++ [env_timeout]))
    as [[s panels] | ex] eqn:R; [ | vm_compute in R; discriminate R ].
  destruct (border_follows_last_30_probes _ _ _ _ _ _ _ _ R)
    as [lat [front [p [F [-> [Red _]]]]]].
  exists s, front, p. split; [ reflexivity | ]. apply Red.
  inversion F as [ | e1 l1 es ls R1 F1]; subst.
  inversion F1 as [ | e2 l2 es2 ls2 R2 F2]; subst.
  inversion F2; subst. vm_compute in R2. injection R2 as <-.
  cbn. right. now left.
Defined.

(* ------------------------------------------------------------------ *)
(** ** Glyphs and colours of the vitals sparkline *)

Section VitalsCells.

Variable max_val : Q.
Hypothesis max_val_pos : 0 < max_val.

Lemma py_int_eq (x : Q) (z : Z) : x == inject_Z z -> py_int x = z.
Proof.
  intros E. apply Z.le_antisymm.
  - apply Z.le_trans with (py_int (inject_Z z));
      [ apply py_int_mono; rewrite E; apply Qle_refl | rewrite py_int_Z; lia ].
  - apply Z.le_trans with (py_int (inject_Z z));
      [ rewrite py_int_Z; lia | apply py_int_mono; rewrite E; apply Qle_refl ].
Qed.

Lemma spark_idx_zero (v : Q) :
  v == 0 -> spark_idx (Finite v) (Finite max_val) = Ok 0%Z.
Proof.
  intros Hv.
  assert (Hi : v <= RATIO_LIMIT * max_val)
    by (apply (within_limit max_val v max_val_pos); lra).
  rewrite (spark_idx_pos max_val max_val_pos v
             (below_limit max_val max_val_pos v ltac:(lra)) Hi).
  f_equal.
  assert (R : round64 (v / max_val) == 0).
  { apply (round64_eq _ 0); [ reflexivity | ]. rewrite Hv. unfold Qdiv. ring. }
  assert (M : round64 (round64 (v / max_val) * 8) == inject_Z 0).
  { apply (round64_eq _ 0); [ reflexivity | ]. rewrite R. ring. }
  rewrite (py_int_eq _ 0 M). reflexivity.
Qed.

Lemma spark_idx_below (v : Q) :
  - (RATIO_LIMIT * max_val) <= v -> 4 * v <= - (5) * max_val ->
  exists idx : Z,
    spark_idx (Finite v) (Finite max_val) = Ok idx /\ (idx <= -10)%Z.
Proof.
  intros Lo Hv.
  assert (Hi : v <= RATIO_LIMIT * max_val)
    by (apply (within_limit max_val v max_val_pos); lra).
  rewrite (spark_idx_pos max_val max_val_pos v Lo Hi).
  eexists. split; [ reflexivity | ].
  apply Z.le_trans with (py_int (round64 (round64 (v / max_val) * 8)));
    [ apply Z.le_min_l | ].
  apply Z.le_trans with (py_int (inject_Z (-10)));
    [ | rewrite py_int_Z; lia ].
  apply py_int_mono.
  assert (R : round64 (v / max_val) <= - (5 # 4)).
  { apply Qle_trans with (round64 (- (5 # 4)));
      [ | vm_compute; discriminate ].
    apply round64_mono. apply Qle_shift_div_r; [ exact max_val_pos | lra ]. }
  apply Qle_trans with (round64 (- (10))); [ | vm_compute; discriminate ].
  apply round64_mono. lra.
Qed.

Lemma ramp_index_below (idx : Z) :
  (idx <= -10)%Z -> py_index SPARK_CHARS idx = Raise IndexError.
Proof.
  intros H. unfold py_index.
  change (Z.of_nat (length SPARK_CHARS)) with 9%Z. cbv zeta.
  destruct (Z.ltb_spec idx 0); [ | lia ].
  destruct (Z.leb_spec 0 (idx + 9)); [ lia | reflexivity ].
Qed.

(** One step of the loop of [build_vitals_sparkline], on a sample whose
    quotient by the scale is within the limit. *)
Lemma vitals_step (acc : Text) (v : Q) :
  - (RATIO_LIMIT * max_val) <= v -> v <= RATIO_LIMIT * max_val ->
  exists idx : Z,
    spark_idx (Finite v) (Finite max_val) = Ok idx /\
    match py_index SPARK_CHARS idx with
    | Ok glyph =>
        (idx <- spark_idx (Finite v) (Finite max_val) ;;
         char <- py_index SPARK_CHARS idx ;;
         ratio <- (if py_gt max_val 0
                   then fl_div (Finite v) (Finite max_val)
                   else Ok (Finite 0)) ;;
         if fl_gt ratio (Finite (float_lit (8 # 10)))
         then Ok (Text_append acc [char] "red")
         else if fl_gt ratio (Finite (float_lit (6 # 10)))
              then Ok (Text_append acc [char] "yellow")
              else Ok (Text_append acc [char] "cyan"))
        = Ok (Text_append acc [glyph]
                (if py_gt (round64 (v / max_val)) (float_lit (8 # 10))
                 then "red"
                 else if py_gt (round64 (v / max_val)) (float_lit (6 # 10))
                      then "yellow" else "cyan"))
    | Raise ex =>
        (idx <- spark_idx (Finite v) (Finite max_val) ;;
         char <- py_index SPARK_CHARS idx ;;
         ratio <- (if py_gt max_val 0
                   then fl_div (Finite v) (Finite max_val)
                   else Ok (Finite 0)) ;;
         if fl_gt ratio (Finite (float_lit (8 # 10)))
         then Ok (Text_append acc [char] "red")
         else if fl_gt ratio (Finite (float_lit (6 # 10)))
              then Ok (Text_append acc [char] "yellow")
              else Ok (Text_append acc [char] "cyan"))
        = Raise ex
    end.
Proof.
  intros Lo Hi.
  rewrite (spark_idx_pos max_val max_val_pos v Lo Hi).
  eexists. split; [ reflexivity | ].
  cbn [bind].
  destruct (py_index SPARK_CHARS _) as [glyph | ex]; cbn [bind];
    [ | reflexivity ].
  rewrite (vitals_ratio max_val v max_val_pos Lo Hi). cbn [bind fl_gt].
  destruct (py_gt (round64 (v / max_val)) (float_lit (8 # 10)));
    [ | destruct (py_gt (round64 (v / max_val)) (float_lit (6 # 10))) ];
    reflexivity.
Qed.

Lemma vitals_loop_styled :
  forall (values : list Q) (acc : Text),
    vitals_window_ok max_val values ->
    exists cells : Text,
      for_each
        (fun spark v =>
           idx <- spark_idx (Finite v) (Finite max_val) ;;
           char <- py_index SPARK_CHARS idx ;;
           ratio <- (if py_gt max_val 0
                     then fl_div (Finite v) (Finite max_val)
                     else Ok (Finite 0)) ;;
           if fl_gt ratio (Finite (float_lit (8 # 10)))
           then Ok (Text_append spark [char] "red")
           else if fl_gt ratio (Finite (float_lit (6 # 10)))
           then Ok (Text_append spark [char] "yellow")
           else Ok (Text_append spark [char] "cyan"))
        values acc = Ok (acc ++ cells) /\
      Forall2 (vitals_cell_styled max_val) values cells.
Proof.
  intros values.
  match goal with |- context [for_each ?f _ _] => set (body := f) end.
  induction values as [ | v values IH]; intros acc Hok.
  - exists []. cbn. rewrite app_nil_r. split; [ reflexivity | constructor ].
  - inversion Hok as [ | v' vs' [Hv Hi] Hvs]; subst. cbn [for_each].
    destruct (spark_idx_range max_val max_val_pos v Hv Hi) as [idx [E R]].
    destruct (ramp_index idx R) as [glyph [G _]].
    destruct (vitals_step acc v (below_limit max_val max_val_pos v Hv) Hi)
      as [idx' [E' S]].
    rewrite E in E'. injection E' as <-. rewrite G in S.
    unfold body at 1. rewrite S. cbn [bind].
    match type of S with _ = Ok (Text_append _ _ ?sty) =>
      destruct (IH (Text_append acc [glyph] sty) Hvs) as [cells [L F]];
      exists ((glyph, sty) :: cells)
    end.
    split.
    + rewrite L, Text_append_one. now rewrite <- app_assoc.
    + constructor; [ | exact F ]. exists idx, glyph. auto.
Qed.

(** The loop stops with [IndexError] at a sample far enough below zero. *)
Lemma vitals_loop_raises :
  forall (values : list Q) (acc : Text),
    Forall (fun u => - (RATIO_LIMIT * max_val) <= u /\
                     u <= RATIO_LIMIT * max_val) values ->
    (exists v, In v values /\ 4 * v <= - (5) * max_val) ->
    for_each
      (fun spark v =>
         idx <- spark_idx (Finite v) (Finite max_val) ;;
         char <- py_index SPARK_CHARS idx ;;
         ratio <- (if py_gt max_val 0
                   then fl_div (Finite v) (Finite max_val)
                   else Ok (Finite 0)) ;;
         if fl_gt ratio (Finite (float_lit (8 # 10)))
         then Ok (Text_append spark [char] "red")
         else if fl_gt ratio (Finite (float_lit (6 # 10)))
         then Ok (Text_append spark [char] "yellow")
         else Ok (Text_append spark [char] "cyan"))
      values acc = Raise IndexError.
Proof.
  intros values.
  match goal with |- context [for_each ?f _ _] => set (body := f) end.
  induction values as [ | v values IH]; intros acc Hrange [bad [Hin Hbad]].
  - destruct Hin.
  - inversion Hrange as [ | v' vs' [Lo Hi] Hrest]; subst.
    cbn [for_each]. destruct (vitals_step acc v Lo Hi) as [idx [E S]].
    unfold body at 1.
    destruct (py_index SPARK_CHARS idx) as [glyph | ex] eqn:G.
    + rewrite S. cbn [bind]. apply IH; [ exact Hrest | ].
      exists bad. split; [ | exact Hbad ].
      destruct Hin as [<- | Hin]; [ | exact Hin ].
      exfalso. destruct (spark_idx_below v Lo Hbad) as [idx' [E' Low]].
      rewrite E in E'. injection E' as <-.
      rewrite (ramp_index_below idx Low) in G. discriminate G.
    + rewrite S. cbn [bind].
      unfold py_index in G.
      destruct (_ && _)%bool in G; [ destruct (nth_error _ _) in G | ];
        congruence.
Qed.

End VitalsCells.

Lemma build_vitals_sparkline_styled (history : deque Q) (session_max : Q) :
  vitals_window_ok (py_max2 session_max 1) (deque_list history) ->
  exists spark : Text,
    build_vitals_sparkline history session_max
    = Ok (padding VITALS_SPARK_SIZE (length (deque_list history)) ++ spark) /\
    Forall2 (vitals_cell_styled (py_max2 session_max 1))
            (deque_list history) spark.
Proof.
  intros Hok. unfold build_vitals_sparkline.
  destruct (vitals_loop_styled _ (vitals_scale_pos session_max)
                               (deque_list history) Text_new Hok)
    as [cells [L F]].
  exists cells. split; [ | exact F ].
  rewrite L. cbn [bind app Text_new]. apply pad_front.
Qed.

(** X5. In the vitals sparkline of a window of samples that are not
    negative and within the range of the scale
    [m = max(session_max, 1.0)], a sample of at most 0.6 m is cyan, a sample
    from 0.61 m to 0.8 m is yellow and a sample of at least 0.81 m is red;
    a sample at or above the scale is the full block and a zero sample is
    the blank. *)
Theorem vitals_colour_bands (history : deque Q) (session_max : Q) :
  vitals_window_ok (py_max2 session_max 1) (deque_list history) ->
  exists spark : Text,
    build_vitals_sparkline history session_max
    = Ok (padding 10 (length (deque_list history)) ++ spark) /\
    forall (i : nat) (v : Q),
      nth_error (deque_list history) i = Some v ->
      exists (glyph : char) (sty : style),
        nth_error spark i = Some (glyph, sty) /\
        (10 * v <= 6 * py_max2 session_max 1 -> sty = "cyan") /\
        (61 * py_max2 session_max 1 <= 100 * v ->
         10 * v <= 8 * py_max2 session_max 1 -> sty = "yellow") /\
        (81 * py_max2 session_max 1 <= 100 * v -> sty = "red") /\
        (py_max2 session_max 1 <= v -> glyph = 9608%N) /\
        (v == 0 -> glyph = 32%N).
Proof.
  intros Hok.
  destruct (build_vitals_sparkline_styled history session_max Hok)
    as [spark [B F]].
  exists spark. split; [ exact B | ].
  intros i v Hi.
  destruct (Forall2_nth_error _ _ _ F i v Hi)
    as [cell [N [idx [glyph [S [G ->]]]]]].
  assert (Hv : vitals_sample_ok (py_max2 session_max 1) v).
  { unfold vitals_window_ok in Hok. rewrite Forall_forall in Hok.
    apply Hok. eapply nth_error_In, Hi. }
  set (m := py_max2 session_max 1) in *.
  assert (Hpos : 0 < m) by apply vitals_scale_pos.
  eexists glyph, _. split; [ exact N | ].
  set (r := round64 (v / m)).
  assert (C68 : float_lit (6 # 10) < float_lit (8 # 10))
    by (vm_compute; reflexivity).
  assert (C6 : round64 (6 # 10) <= float_lit (6 # 10))
    by (vm_compute; discriminate).
  assert (C8 : round64 (8 # 10) <= float_lit (8 # 10))
    by (vm_compute; discriminate).
  assert (C61 : float_lit (6 # 10) < round64 (61 # 100))
    by (vm_compute; reflexivity).
  assert (C81 : float_lit (8 # 10) < round64 (81 # 100))
    by (vm_compute; reflexivity).
  repeat split.
  - intros H.
    assert (R : r <= round64 (6 # 10)).
    { apply round64_mono. apply Qle_shift_div_r; [ exact Hpos | lra ]. }
    assert (G8 : py_gt r (float_lit (8 # 10)) = false)
      by (apply py_gt_false; lra).
    assert (G6 : py_gt r (float_lit (6 # 10)) = false)
      by (apply py_gt_false; lra).
    now rewrite G8, G6.
  - intros Lo Hi'.
    assert (R1 : round64 (61 # 100) <= r).
    { apply round64_mono. apply Qle_shift_div_l; [ exact Hpos | lra ]. }
    assert (R2 : r <= round64 (8 # 10)).
    { apply round64_mono. apply Qle_shift_div_r; [ exact Hpos | lra ]. }
    assert (G8 : py_gt r (float_lit (8 # 10)) = false)
      by (apply py_gt_false; lra).
    assert (G6 : py_gt r (float_lit (6 # 10)) = true)
      by (apply py_gt_true; lra).
    now rewrite G8, G6.
  - intros Lo.
    assert (R1 : round64 (81 # 100) <= r).
    { apply round64_mono. apply Qle_shift_div_l; [ exact Hpos | lra ]. }
    assert (G8 : py_gt r (float_lit (8 # 10)) = true)
      by (apply py_gt_true; lra).
    now rewrite G8.
  - intros Top. rewrite (spark_idx_clamped m Hpos v Top (proj2 Hv)) in S.
    injection S as <-. now injection G as <-.
  - intros Zero. rewrite (spark_idx_zero m Hpos v Zero) in S.
    injection S as <-. now injection G as <-.
Qed.

Lemma vitals_colour_bands_witness :
  build_vitals_sparkline (vitals_window_of [0; 50; 70; 90; 100]) 100
  = Ok (Text_of (repeat 32%N 5) ++
        [(32%N, "cyan"); (9604%N, "cyan"); (9605%N, "yellow");
         (9607%N, "red"); (9608%N, "red")]).
Proof.
  destruct (vitals_colour_bands (vitals_window_of [0; 50; 70; 90; 100]) 100)
    as [spark [B _]].
  - repeat constructor; vm_compute; discriminate.
  - rewrite B. vm_compute in B. now injection B as <-.
Defined.

(** X6. The vitals renderer does not accept every sample: in a window whose
    samples are, in absolute value, within the range of the scale
    [max(session_max, 1.0)], as soon as a sample is at or below -1.25 times
    the scale, its glyph index falls below -9, the look-up in the ramp
    fails and [build_vitals_sparkline] raises [IndexError]. *)
Theorem vitals_sparkline_raises_below_scale
        (history : deque Q) (session_max : Q) (v : Q) :
  Forall (fun u => - (RATIO_LIMIT * py_max2 session_max 1) <= u /\
                   u <= RATIO_LIMIT * py_max2 session_max 1)
         (deque_list history) ->
  In v (deque_list history) ->
  4 * v <= - (5) * py_max2 session_max 1 ->
  build_vitals_sparkline history session_max = Raise IndexError.
Proof.
  intros Hrange Hin Hlow. unfold build_vitals_sparkline.
  rewrite (vitals_loop_raises _ (vitals_scale_pos session_max)
                              (deque_list history) Text_new);
    [ reflexivity | exact Hrange | ].
  exists v. split; assumption.
Qed.

Lemma vitals_sparkline_raises_below_scale_witness :
  build_vitals_sparkline (vitals_window_of [12; - (200); 40]) 100
  = Raise IndexError.
Proof.
  apply (vitals_sparkline_raises_below_scale _ 100 (- (200))).
  - repeat constructor; vm_compute; discriminate.
  - cbn. right. now left.
  - vm_compute. discriminate.
Defined.

(* ------------------------------------------------------------------ *)
(** ** Heights in the latency sparkline *)

(** X7. In the latency sparkline of a window of well-formed samples, the
    greatest round-trip time of the window is drawn as the full block as
    soon as it reaches 5 ms, whatever its absolute value, and a round-trip
    time of zero is drawn as the blank glyph in cyan. *)
Theorem tallest_latency_is_full_block (history : deque (option float)) :
  window_ok (deque_list history) ->
  exists spark : Text,
    build_sparkline history
    = Ok (padding 30 (length (deque_list history)) ++ spark) /\
    forall (i : nat) (x : Q),
      nth_error (deque_list history) i = Some (Some (Finite x)) ->
      (5 <= x ->
       (forall y : Q, In (Some (Finite y)) (deque_list history) -> y <= x) ->
       exists sty : style, nth_error spark i = Some (9608%N, sty)) /\
      (x == 0 -> nth_error spark i = Some (32%N, "cyan")).
Proof.
  intros Hok.
  destruct (build_sparkline_spec history Hok) as [m [spark [E [B F]]]].
  destruct (latency_max_val_spec (deque_list history) Hok)
    as [m' [E' [G [U [W _]]]]].
  rewrite E in E'. injection E' as <-.
  assert (Hpos : 0 < m) by lra.
  exists spark. split; [ exact B | ].
  intros i x Hi.
  destruct (Forall2_nth_error _ _ _ F i (Some (Finite x)) Hi)
    as [cell [N [idx [glyph [S [_ [R ->]]]]]]].
  split.
  - intros H5 Hmax.
    assert (Top : m <= x)
      by (destruct W as [-> | W]; [ exact H5 | exact (Hmax m W) ]).
    assert (In_range : x <= RATIO_LIMIT * m).
    { apply within_limit; [ exact Hpos | ].
      apply U. eapply nth_error_In, Hi. }
    rewrite (spark_idx_clamped m Hpos x Top In_range) in S. injection S as <-.
    cbn in R. injection R as <-. eexists. exact N.
  - intros Zero. rewrite (spark_idx_zero m Hpos x Zero) in S.
    injection S as <-. cbn in R. injection R as <-.
    rewrite N. do 2 f_equal.
    assert (P : py_gt x (inject_Z HIGH_LATENCY_MS) = false)
      by (apply py_gt_false; rewrite Zero; discriminate).
    now rewrite P.
Qed.

Lemma tallest_latency_is_full_block_witness :
  exists (spark : Text) (sty : style),
    build_sparkline (window_of [rtt 12; None; rtt 48; rtt 0])
    = Ok (padding 30 4 ++ spark) /\
    nth_error spark 2 = Some (9608%N, sty) /\
    nth_error spark 3 = Some (32%N, "cyan").
Proof.
  destruct (tallest_latency_is_full_block
              (window_of [rtt 12; None; rtt 48; rtt 0]))
    as [spark [B C]].
  - repeat constructor; discriminate.
  - destruct (C 2%nat 48 eq_refl) as [Top _].
    destruct (C 3%nat 0 eq_refl) as [_ Zero].
    destruct Top as [sty N]; [ discriminate | | ].
    + intros y Hy. cbn in Hy.
      repeat (destruct Hy as [Hy | Hy];
              [ try discriminate Hy; injection Hy as <-; discriminate | ]).
      destruct Hy.
    + exists spark, sty. split; [ exact B | ]. split; [ exact N | ].
      apply Zero. reflexivity.
Defined.

(* ------------------------------------------------------------------ *)
(** ** Magnitudes printed by the byte formatter *)

Section Magnitudes.

Lemma round_half_even_eq (x y : Q) :
  x == y -> round_half_even x = round_half_even y.
Proof.
  intros E. apply Z.le_antisymm; apply round_half_even_mono; rewrite E;
    apply Qle_refl.
Qed.

Lemma format_f_0_nonneg (q : Q) :
  0 <= q -> format_f 0 q = str_of_N (Z.to_N (round_half_even q)).
Proof.
  intros Hq. unfold format_f.
  assert (G : py_gt 0 q = false) by now apply py_gt_false.
  rewrite G. change (10 ^ Z.of_nat 0)%Z with 1%Z. cbn [app].
  rewrite Z.div_1_r. do 2 f_equal. apply round_half_even_eq.
  rewrite (Qabs_pos q Hq). change (inject_Z 1) with 1. ring.
Qed.

Lemma format_f_1_nonneg (q : Q) :
  0 <= q ->
  format_f 1 q
  = str_of_N (Z.to_N (round_half_even (q * 10) / 10)) ++
    [46%N; (48 + Z.to_N (round_half_even (q * 10) mod 10))%N].
Proof.
  intros Hq. unfold format_f.
  assert (G : py_gt 0 q = false) by now apply py_gt_false.
  rewrite G. change (10 ^ Z.of_nat 1)%Z with 10%Z. cbn [app].
  assert (E : round_half_even (Qabs q * inject_Z 10)
              = round_half_even (q * 10)).
  { apply round_half_even_eq. rewrite (Qabs_pos q Hq). reflexivity. }
  rewrite E.
  assert (Hk : (Z.to_N (round_half_even (q * 10) mod 10) < 10)%N)
    by (pose proof (Z.mod_pos_bound (round_half_even (q * 10)) 10); lia).
  rewrite (str_of_N_small _ Hk). reflexivity.
Qed.

Lemma py_ge_true (a b : Q) : py_ge a b = true <-> b <= a.
Proof. unfold py_ge. apply Qle_bool_iff. Qed.

Lemma py_ge_false (a b : Q) : a < b -> py_ge a b = false.
Proof.
  intros H. unfold py_ge. destruct (Qle_bool b a) eqn:E; [ | reflexivity ].
  apply Qle_bool_iff in E. exfalso. lra.
Qed.

(** The branch [format_bytes] takes, by the size of its argument. *)
Lemma format_bytes_unit (n : Q) :
  (inject_Z (2 ^ 30) <= n ->
   format_bytes n
   = Ok (format_f 1 (round53 (n / inject_Z (2 ^ 30))) ++ lit "G")) /\
  (inject_Z (2 ^ 20) <= n -> n < inject_Z (2 ^ 30) ->
   format_bytes n
   = Ok (format_f 0 (round53 (n / inject_Z (2 ^ 20))) ++ lit "M")) /\
  (inject_Z (2 ^ 10) <= n -> n < inject_Z (2 ^ 20) ->
   format_bytes n
   = Ok (format_f 0 (round53 (n / inject_Z (2 ^ 10))) ++ lit "K")) /\
  (n < inject_Z (2 ^ 10) -> format_bytes n = Ok (format_f 0 n ++ lit "B")).
Proof.
  unfold format_bytes.
  change (Z.shiftl 1 30) with (2 ^ 30)%Z.
  change (Z.shiftl 1 20) with (2 ^ 20)%Z.
  change (Z.shiftl 1 10) with (2 ^ 10)%Z.
  assert (L12 : inject_Z (2 ^ 10) < inject_Z (2 ^ 20)) by reflexivity.
  assert (L23 : inject_Z (2 ^ 20) < inject_Z (2 ^ 30)) by reflexivity.
  repeat split.
  - intros H. apply py_ge_true in H. rewrite H. now rewrite fdiv_const.
  - intros H1 H2. apply py_ge_true in H1.
    rewrite (py_ge_false _ _ H2), H1. now rewrite fdiv_const.
  - intros H1 H2. apply py_ge_true in H1.
    rewrite (py_ge_false n (inject_Z (2 ^ 30))), (py_ge_false _ _ H2), H1
      by (apply Qlt_trans with (inject_Z (2 ^ 20)); assumption).
    now rewrite fdiv_const.
  - intros H1.
    rewrite (py_ge_false n (inject_Z (2 ^ 30))), (py_ge_false n (inject_Z (2 ^ 20))),
      (py_ge_false _ _ H1);
      [ reflexivity | | ].
    + apply Qlt_trans with (inject_Z (2 ^ 10)); assumption.
    + apply Qlt_trans with (inject_Z (2 ^ 10)); [ assumption | ].
      apply Qlt_trans with (inject_Z (2 ^ 20)); assumption.
Qed.

(** The quotient by a unit, rounded, stays between the rounded bounds. *)
Lemma scaled_between (n : Q) (unit lo hi : Z) :
  (0 < unit)%Z ->
  round53 (inject_Z lo) == inject_Z lo ->
  round53 (inject_Z hi) == inject_Z hi ->
  inject_Z lo * inject_Z unit <= n -> n <= inject_Z hi * inject_Z unit ->
  (lo <= round_half_even (round53 (n / inject_Z unit)) <= hi)%Z.
Proof.
  intros Hu El Eh Hlo Hhi.
  assert (Up : 0 < inject_Z unit) by (rewrite <- (Zlt_Qlt 0); exact Hu).
  split.
  - apply Z.le_trans with (round_half_even (inject_Z lo));
      [ rewrite round_half_even_Z; lia | ].
    apply round_half_even_mono.
    apply (round53_ge _ _ El). now apply Qle_shift_div_l.
  - apply Z.le_trans with (round_half_even (inject_Z hi));
      [ | rewrite round_half_even_Z; lia ].
    apply round_half_even_mono.
    apply Qle_trans with (round53 (inject_Z hi));
      [ | rewrite Eh; apply Qle_refl ].
    apply round53_mono. now apply Qle_shift_div_r.
Qed.

End Magnitudes.

(** X8. The number the byte formatter prints in front of [K] or [M] lies
    between 1 and 1024, in front of [B] (for a non-negative argument)
    between 0 and 1024, and in front of [G] it is at least 1.0 with one
    decimal and no upper bound.  The bound 1024 is reached: in the last half
    unit below the next threshold the formatter prints [1024K] or [1024M]
    rather than moving to the next unit. *)
Theorem format_bytes_magnitude (n : Q) :
  (inject_Z (2 ^ 10) <= n -> n < inject_Z (2 ^ 20) ->
   exists k : N,
     (1 <= k <= 1024)%N /\ format_bytes n = Ok (str_of_N k ++ lit "K")) /\
  (inject_Z (2 ^ 20) <= n -> n < inject_Z (2 ^ 30) ->
   exists k : N,
     (1 <= k <= 1024)%N /\ format_bytes n = Ok (str_of_N k ++ lit "M")) /\
  (0 <= n -> n < inject_Z (2 ^ 10) ->
   exists k : N,
     (k <= 1024)%N /\ format_bytes n = Ok (str_of_N k ++ lit "B")) /\
  (inject_Z (2 ^ 30) <= n ->
   exists (k : N) (d : char),
     (1 <= k)%N /\ is_digit d = true /\
     format_bytes n = Ok (str_of_N k ++ [46%N; d] ++ lit "G")) /\
  (inject_Z (2 ^ 20 - 2 ^ 9) <= n -> n < inject_Z (2 ^ 20) ->
   format_bytes n = Ok (lit "1024K")) /\
  (inject_Z (2 ^ 30 - 2 ^ 19) <= n -> n < inject_Z (2 ^ 30) ->
   format_bytes n = Ok (lit "1024M")).
Proof.
  destruct (format_bytes_unit n) as [UG [UM [UK UB]]].
  assert (E1 : round53 (inject_Z 1) == inject_Z 1) by (vm_compute; reflexivity).
  assert (E1024 : round53 (inject_Z 1024) == inject_Z 1024)
    by (vm_compute; reflexivity).
  assert (Half : round53 (2047 # 2) == 2047 # 2) by (vm_compute; reflexivity).
  assert (P10 : 0 < inject_Z (2 ^ 10)) by reflexivity.
  assert (P20 : 0 < inject_Z (2 ^ 20)) by reflexivity.
  assert (P30 : 0 < inject_Z (2 ^ 30)) by reflexivity.
  split; [ | split; [ | split; [ | split; [ | split ] ] ] ].
  - intros Lo Hi. rewrite (UK Lo Hi).
    destruct (scaled_between n (2 ^ 10) 1 1024 eq_refl E1 E1024 Lo
                             (Qlt_le_weak _ _ Hi)) as [B1 B2].
    rewrite format_f_0_nonneg
      by (apply round53_nonneg, Qle_shift_div_l; [ exact P10 | lra ]).
    eexists. split; [ | reflexivity ]. lia.
  - intros Lo Hi. rewrite (UM Lo Hi).
    destruct (scaled_between n (2 ^ 20) 1 1024 eq_refl E1 E1024 Lo
                             (Qlt_le_weak _ _ Hi)) as [B1 B2].
    rewrite format_f_0_nonneg
      by (apply round53_nonneg, Qle_shift_div_l; [ exact P20 | lra ]).
    eexists. split; [ | reflexivity ]. lia.
  - intros Lo Hi. rewrite (UB Hi), (format_f_0_nonneg n Lo).
    eexists. split; [ | reflexivity ].
    assert (B : (round_half_even n <= 1024)%Z).
    { apply Z.le_trans with (round_half_even (inject_Z 1024));
        [ | rewrite round_half_even_Z; lia ].
      apply round_half_even_mono.
      change (inject_Z 1024) with (inject_Z (2 ^ 10)). lra. }
    lia.
  - intros Lo. rewrite (UG Lo).
    set (q := round53 (n / inject_Z (2 ^ 30))).
    assert (Q1 : 1 <= q).
    { apply (round53_ge 1 _ round53_exact_1).
      apply Qle_shift_div_l; [ exact P30 | lra ]. }
    rewrite format_f_1_nonneg by lra.
    assert (B : (10 <= round_half_even (q * 10))%Z).
    { apply Z.le_trans with (round_half_even (inject_Z 10));
        [ rewrite round_half_even_Z; lia | ].
      apply round_half_even_mono. change (inject_Z 10) with 10. lra. }
    pose proof (Z.mod_pos_bound (round_half_even (q * 10)) 10) as M.
    eexists _, _. split; [ | split; [ | rewrite <- app_assoc; reflexivity ] ].
    + assert (1 <= round_half_even (q * 10) / 10)%Z
        by (apply Z.div_le_lower_bound; lia).
      lia.
    + apply ascii_digit. lia.
  - intros Lo Hi.
    assert (Lo' : inject_Z (2 ^ 10) <= n)
      by (apply Qle_trans with (inject_Z (2 ^ 20 - 2 ^ 9));
          [ discriminate | exact Lo ]).
    rewrite (UK Lo' Hi).
    destruct (scaled_between n (2 ^ 10) 1 1024 eq_refl E1 E1024 Lo'
                             (Qlt_le_weak _ _ Hi)) as [_ B2].
    set (q := round53 (n / inject_Z (2 ^ 10))) in *.
    assert (Q1 : (2047 # 2) <= q).
    { apply (round53_ge _ _ Half).
      apply Qle_shift_div_l; [ exact P10 | ].
      apply Qle_trans with (inject_Z (2 ^ 20 - 2 ^ 9));
        [ discriminate | exact Lo ]. }
    assert (B1 : (1024 <= round_half_even q)%Z).
    { change 1024%Z with (round_half_even (2047 # 2)).
      now apply round_half_even_mono. }
    rewrite format_f_0_nonneg by lra.
    replace (round_half_even q) with 1024%Z by lia. reflexivity.
  - intros Lo Hi.
    assert (Lo' : inject_Z (2 ^ 20) <= n)
      by (apply Qle_trans with (inject_Z (2 ^ 30 - 2 ^ 19));
          [ discriminate | exact Lo ]).
    rewrite (UM Lo' Hi).
    destruct (scaled_between n (2 ^ 20) 1 1024 eq_refl E1 E1024 Lo'
                             (Qlt_le_weak _ _ Hi)) as [_ B2].
    set (q := round53 (n / inject_Z (2 ^ 20))) in *.
    assert (Q1 : (2047 # 2) <= q).
    { apply (round53_ge _ _ Half).
      apply Qle_shift_div_l; [ exact P20 | ].
      apply Qle_trans with (inject_Z (2 ^ 30 - 2 ^ 19));
        [ discriminate | exact Lo ]. }
    assert (B1 : (1024 <= round_half_even q)%Z).
    { change 1024%Z with (round_half_even (2047 # 2)).
      now apply round_half_even_mono. }
    rewrite format_f_0_nonneg by lra.
    replace (round_half_even q) with 1024%Z by lia. reflexivity.
Qed.

(* ------------------------------------------------------------------ *)
(** ** The width of the ping line *)

Section Widths.

Variable test : N -> bool.

Let step (st : N * bool) : N * bool :=
  (N.succ (fst st), (snd st && test (fst st))%bool).

(** A test run on the numbers below [n] holds of each of them. *)
Lemma checked_below (n : N) :
  fst (N.iter n step (0%N, true)) = n /\
  (snd (N.iter n step (0%N, true)) = true ->
   forall j : N, (j < n)%N -> test j = true).
Proof.
  induction n as [ | n [IHf IHs]] using N.peano_ind.
  - split; [ reflexivity | ]. intros _ j Hj. lia.
  - rewrite N.iter_succ. unfold step at 1 3. cbn [fst snd]. rewrite IHf.
    split; [ reflexivity | ].
    intros H. apply andb_prop in H as [H1 H2]. intros j Hj.
    destruct (N.eq_dec j n) as [-> | NE]; [ exact H2 | ].
    apply IHs; [ exact H1 | lia ].
Qed.

End Widths.

Section PingLine.

Lemma str_of_N_length (n : N) :
  (n < 100000)%N ->
  (1 <= length (str_of_N n) <= 5)%nat /\
  ((n < 100)%N -> (length (str_of_N n) <= 2)%nat) /\
  ((n < 1000)%N -> (length (str_of_N n) <= 3)%nat) /\
  ((n < 10000)%N -> (length (str_of_N n) <= 4)%nat).
Proof.
  intros H.
  pose proof (checked_below
                (fun k => ((1 <=? length (str_of_N k))%nat &&
                           (length (str_of_N k) <=? 5)%nat &&
                           ((100 <=? k)%N ||
                            (length (str_of_N k) <=? 2)%nat) &&
                           ((1000 <=? k)%N ||
                            (length (str_of_N k) <=? 3)%nat) &&
                           ((10000 <=? k)%N ||
                            (length (str_of_N k) <=? 4)%nat))%bool)
                100000) as [_ C].
  specialize (C ltac:(vm_compute; reflexivity) n H). cbv beta in C.
  apply andb_prop in C as [C C5]. apply andb_prop in C as [C C4].
  apply andb_prop in C as [C C3]. apply andb_prop in C as [C1 C2].
  apply Nat.leb_le in C1, C2. split; [ lia | ].
  repeat split; intros Hn;
    match goal with
    | X : (_ || _)%bool = true |- (_ <= ?b)%nat =>
        match type of X with
        | context [(_ <=? b)%nat] =>
            apply orb_prop in X as [X | X];
            [ apply N.leb_le in X; lia | now apply Nat.leb_le in X ]
        end
    end.
Qed.

Lemma Text_append_length (s : str) (sty : style) :
  length (Text_append Text_new s sty) = length s.
Proof. unfold Text_append, Text_new. cbn [app]. apply length_map. Qed.

Lemma panel_latest_length (values : list (option float)) :
  window_ok values ->
  (forall older x, values = older ++ [Some (Finite x)] -> x <= 99999) ->
  length (panel_latest values) = 9%nat.
Proof.
  intros Hok Hmax. unfold panel_latest.
  destruct values as [ | v values]; [ reflexivity | ].
  destruct (exists_last (l := v :: values)) as [older [l E]];
    [ discriminate | ].
  rewrite E, last_last.
  assert (Hl : sample_ok l).
  { unfold window_ok in Hok. rewrite E in Hok.
    apply Forall_app in Hok as [_ Hl]. now inversion Hl. }
  destruct l as [[x | | | ] | ]; cbn in Hl; try contradiction;
    [ | reflexivity ].
  rename Hl into Hx.
  specialize (Hmax older x E). cbn [fl_format_f].
  rewrite Text_append_length. unfold ljust.
  rewrite length_app, repeat_length, length_app.
  rewrite (format_f_1_nonneg x Hx), length_app. cbn [length].
  assert (B : (0 <= round_half_even (x * 10) <= 999990)%Z).
  { split.
    - apply Z.le_trans with (round_half_even (inject_Z 0));
        [ rewrite round_half_even_Z; lia | ].
      apply round_half_even_mono. change (inject_Z 0) with 0. lra.
    - apply Z.le_trans with (round_half_even (inject_Z 999990));
        [ | rewrite round_half_even_Z; lia ].
      apply round_half_even_mono. change (inject_Z 999990) with 999990. lra. }
  assert (D : (0 <= round_half_even (x * 10) / 10 < 100000)%Z).
  { split; [ apply Z.div_pos; lia | apply Z.div_lt_upper_bound; lia ]. }
  destruct (str_of_N_length (Z.to_N (round_half_even (x * 10) / 10)))
    as [[L1 L2] _]; [ lia | ].
  change (length (lit "ms")) with 2%nat. lia.
Qed.

Lemma panel_phrase_length (values : list (option float)) :
  (length values <= 30)%nat ->
  (7 <= length (panel_phrase values) <= 9)%nat.
Proof.
  intros Hlen.
  assert (Hd : (drop_count values <= length values)%nat)
    by apply filter_length_le.
  destruct (panel_phrase_cases values) as [P0 [P1 [P2 P3]]].
  destruct values as [ | v values]; [ rewrite (P0 eq_refl); cbn; lia | ].
  set (values' := v :: values) in *.
  destruct (Nat.eq_dec (drop_count values') 0) as [D0 | D0];
    [ rewrite (P1 ltac:(discriminate) D0); cbn; lia | ].
  destruct (Nat.eq_dec (drop_count values') 1) as [D1 | D1];
    [ rewrite (P2 D1); cbn; lia | ].
  rewrite (P3 ltac:(lia)), Text_append_length, length_app.
  destruct (str_of_N_length (N.of_nat (drop_count values')))
    as [[L1 _] [L2 _]]; [ lia | ].
  specialize (L2 ltac:(lia)).
  change (length (lit " drops!")) with 7%nat. lia.
Qed.

End PingLine.

(** X9. Without a vitals line, the text of a panel is 52 to 54 cells long,
    so within the 54 cells inside the border and the padding of a panel 58
    cells wide, for every window of at most 30 well-formed samples whose
    latest round-trip time, if any, is at most 99999 ms. *)
Theorem ping_line_fits_panel (host : str) (history : deque (option float)) :
  window_ok (deque_list history) ->
  (length (deque_list history) <= 30)%nat ->
  (forall older x,
     deque_list history = older ++ [Some (Finite x)] -> x <= 99999) ->
  exists p : Panel,
    build_panel host history None = Ok p /\
    (52 <= length (renderable p) <= 54)%nat /\
    (Z.of_nat (length (renderable p)) <= width p - 4)%Z.
Proof.
  intros Hok Hlen Hmax.
  destruct (build_sparkline_spec history Hok) as [m [cells [_ [S F]]]].
  destruct (build_panel_spec host history None Hok) as [spark [S' B]].
  rewrite S in S'. injection S' as <-.
  eexists. split; [ exact B | ]. cbn [renderable width vitals_part].
  rewrite !length_app, panel_status_length,
    (panel_latest_length _ Hok Hmax), padding_length,
    (Forall2_length_eq _ _ _ F).
  pose proof (panel_phrase_length _ Hlen) as P.
  change (length (Text_of (lit "   "))) with 3%nat. cbn [length].
  change HISTORY_SIZE with 30%Z. lia.
Qed.

Lemma ping_line_fits_panel_witness :
  exists p : Panel,
    build_panel (lit "8.8.8.8") (window_of [rtt 20; None; rtt 1500]) None
    = Ok p /\
    (52 <= length (renderable p) <= 54)%nat /\
    (Z.of_nat (length (renderable p)) <= width p - 4)%Z.
Proof.
  apply (ping_line_fits_panel (lit "8.8.8.8")
           (window_of [rtt 20; None; rtt 1500])).
  - repeat constructor; discriminate.
  - vm_compute. lia.
  - intros older x E.
    change (deque_list _) with ([rtt 20; None] ++ [rtt 1500]) in E.
    apply app_inj_tail in E as [_ E]. injection E as <-. discriminate.
Defined.

(* ------------------------------------------------------------------ *)
(** ** The vitals line and the last panel *)

Section VitalsLine.

(** The vitals line, group by group. *)
Lemma build_vitals_line_shape
      (cpu_pct : Q) (hist : deque Q) (top mem rd wr : Q) (line : Text) :
  build_vitals_line cpu_pct hist top mem rd wr = Ok line ->
  exists (spark : Text) (read write : str),
    build_vitals_sparkline hist top = Ok spark /\
    format_bytes rd = Ok read /\ format_bytes wr = Ok write /\
    line = cpu_group cpu_pct ++ spark ++ mem_group mem ++ io_group read write.
Proof.
  unfold build_vitals_line. intros H.
  bind_inv H. bind_inv H. bind_inv H. injection H as <-.
  exists a, a0, a1. repeat split; try assumption.
  unfold cpu_group, mem_group, io_group, Text_append, Text_append_text,
    Text_new.
  cbn [app]. rewrite <- !app_assoc. reflexivity.
Qed.

Lemma format_f_0_length (x : Q) :
  0 <= x -> x <= 100 -> (1 <= length (format_f 0 x) <= 3)%nat.
Proof.
  intros Lo Hi. rewrite (format_f_0_nonneg x Lo).
  assert (B : (0 <= round_half_even x <= 100)%Z).
  { split.
    - apply Z.le_trans with (round_half_even (inject_Z 0));
        [ rewrite round_half_even_Z; lia | ].
      now apply round_half_even_mono.
    - apply Z.le_trans with (round_half_even (inject_Z 100));
        [ | rewrite round_half_even_Z; lia ].
      now apply round_half_even_mono. }
  destruct (str_of_N_length (Z.to_N (round_half_even x)))
    as [[L1 _] [_ [L3 _]]]; [ lia | ].
  specialize (L3 ltac:(lia)). lia.
Qed.

Lemma format_bytes_length (n : Q) (s : str) :
  0 <= n -> n < inject_Z (2 ^ 30) -> format_bytes n = Ok s ->
  (2 <= length s <= 5)%nat.
Proof.
  intros Lo Hi E.
  assert (K : exists (k : N) (unit : str),
             (k <= 1024)%N /\ length unit = 1%nat /\ s = str_of_N k ++ unit).
  { destruct (format_bytes_unit n) as [_ [UM [UK UB]]].
    destruct (Qlt_le_dec n (inject_Z (2 ^ 10))) as [B | B].
    - rewrite (UB B), (format_f_0_nonneg n Lo) in E. injection E as <-.
      eexists _, _. split; [ | split; [ | reflexivity ] ]; [ | reflexivity ].
      assert ((round_half_even n <= 1024)%Z).
      { apply Z.le_trans with (round_half_even (inject_Z 1024));
          [ | rewrite round_half_even_Z; lia ].
        apply round_half_even_mono.
        change (inject_Z 1024) with (inject_Z (2 ^ 10)). lra. }
      lia.
    - assert (E1 : round53 (inject_Z 1) == inject_Z 1)
        by (vm_compute; reflexivity).
      assert (E1024 : round53 (inject_Z 1024) == inject_Z 1024)
        by (vm_compute; reflexivity).
      destruct (Qlt_le_dec n (inject_Z (2 ^ 20))) as [C | C].
      + rewrite (UK B C) in E.
        destruct (scaled_between n (2 ^ 10) 1 1024 eq_refl E1 E1024 B
                                 (Qlt_le_weak _ _ C)) as [B1 B2].
        rewrite format_f_0_nonneg in E
          by (apply round53_nonneg, Qle_shift_div_l; [ reflexivity | lra ]).
        injection E as <-.
        eexists _, _. split; [ | split; [ | reflexivity ] ]; [ | reflexivity ].
        change (Z.pow_pos 2 10) with (2 ^ 10)%Z.
        change (Z.pow_pos 2 20) with (2 ^ 20)%Z. lia.
      + rewrite (UM C Hi) in E.
        destruct (scaled_between n (2 ^ 20) 1 1024 eq_refl E1 E1024 C
                                 (Qlt_le_weak _ _ Hi)) as [B1 B2].
        rewrite format_f_0_nonneg in E
          by (apply round53_nonneg, Qle_shift_div_l; [ reflexivity | lra ]).
        injection E as <-.
        eexists _, _. split; [ | split; [ | reflexivity ] ]; [ | reflexivity ].
        change (Z.pow_pos 2 10) with (2 ^ 10)%Z.
        change (Z.pow_pos 2 20) with (2 ^ 20)%Z. lia. }
  destruct K as [k [unit [Hk [Hu ->]]]].
  destruct (str_of_N_length k) as [[L1 _] [_ [_ L4]]]; [ lia | ].
  specialize (L4 ltac:(lia)). rewrite length_app, Hu. lia.
Qed.

End VitalsLine.


(** X10. When the loop is interrupted in a state whose latency window holds
    well-formed samples and whose CPU samples are not negative and within
    the range of the scale [max(cpu_max, 1.0)] (they may exceed the scale,
    as after an interrupt between the append of a reading and the update
    of the maximum), the last panel is built without raising.  Its vitals
    line, after a line break, opens with the CPU group of the most recent
    CPU reading, or of zero when no reading was taken, and ends with the IO
    group of two zero rates; its border is red exactly when the window
    holds a dropped sample. *)
Theorem final_panel_shows_last_state
        (host : str) (s : session) (mem_percent : Q) :
  window_ok (deque_list (history s)) ->
  vitals_window_ok (py_max2 (cpu_max s) 1) (deque_list (cpu_hist s)) ->
  exists (p : Panel) (head middle : Text),
    final_panel host s mem_percent = Ok p /\
    renderable p
    = head ++ Text_of [10%N] ++
      cpu_group (last (deque_list (cpu_hist s)) 0) ++ middle ++
      io_group (lit "0B") (lit "0B") /\
    (border_style p = "red" <-> In None (deque_list (history s))) /\
    title p = host.
Proof.
  intros Hh Hc. unfold final_panel.
  set (c := match deque_list (cpu_hist s) with
            | [] => 0
            | _ :: _ => last (deque_list (cpu_hist s)) 0
            end).
  assert (Ec : c = last (deque_list (cpu_hist s)) 0)
    by (unfold c; now destruct (deque_list (cpu_hist s))).
  destruct (build_vitals_line_returns c (cpu_hist s) (cpu_max s)
                                      mem_percent 0 0 Hc) as [line V].
  rewrite V. cbn [bind].
  destruct (build_vitals_line_shape _ _ _ _ _ _ _ V)
    as [spark [r [w [_ [Fr [Fw ->]]]]]].
  injection Fr as <-. injection Fw as <-.
  match goal with |- context [build_panel host (history s) (Some ?l)] =>
    destruct (build_panel_spec host (history s) (Some l) Hh) as [sp [_ B]]
  end.
  eexists _, _, (spark ++ mem_group mem_percent).
  split; [ exact B | ]. cbn [renderable border_style title vitals_part].
  split; [ | split; [ | reflexivity ] ].
  - rewrite <- Ec. rewrite <- !app_assoc.
    match goal with
    | |- ?a ++ ?b ++ ?c ++ ?d ++ ?e ++ ?f ++ ?g ++ ?rest = _ =>
        instantiate (1 := a ++ b ++ c ++ d ++ e ++ f ++ g)
    end.
    rewrite <- !app_assoc. reflexivity.
  - pose proof (alert_spec (deque_list (history s))) as A.
    destruct (0 <? count_drops (deque_list (history s)))%Z; split; intros X;
      try reflexivity; try discriminate X.
    + now apply A.
    + apply A in X. discriminate X.
Qed.

Lemma final_panel_shows_last_state_witness :
  exists (p : Panel) (head middle : Text),
    final_panel (lit "8.8.8.8") session_interrupted 41 = Ok p /\
    renderable p
    = head ++ Text_of [10%N] ++ cpu_group 95 ++ middle ++
      io_group (lit "0B") (lit "0B") /\
    border_style p = "red".
Proof.
  destruct (final_panel_shows_last_state (lit "8.8.8.8") session_interrupted 41)
    as [p [head [middle [F [R [B _]]]]]].
  - repeat constructor. discriminate.
  - repeat constructor; vm_compute; discriminate.
  - exists p, head, middle. split; [ exact F | ]. split; [ exact R | ].
    apply B. cbn. right. now left.
Defined.

(** X11. For a CPU and a memory reading between 0 and 100, two rates from 0
    to below 2^30 bytes per second and a CPU history of at most 10 samples
    that are not negative and within the range of the scale, the vitals
    line is built and is 44 to 51 cells long, within the 54 cells a panel
    offers: the CPU group takes the first 9 cells and the CPU sparkline the
    next 10. *)
Theorem vitals_line_fits_panel
        (cpu_pct : Q) (hist : deque Q) (top mem rd wr : Q) :
  vitals_window_ok (py_max2 top 1) (deque_list hist) ->
  (length (deque_list hist) <= 10)%nat ->
  0 <= cpu_pct -> cpu_pct <= 100 -> 0 <= mem -> mem <= 100 ->
  0 <= rd -> rd < inject_Z (2 ^ 30) -> 0 <= wr -> wr < inject_Z (2 ^ 30) ->
  exists (line spark rest : Text),
    build_vitals_line cpu_pct hist top mem rd wr = Ok line /\
    build_vitals_sparkline hist top = Ok spark /\
    line = cpu_group cpu_pct ++ spark ++ rest /\
    length (cpu_group cpu_pct) = 9%nat /\ length spark = 10%nat /\
    (44 <= length line <= 51)%nat /\
    (Z.of_nat (length line) <= PANEL_WIDTH - 4)%Z.
Proof.
  intros Hok Hlen C0 C1 M0 M1 R0 R1 W0 W1.
  destruct (build_vitals_line_returns cpu_pct hist top mem rd wr Hok)
    as [line V].
  destruct (build_vitals_line_shape _ _ _ _ _ _ _ V)
    as [spark [r [w [S [Fr [Fw ->]]]]]].
  destruct (build_vitals_sparkline_spec hist top Hok) as [cells [S' F]].
  rewrite S in S'. injection S' as ->.
  pose proof (Forall2_length_eq _ _ _ F) as Lc.
  pose proof (format_bytes_length rd r R0 R1 Fr) as Lr.
  pose proof (format_bytes_length wr w W0 W1 Fw) as Lw.
  pose proof (format_f_0_length cpu_pct C0 C1) as Lcpu.
  pose proof (format_f_0_length mem M0 M1) as Lmem.
  assert (Gc : length (cpu_group cpu_pct) = 9%nat).
  { unfold cpu_group. rewrite length_app, !Text_append_length, length_app.
    unfold rjust. rewrite length_app, repeat_length.
    change (length (lit " CPU ")) with 5%nat.
    change (length (lit "%")) with 1%nat. unfold char in *. lia. }
  assert (Gs : length (padding VITALS_SPARK_SIZE (length (deque_list hist))
                       ++ cells) = 10%nat).
  { rewrite length_app, padding_length, Lc.
    change VITALS_SPARK_SIZE with 10%Z. lia. }
  assert (Gm : (13 <= length (mem_group mem) <= 14)%nat).
  { unfold mem_group. rewrite !length_app, !Text_append_length, length_app.
    unfold rjust. rewrite length_app, repeat_length.
    change (length (lit "MEM ")) with 4%nat.
    change (length (lit "%")) with 1%nat. cbn [length]. unfold char in *.
    lia. }
  assert (Gi : length (io_group r w) = (8 + length r + length w)%nat).
  { unfold io_group. rewrite !length_app, !Text_append_length.
    change (length (lit "IO ")) with 3%nat.
    change (length (lit "/s")) with 2%nat. cbn [length]. unfold str, char in *.
    lia. }
  eexists _, _, _. split; [ exact V | ]. split; [ exact S | ].
  split; [ reflexivity | ]. split; [ exact Gc | ]. split; [ exact Gs | ].
  rewrite !length_app in *. change PANEL_WIDTH with 58%Z.
  unfold str, char in *. lia.
Qed.

Lemma vitals_line_fits_panel_witness :
  exists (line spark rest : Text),
    build_vitals_line 12 (vitals_window_of [5; 50; 12]) 50 82 204800 17408
    = Ok line /\
    build_vitals_sparkline (vitals_window_of [5; 50; 12]) 50 = Ok spark /\
    line = cpu_group 12 ++ spark ++ rest /\
    length (cpu_group 12) = 9%nat /\ length spark = 10%nat /\
    (44 <= length line <= 51)%nat /\
    (Z.of_nat (length line) <= PANEL_WIDTH - 4)%Z.
Proof.
  apply (vitals_line_fits_panel 12 (vitals_window_of [5; 50; 12])
                                50 82 204800 17408);
    try discriminate; try reflexivity.
  - repeat constructor; vm_compute; discriminate.
  - vm_compute. lia.
Defined.

(* ------------------------------------------------------------------ *)
(** ** What the probe reads in the output of [ping] *)

Section Reading.

Lemma strip_prefix_app (p r : str) : strip_prefix p (p ++ r) = Some r.
Proof.
  induction p as [ | c p IH]; cbn [app strip_prefix]; [ reflexivity | ].
  now rewrite N.eqb_refl.
Qed.

Lemma strip_prefix_inv (p s r : str) :
  strip_prefix p s = Some r -> s = p ++ r.
Proof.
  revert s. induction p as [ | c p IH]; intros s H; cbn [strip_prefix] in H.
  - now injection H as ->.
  - destruct s as [ | d s]; [ discriminate H | ].
    destruct (N.eqb_spec c d) as [-> | NE]; [ | discriminate H ].
    cbn [app]. f_equal. exact (IH _ H).
Qed.

(** White space is one of the 29 characters of the table. *)
Lemma is_space_in (c : char) : is_space c = true -> In c WHITE_SPACE.
Proof.
  unfold is_space. intros H. apply existsb_exists in H as [w [Hin E]].
  apply N.eqb_eq in E. now subst w.
Qed.

(** No white space is a digit or the point. *)
Lemma space_not_digit (c : char) :
  is_space c = true -> is_digit c = false /\ (c =? 46)%N = false.
Proof.
  intros H. apply is_space_in in H. unfold WHITE_SPACE in H.
  repeat (destruct H as [<- | H]; [ split; vm_compute; reflexivity | ]).
  destruct H.
Qed.

(** The start of what follows a numeral in a time field is no digit and no
    point. *)
Lemma after_numeral (sp post : str) :
  forallb is_space sp = true ->
  match sp ++ lit "ms" ++ post with
  | [] => True
  | c :: _ => is_digit c = false /\ (c =? 46)%N = false
  end.
Proof.
  intros Hs. destruct sp as [ | c sp]; [ split; vm_compute; reflexivity | ].
  cbn [app]. cbn [forallb] in Hs. apply andb_prop in Hs as [Hc _].
  now apply space_not_digit.
Qed.

Lemma after_numeral_no_digit (sp post : str) :
  forallb is_space sp = true ->
  match sp ++ lit "ms" ++ post with
  | [] => True
  | c :: _ => is_digit c = false
  end.
Proof.
  intros Hs. pose proof (after_numeral sp post Hs) as A.
  destruct (sp ++ lit "ms" ++ post); [ exact I | apply A ].
Qed.

Lemma span_space_ms (sp post : str) :
  forallb is_space sp = true ->
  span is_space (sp ++ lit "ms" ++ post) = (sp, lit "ms" ++ post).
Proof.
  intros Hs. apply span_stop; [ exact Hs | ]. vm_compute. reflexivity.
Qed.

Lemma match_time_here_field (g sp post : str) :
  time_field g sp ->
  match_time_here (lit "time=" ++ g ++ sp ++ lit "ms" ++ post) = Some g.
Proof.
  intros [[whole [frac [NE [Fw [Ff Hg]]]]] Hs].
  unfold match_time_here. rewrite strip_prefix_app. cbv beta iota.
  pose proof (after_numeral sp post Hs) as A.
  pose proof (span_space_ms sp post Hs) as Ssp.
  unfold str, char in *.
  destruct Hg as [-> | [-> ->]].
  - rewrite <- app_assoc. cbn [app].
    rewrite (span_stop is_digit whole) by (exact Fw || exact point_not_digit).
    destruct whole as [ | w0 whole']; [ congruence | ].
    rewrite N.eqb_refl.
    rewrite (span_stop is_digit frac);
      [ | exact Ff | now apply after_numeral_no_digit ].
    rewrite Ssp, strip_prefix_app. reflexivity.
  - rewrite (span_stop is_digit whole);
      [ | exact Fw | now apply after_numeral_no_digit ].
    destruct whole as [ | w0 whole']; [ congruence | ].
    destruct sp as [ | c sp'].
    + cbn. now rewrite app_nil_r.
    + cbn [forallb] in Hs. apply andb_prop in Hs as [Hc Hs'].
      destruct (space_not_digit c Hc) as [Nd Np].
      cbn [app]. rewrite Np. cbn [span].
      rewrite Nd. cbn [span]. rewrite Hc.
      rewrite (span_stop is_space sp') by (exact Hs' || reflexivity).
      rewrite strip_prefix_app. now rewrite app_nil_r.
Qed.

Lemma match_time_here_inv (s g : str) :
  match_time_here s = Some g ->
  exists sp post : str,
    s = lit "time=" ++ g ++ sp ++ lit "ms" ++ post /\ time_field g sp.
Proof.
  unfold match_time_here.
  destruct (strip_prefix (lit "time=") s) as [r | ] eqn:P; [ | discriminate ].
  apply strip_prefix_inv in P. subst s.
  destruct (span is_digit r) as [whole r1] eqn:S1.
  destruct (span_spec _ _ _ _ S1) as [-> [Fw Stop]].
  destruct whole as [ | w0 whole']; [ discriminate | ].
  destruct r1 as [ | c r']; [ cbn [span]; intros H; discriminate H | ].
  destruct (c =? 46)%N eqn:Ec.
  - apply N.eqb_eq in Ec. subst c.
    destruct (span is_digit r') as [frac r3] eqn:S2.
    destruct (span_spec _ _ _ _ S2) as [-> [Ff _]].
    destruct (span is_space r3) as [sp r4] eqn:S3.
    destruct (span_spec _ _ _ _ S3) as [-> [Fs _]].
    destruct (strip_prefix (lit "ms") r4) as [post | ] eqn:P; [ | discriminate ].
    apply strip_prefix_inv in P. subst r4.
    intros [= <-]. exists sp, post. split.
    + cbn [app]. rewrite <- ?app_assoc. reflexivity.
    + split; [ | exact Fs ]. exists (w0 :: whole'), frac.
      repeat split; try assumption; [ discriminate | now left ].
  - cbn [span]. rewrite Stop.
    destruct (span is_space (c :: r')) as [sp r4] eqn:S3.
    destruct (span_spec _ _ _ _ S3) as [E3 [Fs _]].
    destruct (strip_prefix (lit "ms") r4) as [post | ] eqn:P; [ | discriminate ].
    apply strip_prefix_inv in P. subst r4.
    intros [= <-]. exists sp, post. split.
    + rewrite E3. cbn [app]. rewrite <- ?app_assoc, ?app_nil_r. reflexivity.
    + split; [ | exact Fs ]. exists (w0 :: whole'), []. rewrite !app_nil_r.
      repeat split; try assumption; [ discriminate | now right ].
Qed.

Lemma re_search_time_inv (s g : str) :
  re_search_time s = Some g ->
  exists pre suf : str, s = pre ++ suf /\ match_time_here suf = Some g.
Proof.
  induction s as [ | c s IH]; cbn [re_search_time].
  - destruct (match_time_here []) eqn:E; [ | discriminate ].
    intros [= <-]. now exists [], [].
  - destruct (match_time_here (c :: s)) eqn:E.
    + intros [= <-]. now exists [], (c :: s).
    + intros H. destruct (IH H) as [pre [suf [-> M]]].
      now exists (c :: pre), suf.
Qed.

Lemma re_search_time_finds (pre suf g : str) :
  match_time_here suf = Some g ->
  exists g' : str, re_search_time (pre ++ suf) = Some g'.
Proof.
  intros M. induction pre as [ | c pre IH]; cbn [app].
  - exists g. destruct suf; cbn [re_search_time]; now rewrite M.
  - cbn [re_search_time].
    destruct (match_time_here (c :: pre ++ suf)) as [g1 | ];
      [ now exists g1 | exact IH ].
Qed.

Lemma re_search_time_field (s : str) :
  re_search_time s = None -> ~ has_time_field s.
Proof.
  intros R [pre [g [sp [post [-> F]]]]].
  destruct (re_search_time_finds pre _ g (match_time_here_field g sp post F))
    as [g' R'].
  congruence.
Qed.

Lemma run_ping_completed (run : list str -> Q -> run_outcome)
      (host stdout : str) :
  (forall args t, run args t = Completed stdout) ->
  run_ping run host
  = match re_search_time stdout with
    | Some group1 => v <- py_float group1 ;; Ok (Some v)
    | None => Ok None
    end.
Proof.
  intros H. destruct (run_ping_call run host) as [t [_ ->]]. now rewrite H.
Qed.

End Reading.

(** X12. When [ping] completes, the probe reports a round-trip time exactly
    when its output holds a field [time=<numeral><white space>ms], where the
    numeral is a run of decimal digits, possibly followed by a point and
    more digits, the digits and the white space being those of Unicode:
    without such a field the result is the dropped marker, and a reported
    time is the float nearest to the value of the numeral of such a field of
    the output, [inf] when the numeral is beyond the floats. *)
Theorem run_ping_reads_time_field
        (run : list str -> Q -> run_outcome) (host stdout : str) :
  (forall args t, run args t = Completed stdout) ->
  (has_time_field stdout ->
   exists v : float, run_ping run host = Ok (Some v)) /\
  (~ has_time_field stdout -> run_ping run host = Ok None) /\
  (forall v : float,
     run_ping run host = Ok (Some v) ->
     exists pre g sp post whole frac : str,
       stdout = pre ++ lit "time=" ++ g ++ sp ++ lit "ms" ++ post /\
       numeral g whole frac /\ forallb is_space sp = true /\
       v = b64 (decimal_value whole frac) /\ fl_nonneg v).
Proof.
  intros Hrun. rewrite (run_ping_completed run host stdout Hrun).
  split; [ | split ].
  - intros [pre [g [sp [post [-> F]]]]].
    destruct (re_search_time_finds pre _ g (match_time_here_field g sp post F))
      as [g' R].
    rewrite R. destruct (re_search_time_float _ _ R) as [whole [frac [_ Fv]]].
    rewrite Fv. cbn [bind]. eexists. reflexivity.
  - intros No. destruct (re_search_time stdout) as [g | ] eqn:R;
      [ | reflexivity ].
    exfalso. apply No.
    destruct (re_search_time_inv _ _ R) as [pre [suf [-> M]]].
    destruct (match_time_here_inv _ _ M) as [sp [post [-> F]]].
    now exists pre, g, sp, post.
  - intros v H. destruct (re_search_time stdout) as [g | ] eqn:R;
      [ | discriminate H ].
    bind_inv H. injection H as <-.
    destruct (re_search_time_inv _ _ R) as [pre [suf [-> M]]].
    destruct (match_time_here_inv _ _ M) as [sp [post [-> [[whole [frac N]] Fs]]]].
    rewrite (py_float_numeral g whole frac N) in Ha. injection Ha as <-.
    exists pre, g, sp, post, whole, frac.
    split; [ reflexivity | ]. split; [ exact N | ]. split; [ exact Fs | ].
    split; [ reflexivity | ].
    apply b64_nonneg, decimal_value_nonneg.
Qed.

Lemma run_ping_reads_time_field_witness :
  exists v : float,
    run_ping (fun _ _ => Completed reply_arabic) (lit "8.8.8.8")
    = Ok (Some v).
Proof.
  destruct (run_ping_reads_time_field
              (fun _ _ => Completed reply_arabic) (lit "8.8.8.8")
              reply_arabic (fun _ _ => eq_refl)) as [Has _].
  apply Has.
  exists (lit "rtt "), [1635%N; 46%N; 1637%N], [160%N], [].
  split; [ reflexivity | ]. split; [ | reflexivity ].
  exists [1635%N], [1637%N].
  repeat split; try reflexivity; [ discriminate | now left ].
Defined.

(* ------------------------------------------------------------------ *)
(** ** A failed probe on the panel *)

Section FailedProbe.

Variable host : str.

Lemma run_ping_dropped (run : list str -> Q -> run_outcome) :
  (forall args t,
     run args t = Raises TimeoutExpired \/ run args t = Raises OSError \/
     exists out, run args t = Completed out /\ ~ has_time_field out) ->
  run_ping run host = Ok None.
Proof.
  intros H. destruct (run_ping_call run host) as [t [_ ->]].
  match goal with |- context [run ?a ?t] =>
    destruct (H a t) as [-> | [-> | [out [-> No]]]]
  end; try reflexivity.
  destruct (re_search_time out) as [g | ] eqn:R; [ | reflexivity ].
  exfalso. apply No.
  destruct (re_search_time_inv _ _ R) as [pre [suf [-> M]]].
  destruct (match_time_here_inv _ _ M) as [sp [post [-> F]]].
  now exists pre, g, sp, post.
Qed.

Lemma deque_append_last {A : Type} (d : deque A) (x : A) :
  (0 < maxlen d)%nat ->
  exists older : list A, deque_list (deque_append d x) = older ++ [x].
Proof.
  intros Hm. unfold deque_append, deque_list.
  destruct (_ <? _)%nat eqn:E; cbn [items]; [ | now exists (items d) ].
  destruct (items d) as [ | a rest]; [ | now exists rest ].
  cbn [app length] in E. apply Nat.ltb_lt in E. lia.
Qed.

End FailedProbe.

(** X13. A probe that fails shows on the panel of the same iteration: when
    the process call raises [TimeoutExpired] or [OSError], or completes with
    an output that holds no time field, the iteration appends the dropped
    marker to the history, and the panel it publishes has the [timeout]
    placeholder as latest reading, the warning glyph and a red border. *)
Theorem failed_probe_shows_at_once
        (host : str) (interval : float) (s : session) (e : tick_env)
        (s' : session) (p : Panel) :
  tick host interval s e = Ok (s', p) ->
  window_ok (deque_list (history s)) ->
  (0 < maxlen (history s))%nat ->
  (forall args t,
     subprocess_run e args t = Raises TimeoutExpired \/
     subprocess_run e args t = Raises OSError \/
     exists out,
       subprocess_run e args t = Completed out /\ ~ has_time_field out) ->
  (exists older, deque_list (history s') = older ++ [None]) /\
  latest_field p = timeout_text /\
  status_glyph p = Text_append Text_new [32; 9888; 32]%N "bold yellow" /\
  border_style p = "red".
Proof.
  intros T Hok Hm Hfail.
  destruct (tick_inv host interval _ _ _ _ T) as [l [io [R [Eh _]]]].
  rewrite (run_ping_dropped host _ Hfail) in R. injection R as <-.
  destruct (tick_io_inv host interval _ _ _ _ T)
    as [_ [_ [line [_ [_ [_ [_ [_ [_ B]]]]]]]]].
  destruct (deque_append_last (history s) None Hm) as [older Eo].
  rewrite <- Eh in Eo.
  assert (Hok' : window_ok (deque_list (history s')))
    by (rewrite Eh; apply deque_append_Forall; [ exact Hok | exact I ]).
  destruct (build_panel_spec host (history s') (Some line) Hok')
    as [spark [_ B']].
  rewrite B in B'. injection B' as ->.
  assert (Hin : In None (deque_list (history s')))
    by (rewrite Eo; apply in_or_app; right; now left).
  split; [ now exists older | ].
  unfold latest_field, status_glyph. cbn [renderable border_style].
  rewrite (firstn_exact 3) by apply panel_status_length.
  rewrite (skipn_exact 3) by apply panel_status_length.
  split; [ | split ].
  - apply panel_latest_timeout, last_is_dropped. right. now exists older.
  - now apply (proj1 (panel_status_alert _)).
  - apply alert_spec in Hin. now rewrite Hin.
Qed.

Lemma failed_probe_shows_at_once_witness :
  exists (s' : session) (p : Panel),
    tick (lit "8.8.8.8") one_second (init_session None 0) env_no_field
    = Ok (s', p) /\
    deque_list (history s') = [None] /\
    latest_field p = timeout_text /\ border_style p = "red".
Proof.
  destruct (tick (lit "8.8.8.8") one_second (init_session None 0)
                 env_no_field)
    as [[s' p] | ex] eqn:T; [ | vm_compute in T; discriminate T ].
  destruct (failed_probe_shows_at_once _ _ _ _ _ _ T)
    as [_ [L [_ Bd]]].
  - constructor.
  - cbn. lia.
  - intros args t. right. right. exists reply_unreachable.
    split; [ reflexivity | ].
    apply re_search_time_field. vm_compute. reflexivity.
  - exists s', p. split; [ reflexivity | ]. split; [ | split; assumption ].
    destruct (tick_inv _ _ _ _ _ _ T) as [l [io [R [Eh _]]]].
    vm_compute in R. injection R as <-. rewrite Eh. reflexivity.
Defined.

(* ------------------------------------------------------------------ *)
(** ** The session maxima bound the histories *)

Section Baseline.

Variable host : str.
Variable interval : float.

Lemma Forall_le_weaken (xs : list Q) (a b : Q) :
  a <= b -> Forall (fun v => v <= a) xs -> Forall (fun v => v <= b) xs.
Proof.
  intros Hab. apply Forall_impl. intros v Hv. lra.
Qed.

Lemma tick_bounded (s : session) (e : tick_env) (s' : session) (p : Panel) :
  tick host interval s e = Ok (s', p) ->
  Forall (fun v => v <= cpu_max s) (deque_list (cpu_hist s)) ->
  Forall (fun v => v <= io_max s) (deque_list (io_hist s)) ->
  Forall (fun v => v <= cpu_max s') (deque_list (cpu_hist s')) /\
  Forall (fun v => v <= io_max s') (deque_list (io_hist s')).
Proof.
  intros T Hc Hi.
  destruct (tick_inv host interval _ _ _ _ T)
    as [l [io [_ [_ [Ec [Ei [Mc Mi]]]]]]].
  destruct (py_max3_spec (cpu_max s) (cpu_percent e) 10) as [C1 [C2 _]].
  destruct (py_max3_spec (io_max s) io 1024) as [I1 [I2 _]].
  rewrite <- Mc in C1, C2. rewrite <- Mi in I1, I2. split.
  - rewrite Ec. apply deque_append_Forall; [ | exact C2 ].
    exact (Forall_le_weaken _ _ _ C1 Hc).
  - rewrite Ei. apply deque_append_Forall; [ | exact I2 ].
    exact (Forall_le_weaken _ _ _ I1 Hi).
Qed.

Lemma run_ticks_bounded (envs : list tick_env) :
  forall (s s' : session) (panels : list Panel),
    run_ticks host interval s envs = Ok (s', panels) ->
    Forall (fun v => v <= cpu_max s) (deque_list (cpu_hist s)) ->
    Forall (fun v => v <= io_max s) (deque_list (io_hist s)) ->
    Forall (fun v => v <= cpu_max s') (deque_list (cpu_hist s')) /\
    Forall (fun v => v <= io_max s') (deque_list (io_hist s')).
Proof.
  induction envs as [ | e envs IH]; intros s s' panels H Hc Hi;
    cbn [run_ticks] in H.
  - injection H as <- <-. now split.
  - bind_inv H. destruct a as [s1 p1]. bind_inv H. destruct a as [s2 ps].
    cbn [fst snd] in *. injection H as <- <-.
    destruct (tick_bounded _ _ _ _ Ha Hc Hi) as [Hc1 Hi1].
    exact (IH _ _ _ Ha0 Hc1 Hi1).
Qed.

End Baseline.

(** X14. In the state reached after any number of completed iterations from
    the initial state, no sample of the CPU history exceeds the CPU session
    maximum and no sample of the IO history exceeds the IO session maximum.
    The panel an iteration publishes carries the vitals line built from the
    CPU history and the CPU maximum of the state it reaches, so the CPU
    sparkline of a published panel shows no sample above its scale.  (The
    IO history is not drawn, and the panel printed after an interrupt in
    the middle of an iteration is not covered.) *)
Theorem session_maxima_bound_histories
        (host : str) (interval : float) (io0 : option sdiskio) (t0 : Q)
        (envs : list tick_env) (s : session) (panels : list Panel) :
  run_ticks host interval (init_session io0 t0) envs = Ok (s, panels) ->
  (Forall (fun v => v <= cpu_max s) (deque_list (cpu_hist s)) /\
   Forall (fun v => v <= io_max s) (deque_list (io_hist s))) /\
  (forall (e : tick_env) (s' : session) (p : Panel),
     tick host interval s e = Ok (s', p) ->
     exists (r w : Q) (line head : Text),
       build_vitals_line (cpu_percent e) (cpu_hist s') (cpu_max s')
                         (mem_percent e) r w = Ok line /\
       renderable p = head ++ line /\
       py_max2 (cpu_max s') 1 = cpu_max s' /\
       Forall (fun v => v <= cpu_max s') (deque_list (cpu_hist s'))).
Proof.
  intros H.
  destruct (run_ticks_bounded host interval envs _ _ _ H) as [Hc Hi];
    [ constructor | constructor | ].
  split; [ now split | ].
  intros e s' p T.
  destruct (tick_bounded host interval _ _ _ _ T Hc Hi) as [Hc' _].
  destruct (tick_io_inv host interval _ _ _ _ T)
    as [r [w [line [_ [_ [_ [_ [_ [V B]]]]]]]]].
  destruct (build_panel_vitals_suffix host _ _ _ B) as [head R].
  destruct (tick_inv host interval _ _ _ _ T) as [_ [_ [_ [_ [_ [_ [Mc _]]]]]]].
  exists r, w, line, head.
  split; [ exact V | ]. split; [ exact R | ]. split; [ | exact Hc' ].
  destruct (py_max3_spec (cpu_max s) (cpu_percent e) 10) as [_ [_ [C3 _]]].
  rewrite <- Mc in C3.
  destruct (py_max2_cases (cpu_max s') 1) as [[E _] | [_ L]];
    [ exact E | exfalso; lra ].
Qed.

Lemma session_maxima_bound_histories_witness :
  exists (s : session) (panels : list Panel),
    run_ticks (lit "8.8.8.8") one_second (init_session None 0)
              [env_reply; env_timeout]
    = Ok (s, panels) /\
    Forall (fun v => v <= cpu_max s) (deque_list (cpu_hist s)) /\
    Forall (fun v => v <= io_max s) (deque_list (io_hist s)).
Proof.
  destruct (run_ticks (lit "8.8.8.8") one_second (init_session None 0)
                      [env_reply; env_timeout]) as [[s panels] | ex] eqn:R;
    [ | vm_compute in R; discriminate R ].
  exists s, panels. split; [ reflexivity | ].
  exact (proj1 (session_maxima_bound_histories _ _ _ _ _ _ _ R)).
Defined.

(* ------------------------------------------------------------------ *)
(** ** The latest reading and its glyph agree *)

(** X15. When the most recent sample of a window of well-formed samples is
    a round-trip time, the panel colours it by the same threshold in its two
    places: strictly above 100 ms the latest reading is bold yellow and the
    last glyph of the sparkline yellow, otherwise the reading is bold green
    and the glyph cyan. *)
Theorem latest_reading_matches_last_glyph
        (host : str) (history : deque (option float))
        (vitals_line : option Text)
        (older : list (option float)) (x : Q) :
  window_ok (deque_list history) ->
  deque_list history = older ++ [Some (Finite x)] ->
  exists (p : Panel) (front : Text) (glyph : char) (sty field_sty : style),
    build_panel host history vitals_line = Ok p /\
    build_sparkline history = Ok (front ++ [(glyph, sty)]) /\
    latest_field p
    = firstn 9 (Text_append Text_new (ljust 9 (format_f 1 x ++ lit "ms"))
                            field_sty) /\
    (100 < x -> field_sty = "bold yellow" /\ sty = "yellow") /\
    (x <= 100 -> field_sty = "bold green" /\ sty = "cyan").
Proof.
  intros Hok E.
  destruct (build_sparkline_spec history Hok) as [m [cells [_ [S F]]]].
  destruct (build_panel_spec host history vitals_line Hok) as [spark [S' B]].
  rewrite S in S'. injection S' as <-.
  rewrite E in F. apply Forall2_app_inv_l in F as [c1 [c2 [F1 [F2 ->]]]].
  inversion F2 as [ | v cell vs cs Hcell Hnil]; subst.
  inversion Hnil; subst.
  destruct Hcell as [idx [glyph [_ [_ [_ ->]]]]].
  eexists _, (padding HISTORY_SIZE (length (deque_list history)) ++ c1),
    glyph, _, _.
  split; [ exact B | ]. split; [ rewrite S, <- app_assoc; reflexivity | ].
  unfold latest_field. cbn [renderable].
  rewrite (skipn_exact 3) by apply panel_status_length.
  unfold panel_latest. rewrite E.
  replace (match older ++ [Some (Finite x)] with
           | [] => None
           | _ :: _ => last (older ++ [Some (Finite x)]) None
           end) with (Some (Finite x))
    by (rewrite last_last; now destruct older).
  cbn [fl_format_f fl_gt].
  change (inject_Z HIGH_LATENCY_MS) with 100.
  split.
  - rewrite firstn_app.
    replace (9 - length _)%nat with 0%nat; [ cbn [firstn]; apply app_nil_r | ].
    rewrite Text_append_length.
    pose proof (ljust_length 9 (format_f 1 x ++ lit "ms")). lia.
  - split; intros H.
    + apply py_gt_true in H. now rewrite H.
    + apply py_gt_false in H. now rewrite H.
Qed.

Lemma latest_reading_matches_last_glyph_witness :
  exists (p : Panel) (front : Text) (glyph : char),
    build_panel (lit "8.8.8.8") (window_of [rtt 20; rtt 150]) None = Ok p /\
    build_sparkline (window_of [rtt 20; rtt 150])
    = Ok (front ++ [(glyph, "yellow")]) /\
    latest_field p
    = firstn 9 (Text_append Text_new (ljust 9 (format_f 1 150 ++ lit "ms"))
                            "bold yellow").
Proof.
  destruct (latest_reading_matches_last_glyph
              (lit "8.8.8.8") (window_of [rtt 20; rtt 150]) None
              [rtt 20] 150)
    as [p [front [glyph [sty [fsty [B [S [L [Hi _]]]]]]]]].
  - repeat constructor; discriminate.
  - reflexivity.
  - destruct Hi as [-> ->]; [ reflexivity | ].
    exists p, front, glyph. auto.
Defined.
